(** * LangSwap: the line-oriented conversion pipeline, embedded in Rocq

    The development follows the JavaScript sources of the converter:
    [BaseLanguageConverter], its ten per-language subclasses and the
    orchestrator [convertCode].

    JavaScript strings are modelled as lists of code units; a code unit is
    an [ascii], read as the code points U+0000..U+00FF.  Regular expressions
    are kept as the source writes them: every pattern is the source literal,
    parsed by [Regex.parse] and run by a backtracking matcher that follows
    the ECMAScript matching order. *)

From Stdlib Require Import String Ascii DecimalString ZArith Lia Bool Arith PeanoNat List.
Import ListNotations.

Set Implicit Arguments.

(** ** Strings *)

Definition str := list ascii.

Definition L (s : string) : str := list_ascii_of_string s.
Arguments L s%_string.

Module Str.

Definition code (c : ascii) : nat := nat_of_ascii c.

Definition ch (n : nat) : ascii := ascii_of_nat n.

Definition nl : ascii := ch 10.
Definition cr : ascii := ch 13.

(** ECMAScript [WhiteSpace] and [LineTerminator] below U+0100: what
    [String.prototype.trim] strips and what [\s] matches. *)
Definition is_ws (c : ascii) : bool :=
  let n := code c in
  ((9 <=? n) && (n <=? 13)) || (n =? 32) || (n =? 160).

Definition is_digit (c : ascii) : bool :=
  let n := code c in (48 <=? n) && (n <=? 57).

(** [\w]: ASCII letters, digits and underscore. *)
Definition is_word (c : ascii) : bool :=
  let n := code c in
  ((65 <=? n) && (n <=? 90)) || ((97 <=? n) && (n <=? 122))
  || is_digit c || (n =? 95).

Definition ceq (a b : ascii) : bool := Ascii.eqb a b.

Fixpoint eqb (a b : str) : bool :=
  match a, b with
  | [], [] => true
  | x :: a', y :: b' => ceq x y && eqb a' b'
  | _, _ => false
  end.

(** [s.trimStart()] *)
Fixpoint trimStart (s : str) : str :=
  match s with
  | c :: s' => if is_ws c then trimStart s' else s
  | [] => []
  end.

(** [s.trimEnd()], also spelled [trimRight] *)
Definition trimEnd (s : str) : str := rev (trimStart (rev s)).

(** [s.trim()] *)
Definition trim (s : str) : str := trimEnd (trimStart s).

(** [s.startsWith(p)] *)
Fixpoint startsWith (s p : str) : bool :=
  match p, s with
  | [], _ => true
  | x :: p', y :: s' => ceq x y && startsWith s' p'
  | _ :: _, [] => false
  end.

(** [s.endsWith(p)] *)
Definition endsWith (s p : str) : bool := startsWith (rev s) (rev p).

(** [s.indexOf(p)], [None] for -1 *)
Fixpoint indexOf_from (i : nat) (s p : str) : option nat :=
  if startsWith s p then Some i
  else match s with
       | [] => None
       | _ :: s' => indexOf_from (S i) s' p
       end.

Definition indexOf (s p : str) : option nat := indexOf_from 0 s p.

(** [s.includes(p)] *)
Definition includes (s p : str) : bool :=
  match indexOf s p with Some _ => true | None => false end.

(** [s.substring(a, b)]: the smaller argument is the start. *)
Definition substring (s : str) (a b : nat) : str :=
  firstn (Nat.max a b - Nat.min a b) (skipn (Nat.min a b) s).

(** [s.substring(a)] *)
Definition substringFrom (s : str) (a : nat) : str := skipn a s.

(** [s.slice(a, -b)] for non-negative [a] and a count [b] from the end *)
Definition sliceEnd (s : str) (a b : nat) : str :=
  firstn (List.length s - b - a) (skipn a s).

(** [s.repeat(n)] *)
Fixpoint repeat (s : str) (n : nat) : str :=
  match n with
  | O => []
  | S n' => s ++ repeat s n'
  end.

(** [s.split('\n')]: the accumulator holds the current piece, reversed. *)
Fixpoint split_acc (sep : ascii) (acc : str) (s : str) : list str :=
  match s with
  | [] => [rev acc]
  | c :: s' =>
      if ceq c sep then rev acc :: split_acc sep [] s'
      else split_acc sep (c :: acc) s'
  end.

Definition split (sep : ascii) (s : str) : list str := split_acc sep [] s.

Definition lines (s : str) : list str := split nl s.

(** [a.join(sep)] *)
Fixpoint join (sep : str) (l : list str) : str :=
  match l with
  | [] => []
  | [x] => x
  | x :: l' => x ++ sep ++ join sep l'
  end.

Definition unlines (l : list str) : str := join [nl] l.

(** A JavaScript string used as a condition: truthy iff non-empty. *)
Definition truthy (s : str) : bool :=
  match s with [] => false | _ => true end.

(** Number of occurrences of a character, for [(s.match(/c/g) || []).length]. *)
Definition count_char (c : ascii) (s : str) : nat :=
  List.length (filter (ceq c) s).

End Str.

Arguments Str.ceq : simpl never.
Arguments Str.nl : simpl never.

(** ** Regular expressions

    The subset of ECMAScript regular expressions the converters use:
    literals, classes, [.], anchors, [\b], groups, alternation, greedy and
    lazy quantifiers, lookahead and backreferences.  No pattern of the
    sources puts a capturing group under a quantifier, so captures are not
    reset between iterations. *)

Module Regex.

Inductive citem : Type :=
| IChar (c : ascii)
| IRange (lo hi : ascii)
| ISpace
| IWord
| IDigit.

Inductive re : Type :=
| RSet (neg : bool) (items : list citem)   (* a class, an escape or a literal *)
| RDot                                       (* any but a line terminator *)
| REps
| RSeq (a b : re)
| RAlt (a b : re)
| RQuant (greedy : bool) (lo : nat) (hi : option nat) (a : re)
| RGroup (n : nat) (a : re)
| RBol (multiline : bool)
| REol (multiline : bool)
| RWordB
| RLook (neg : bool) (a : re)
| RBackref (n : nat).

Definition in_item (c : ascii) (i : citem) : bool :=
  match i with
  | IChar x => Str.ceq c x
  | IRange lo hi => (Str.code lo <=? Str.code c) && (Str.code c <=? Str.code hi)
  | ISpace => Str.is_ws c
  | IWord => Str.is_word c
  | IDigit => Str.is_digit c
  end.

Definition in_set (neg : bool) (items : list citem) (c : ascii) : bool :=
  xorb neg (existsb (in_item c) items).

Definition is_lt (c : ascii) : bool := Str.ceq c Str.nl || Str.ceq c Str.cr.

(** Matcher state: the consumed input (reversed), the remaining input and
    the captures, most recent first. *)
Record st : Type := mkSt {
  pre : str;
  rest : str;
  caps : list (nat * str)
}.

Fixpoint cap_lookup (n : nat) (c : list (nat * str)) : option str :=
  match c with
  | [] => None
  | (k, v) :: c' => if k =? n then Some v else cap_lookup n c'
  end.

Definition step1 (s : st) : option (ascii * st) :=
  match rest s with
  | [] => None
  | c :: r => Some (c, mkSt (c :: pre s) r (caps s))
  end.

Fixpoint eat (lit : str) (s : st) : option st :=
  match lit with
  | [] => Some s
  | x :: lit' =>
      match step1 s with
      | Some (c, s') => if Str.ceq x c then eat lit' s' else None
      | None => None
      end
  end.

Definition at_word_boundary (s : st) : bool :=
  let a := match pre s with c :: _ => Str.is_word c | [] => false end in
  let b := match rest s with c :: _ => Str.is_word c | [] => false end in
  xorb a b.

Definition orelse {A} (x : option A) (y : option A) : option A :=
  match x with Some _ => x | None => y end.

Definition below (n : nat) (hi : option nat) : bool :=
  match hi with None => true | Some h => n <? h end.

(** The iterations of a quantifier over a body matcher [ma]: [cnt]
    iterations are done; past the minimum an iteration that consumes
    nothing is rejected, which also bounds the iterations by [fuel]. *)
Fixpoint quant_loop (ma : (st -> option st) -> st -> option st)
         (greedy : bool) (lo : nat) (hi : option nat) (k : st -> option st)
         (fuel cnt : nat) (s0 : st) {struct fuel} : option st :=
  let iter :=
    if below cnt hi then
      ma (fun s1 =>
            if (lo <=? cnt) && (length (rest s1) =? length (rest s0))
            then None
            else match fuel with
                 | O => None
                 | S f => quant_loop ma greedy lo hi k f (S cnt) s1
                 end) s0
    else None in
  let stop := if lo <=? cnt then k s0 else None in
  if greedy then orelse iter stop else orelse stop iter.

(** The text consumed between two states, the older one first. *)
Definition consumed (s s1 : st) : str :=
  rev (firstn (length (pre s1) - length (pre s)) (pre s1)).

(** Backtracking matcher in continuation-passing style: [m r k s] matches
    [r] at [s] and hands every way of doing so to [k], in priority order. *)
Fixpoint m (r : re) (k : st -> option st) (s : st) {struct r} : option st :=
  match r with
  | RSet neg items =>
      match step1 s with
      | Some (c, s') => if in_set neg items c then k s' else None
      | None => None
      end
  | RDot =>
      match step1 s with
      | Some (c, s') => if is_lt c then None else k s'
      | None => None
      end
  | REps => k s
  | RSeq a b => m a (m b k) s
  | RAlt a b => orelse (m a k s) (m b k s)
  | RQuant greedy lo hi a =>
      quant_loop (m a) greedy lo hi k (lo + length (rest s) + 1) 0 s
  | RGroup n a =>
      m a (fun s1 => k (mkSt (pre s1) (rest s1) ((n, consumed s s1) :: caps s1))) s
  | RBol ml =>
      match pre s with
      | [] => k s
      | c :: _ => if ml && is_lt c then k s else None
      end
  | REol ml =>
      match rest s with
      | [] => k s
      | c :: _ => if ml && is_lt c then k s else None
      end
  | RWordB => if at_word_boundary s then k s else None
  | RLook neg a =>
      match m a (fun s1 => Some s1) s with
      | Some s1 => if neg then None else k (mkSt (pre s) (rest s) (caps s1))
      | None => if neg then k s else None
      end
  | RBackref n =>
      match cap_lookup n (caps s) with
      | None => k s
      | Some txt => match eat txt s with Some s1 => k s1 | None => None end
      end
  end.

(** One attempt at the current position. *)
Definition match_here (r : re) (p rst : str) : option st :=
  m r (fun s => Some s) (mkSt p rst []).

(** A successful match: text before it (reversed), the matched text, the
    captures and the input after it. *)
Record found : Type := mkFound {
  before_rev : str;
  matched : str;
  groups : list (nat * str);
  after : str
}.

Definition mk_found (p : str) (s1 : st) : found :=
  mkFound p (rev (firstn (length (pre s1) - length p) (pre s1)))
          (caps s1) (rest s1).

(** Leftmost match at or after the current position. *)
Fixpoint search (r : re) (p rst : str) {struct rst} : option found :=
  match match_here r p rst with
  | Some s1 => Some (mk_found p s1)
  | None =>
      match rst with
      | [] => None
      | c :: rst' => search r (c :: p) rst'
      end
  end.

(** [re.exec(s)] / [s.match(re)] without the [g] flag *)
Definition exec (r : re) (s : str) : option found := search r [] s.

(** [re.test(s)] *)
Definition test (r : re) (s : str) : bool :=
  match exec r s with Some _ => true | None => false end.

(** Group [n] of a match; [None] is [undefined]. *)
Definition group (f : found) (n : nat) : option str := cap_lookup n (groups f).

(** *** Replacement

    A replacement string is a template: literal text, [$n] for a group and
    [$&] for the whole match. *)

Inductive piece : Type :=
| TLit (c : ascii)
| TGroup (n : nat)
| TWhole.

Definition digit_val (c : ascii) : nat := Str.code c - 48.

Fixpoint template (t : str) : list piece :=
  match t with
  | [] => []
  | c :: t' =>
      if Str.ceq c (Str.ch 36) then
        match t' with
        | d :: t'' =>
            if Str.is_digit d && negb (Str.ceq d (Str.ch 48))
            then TGroup (digit_val d) :: template t''
            else if Str.ceq d (Str.ch 38) then TWhole :: template t''
            else TLit c :: template t'
        | [] => [TLit c]
        end
      else TLit c :: template t'
  end.

Definition expand1 (f : found) (p : piece) : str :=
  match p with
  | TLit c => [c]
  | TGroup n => match group f n with Some v => v | None => [] end
  | TWhole => matched f
  end.

Definition expand (t : list piece) (f : found) : str :=
  concat (map (expand1 f) t).

(** Text skipped between the position [p] where a search began and the
    start of the match it found. *)
Definition skipped (p : str) (f : found) : str :=
  rev (firstn (List.length (before_rev f) - List.length p) (before_rev f)).

(** [s.replace(re, fn)] with the [g] flag, the replacement computed from
    the match. *)
Fixpoint replace_loop (r : re) (fn : found -> str) (fuel : nat) (p rst : str) : str :=
  match fuel with
  | O => rst
  | S fuel' =>
      match search r p rst with
      | None => rst
      | Some f =>
          let p' := rev (matched f) ++ before_rev f in
          skipped p f ++ fn f ++
          match matched f with
          | [] =>
              match after f with
              | [] => []
              | c :: a' => c :: replace_loop r fn fuel' (c :: p') a'
              end
          | _ :: _ => replace_loop r fn fuel' p' (after f)
          end
      end
  end.

Definition replace_all_fn (r : re) (fn : found -> str) (s : str) : str :=
  replace_loop r fn (S (List.length s)) [] s.

(** [s.replace(/re/g, 'template')] *)
Definition replace_all (r : re) (t : str) (s : str) : str :=
  replace_all_fn r (expand (template t)) s.

(** [s.replace(/re/, 'template')]: the first match only *)
Definition replace_first (r : re) (t : str) (s : str) : str :=
  match exec r s with
  | None => s
  | Some f => rev (before_rev f) ++ expand (template t) f ++ after f
  end.

(** *** Splitting: [s.split(re)] with the captures spliced in *)

Fixpoint ngroups (r : re) : nat :=
  match r with
  | RSeq a b | RAlt a b => ngroups a + ngroups b
  | RQuant _ _ _ a | RLook _ a => ngroups a
  | RGroup _ a => S (ngroups a)
  | _ => 0
  end.

Definition captures (n : nat) (c : list (nat * str)) : list (option str) :=
  map (fun i => cap_lookup i c) (seq 1 n).

(** [pend] is the text since the end of the previous separator, reversed;
    [p] the whole consumed prefix, reversed. *)
Fixpoint split_loop (r : re) (fuel : nat) (pend p rst : str) : list (option str) :=
  match fuel with
  | O => [Some (rev pend ++ rst)]
  | S fuel' =>
      match rst with
      | [] => [Some (rev pend)]
      | c :: rst' =>
          match match_here r p rst with
          | None => split_loop r fuel' (c :: pend) (c :: p) rst'
          | Some s1 =>
              if (List.length (pre s1) =? List.length p) && negb (Str.truthy pend)
              then split_loop r fuel' (c :: pend) (c :: p) rst'
              else Some (rev pend) :: captures (ngroups r) (caps s1)
                   ++ split_loop r fuel' [] (pre s1) (rest s1)
          end
      end
  end.

Definition split (r : re) (s : str) : list (option str) :=
  match s with
  | [] => match match_here r [] [] with Some _ => [] | None => [Some []] end
  | _ => split_loop r (2 * List.length s + 2) [] [] s
  end.

(** *** Reading a pattern from its source text *)

Definition c_lparen := Str.ch 40.
Definition c_rparen := Str.ch 41.
Definition c_star := Str.ch 42.
Definition c_plus := Str.ch 43.
Definition c_comma := Str.ch 44.
Definition c_minus := Str.ch 45.
Definition c_dot := Str.ch 46.
Definition c_colon := Str.ch 58.
Definition c_eq := Str.ch 61.
Definition c_quest := Str.ch 63.
Definition c_bang := Str.ch 33.
Definition c_lbrack := Str.ch 91.
Definition c_bslash := Str.ch 92.
Definition c_rbrack := Str.ch 93.
Definition c_caret := Str.ch 94.
Definition c_lbrace := Str.ch 123.
Definition c_bar := Str.ch 124.
Definition c_rbrace := Str.ch 125.
Definition c_dollar := Str.ch 36.

Definition lit (c : ascii) : re := RSet false [IChar c].

Definition hex_val (c : ascii) : nat :=
  let n := Str.code c in
  if Str.is_digit c then n - 48
  else if (97 <=? n) && (n <=? 102) then n - 87
  else n - 55.

(** The character or class an escape [\c] denotes inside or outside [[...]]. *)
Definition escape_item (c : ascii) : citem :=
  if Str.ceq c "s" then ISpace
  else if Str.ceq c "w" then IWord
  else if Str.ceq c "d" then IDigit
  else if Str.ceq c "n" then IChar Str.nl
  else if Str.ceq c "r" then IChar Str.cr
  else if Str.ceq c "t" then IChar (Str.ch 9)
  else IChar c.

Fixpoint read_nat (acc : nat) (s : str) : nat * str :=
  match s with
  | c :: s' => if Str.is_digit c then read_nat (10 * acc + digit_val c) s' else (acc, s)
  | [] => (acc, s)
  end.

(** Items of a class up to the closing bracket. *)
Fixpoint class_items (fuel : nat) (s : str) : option (list citem * str) :=
  match fuel with
  | O => None
  | S f =>
      match s with
      | [] => None
      | c :: s1 =>
          if Str.ceq c c_rbrack then Some ([], s1)
          else
            let first :=
              if Str.ceq c c_bslash then
                match s1 with
                | e :: s2 =>
                    if Str.ceq e "x" then
                      match s2 with
                      | h1 :: h2 :: s3 => Some (IChar (Str.ch (16 * hex_val h1 + hex_val h2)), s3)
                      | _ => None
                      end
                    else Some (escape_item e, s2)
                | [] => None
                end
              else Some (IChar c, s1) in
            match first with
            | None => None
            | Some (IChar lo, d :: hi :: s3) =>
                if Str.ceq d c_minus && negb (Str.ceq hi c_rbrack) then
                  match class_items f s3 with
                  | Some (its, s4) => Some (IRange lo hi :: its, s4)
                  | None => None
                  end
                else
                  match class_items f (d :: hi :: s3) with
                  | Some (its, s4) => Some (IChar lo :: its, s4)
                  | None => None
                  end
            | Some (it, s2) =>
                match class_items f s2 with
                | Some (its, s4) => Some (it :: its, s4)
                | None => None
                end
            end
      end
  end.

(** A quantifier after an atom, if one is there. *)
Definition quantifier (s : str) : option (nat * option nat * str) :=
  match s with
  | c :: s1 =>
      if Str.ceq c c_star then Some (0, None, s1)
      else if Str.ceq c c_plus then Some (1, None, s1)
      else if Str.ceq c c_quest then Some (0, Some 1, s1)
      else if Str.ceq c c_lbrace then
        match s1 with
        | d :: _ =>
            if Str.is_digit d then
              let '(lo, s2) := read_nat 0 s1 in
              match s2 with
              | x :: s3 =>
                  if Str.ceq x c_rbrace then Some (lo, Some lo, s3)
                  else if Str.ceq x c_comma then
                    match s3 with
                    | y :: s4 =>
                        if Str.ceq y c_rbrace then Some (lo, None, s4)
                        else
                          let '(hi, s5) := read_nat 0 s3 in
                          match s5 with
                          | z :: s6 => if Str.ceq z c_rbrace && Str.is_digit y
                                       then Some (lo, Some hi, s6) else None
                          | [] => None
                          end
                    | [] => None
                    end
                  else None
              | [] => None
              end
            else None
        | [] => None
        end
      else None
  | [] => None
  end.

Definition quantified (a : re) (s : str) : re * str :=
  match quantifier s with
  | Some (lo, hi, s1) =>
      match s1 with
      | c :: s2 => if Str.ceq c c_quest then (RQuant false lo hi a, s2)
                   else (RQuant true lo hi a, s1)
      | [] => (RQuant true lo hi a, s1)
      end
  | None => (a, s)
  end.

Definition expect_rparen (s : str) : option str :=
  match s with
  | c :: s' => if Str.ceq c c_rparen then Some s' else None
  | [] => None
  end.

(** [disj] reads alternatives up to a closing parenthesis or the end;
    [n] is the number the next capturing group gets. *)
Fixpoint disj (fuel : nat) (ml : bool) (s : str) (n : nat) {struct fuel}
  : option (re * str * nat) :=
  match fuel with
  | O => None
  | S f =>
      match conc f ml s n with
      | Some (a, s1, n1) =>
          match s1 with
          | c :: s2 =>
              if Str.ceq c c_bar then
                match disj f ml s2 n1 with
                | Some (b, s3, n3) => Some (RAlt a b, s3, n3)
                | None => None
                end
              else Some (a, s1, n1)
          | [] => Some (a, s1, n1)
          end
      | None => None
      end
  end
with conc (fuel : nat) (ml : bool) (s : str) (n : nat) {struct fuel}
  : option (re * str * nat) :=
  match fuel with
  | O => None
  | S f =>
      match s with
      | [] => Some (REps, s, n)
      | c :: _ =>
          if Str.ceq c c_bar || Str.ceq c c_rparen then Some (REps, s, n)
          else
            match atom f ml s n with
            | Some (a, s1, n1) =>
                let '(a', s2) := quantified a s1 in
                match conc f ml s2 n1 with
                | Some (REps, s3, n3) => Some (a', s3, n3)
                | Some (b, s3, n3) => Some (RSeq a' b, s3, n3)
                | None => None
                end
            | None => None
            end
      end
  end
with atom (fuel : nat) (ml : bool) (s : str) (n : nat) {struct fuel}
  : option (re * str * nat) :=
  match fuel with
  | O => None
  | S f =>
      match s with
      | [] => None
      | c :: s1 =>
          if Str.ceq c c_lparen then
            match s1 with
            | q :: k :: s3 =>
                if Str.ceq q c_quest && Str.ceq k c_colon then
                  match disj f ml s3 n with
                  | Some (a, s4, n4) =>
                      match expect_rparen s4 with Some s5 => Some (a, s5, n4) | None => None end
                  | None => None
                  end
                else if Str.ceq q c_quest && (Str.ceq k c_bang || Str.ceq k c_eq) then
                  match disj f ml s3 n with
                  | Some (a, s4, n4) =>
                      match expect_rparen s4 with
                      | Some s5 => Some (RLook (Str.ceq k c_bang) a, s5, n4)
                      | None => None
                      end
                  | None => None
                  end
                else
                  match disj f ml s1 (S n) with
                  | Some (a, s4, n4) =>
                      match expect_rparen s4 with Some s5 => Some (RGroup n a, s5, n4) | None => None end
                  | None => None
                  end
            | _ =>
                match disj f ml s1 (S n) with
                | Some (a, s4, n4) =>
                    match expect_rparen s4 with Some s5 => Some (RGroup n a, s5, n4) | None => None end
                | None => None
                end
            end
          else if Str.ceq c c_lbrack then
            match s1 with
            | x :: s2 =>
                let '(neg, body) := if Str.ceq x c_caret then (true, s2) else (false, s1) in
                match class_items (S (length body)) body with
                | Some (its, s3) => Some (RSet neg its, s3, n)
                | None => None
                end
            | [] => None
            end
          else if Str.ceq c c_bslash then
            match s1 with
            | e :: s2 =>
                if Str.ceq e "b" then Some (RWordB, s2, n)
                else if Str.is_digit e && negb (Str.ceq e "0") then Some (RBackref (digit_val e), s2, n)
                else if Str.ceq e "x" then
                  match s2 with
                  | h1 :: h2 :: s3 => Some (lit (Str.ch (16 * hex_val h1 + hex_val h2)), s3, n)
                  | _ => None
                  end
                else Some (RSet false [escape_item e], s2, n)
            | [] => None
            end
          else if Str.ceq c c_dot then Some (RDot, s1, n)
          else if Str.ceq c c_caret then Some (RBol ml, s1, n)
          else if Str.ceq c c_dollar then Some (REol ml, s1, n)
          else Some (lit c, s1, n)
      end
  end.

(** A pattern that fails to parse matches nothing. *)
Definition never : re := RSet false [].

Definition parse_flags (ml : bool) (src : string) : re :=
  let s := L src in
  match disj (3 * length s + 3) ml s 1 with
  | Some (r, [], _) => r
  | _ => never
  end.

(** [/src/] and [/src/m] *)
Definition parse (src : string) : re := parse_flags false src.
Definition parse_m (src : string) : re := parse_flags true src.

End Regex.

Arguments Regex.parse src%_string.
Arguments Regex.parse_m src%_string.

(** ** Data model *)

(** The [type] tag of a tree node. *)
Inductive NodeType : Type :=
| EmptyLine
| Comment
| FunctionDefinition
| ClassDefinition
| VariableAssignment
| ControlFlow
| ImportExport
| Expression
| Block.

Definition NodeType_eqb (a b : NodeType) : bool :=
  match a, b with
  | EmptyLine, EmptyLine | Comment, Comment
  | FunctionDefinition, FunctionDefinition | ClassDefinition, ClassDefinition
  | VariableAssignment, VariableAssignment | ControlFlow, ControlFlow
  | ImportExport, ImportExport | Expression, Expression | Block, Block => true
  | _, _ => false
  end.

(** A node object.  A field that the object does not carry is [None]
    ([undefined]); [context] is the back-reference to the enclosing block
    node, kept as that node's line number.  The fields from [returnType] on
    are read by the formatters and written by no parser. *)
Record Node : Type := mkNode {
  type : NodeType;
  originalLine : option str;
  line : nat;
  indent : option nat;
  context : option nat;
  name : option str;
  parameters : option (list str);
  body : option (list str);
  isArrow : option bool;
  extends : option str;
  value : option str;
  declarationType : option str;
  subtype : option str;
  condition : option str;
  content : option str;
  indentation : option nat;
  inlineComment : option str;
  returnType : option str;
  dataType : option str;
  inheritance : option str;
  implements : option str;
  structType : option str;
  definition : option str;
  isMutable : bool;
  isConst : bool
}.

(** The object literal [{ type, line }] with every other field absent. *)
Definition bare (t : NodeType) (ln : nat) : Node :=
  mkNode t None ln None None None None None None None None None None None
         None None None None None None None None None false false.

Definition with_originalLine (n : Node) (s : str) : Node :=
  mkNode (type n) (Some s) (line n) (indent n) (context n) (name n)
         (parameters n) (body n) (isArrow n) (extends n) (value n)
         (declarationType n) (subtype n) (condition n) (content n)
         (indentation n) (inlineComment n) (returnType n) (dataType n)
         (inheritance n) (implements n) (structType n) (definition n)
         (isMutable n) (isConst n).

Definition with_indent (n : Node) (i : nat) (ctx : option nat) : Node :=
  mkNode (type n) (originalLine n) (line n) (Some i) ctx (name n)
         (parameters n) (body n) (isArrow n) (extends n) (value n)
         (declarationType n) (subtype n) (condition n) (content n)
         (indentation n) (inlineComment n) (returnType n) (dataType n)
         (inheritance n) (implements n) (structType n) (definition n)
         (isMutable n) (isConst n).

Definition with_inlineComment (n : Node) (c : str) : Node :=
  mkNode (type n) (originalLine n) (line n) (indent n) (context n) (name n)
         (parameters n) (body n) (isArrow n) (extends n) (value n)
         (declarationType n) (subtype n) (condition n) (content n)
         (indentation n) (Some c) (returnType n) (dataType n)
         (inheritance n) (implements n) (structType n) (definition n)
         (isMutable n) (isConst n).

(** [{ type, originalLine: line, line: lineNumber, indent, context }] *)
Definition line_node (t : NodeType) (s : str) (ln i : nat) (ctx : option nat) : Node :=
  with_indent (with_originalLine (bare t ln) s) i ctx.

(** [ast.metadata] *)
Record Metadata : Type := mkMetadata {
  totalLines : nat;
  complexity : nat
}.

(** The tree of one file. *)
Record Program : Type := mkProgram {
  prog_body : list Node;
  sourceLanguage : str;
  originalCode : str;
  metadata : option Metadata
}.

(** A warning; the timestamp of the source object is wall-clock time and
    is left out. *)
Record Warning : Type := mkWarning {
  message : str;
  wline : option nat;
  language : str
}.

(** A computation that may throw. *)
Inductive result (A : Type) : Type :=
| Ok (a : A)
| Throw (msg : str).
Arguments Ok {A} a.
Arguments Throw {A} msg.

Definition bind {A B} (x : result A) (f : A -> result B) : result B :=
  match x with
  | Ok a => f a
  | Throw e => Throw e
  end.

Notation "'let*' x ':=' c 'in' k" := (bind c (fun x => k))
  (at level 10, x pattern, c at level 100, k at level 200).

(** A string in a condition or a [||]: absent and empty are both falsy. *)
Definition truthy_opt (o : option str) : bool :=
  match o with Some s => Str.truthy s | None => false end.

(** [x || ''] *)
Definition or_empty (o : option str) : str :=
  match o with Some s => s | None => [] end.

(** A value spliced into a template literal. *)
Definition show (o : option str) : str :=
  match o with Some s => s | None => L "undefined" end.

(** ** The converter interface

    The methods a language subclass may override; the methods of
    [BaseLanguageConverter] below take the converter they run on ([this]). *)

Module This.

Record Converter : Type := mkConverter {
  languageName : str;
  isFullLineComment : str -> bool;
  hasInlineComment : str -> bool;
  splitInlineComment : str -> str * str;
  isFunctionDefinition : str -> bool;
  isClassDefinition : str -> bool;
  isVariableAssignment : str -> bool;
  isControlFlow : str -> bool;
  isImportExport : str -> bool;
  isBlockStart : Node -> result bool;
  isBlockEnd : str -> bool;
  parseFunctionDefinition : str -> nat -> nat -> option nat -> result Node;
  parseClassDefinition : str -> nat -> nat -> option nat -> result Node;
  parseVariableAssignment : str -> nat -> nat -> option nat -> result Node;
  parseControlFlow : str -> nat -> nat -> option nat -> result Node;
  parseImportExport : str -> nat -> nat -> result Node;
  parseExpression : str -> nat -> nat -> option nat -> result Node;
  formatComment : Node -> option str;
  formatFunctionDefinition : Node -> option str;
  formatClassDefinition : Node -> option str;
  formatVariableAssignment : Node -> option str;
  formatControlFlow : Node -> option str;
  formatImportExport : Node -> option str;
  formatExpression : Node -> option str;
  validateSyntax : str -> list Warning;
  formatCode : str -> str
}.

End This.

Abbreviation Converter := This.Converter.

(** A comment taken out of the source by [extractCommentsWithContext]. *)
Inductive CommentKind : Type := fullLine | inline.

Record CommentRec : Type := mkComment {
  ckind : CommentKind;
  ccontent : str;
  coriginalLine : nat;
  cindentation : option nat;
  associatedCode : option str
}.

Record Extracted : Type := mkExtracted {
  cleanCode : str;
  comments : list CommentRec;
  commentMap : list (nat * nat)
}.

Fixpoint map_get (k : nat) (mp : list (nat * nat)) : option nat :=
  match mp with
  | [] => None
  | (k', v) :: mp' => if k' =? k then Some v else map_get k mp'
  end.

(** [line.length - line.trimStart().length] *)
Definition leading (s : str) : nat := length s - length (Str.trimStart s).

Module Base.

Definition large_file_warning (lang : str) : Warning :=
  mkWarning (L "Large file detected - some validations skipped for performance") None lang.

Definition is_open_bracket (c : ascii) : bool :=
  Str.ceq c "(" || Str.ceq c "[" || Str.ceq c "{".

Definition is_close_bracket (c : ascii) : bool :=
  Str.ceq c ")" || Str.ceq c "]" || Str.ceq c "}".

(** [validateSyntax(code)]: the warnings it adds, in order. *)
Definition validateSyntax (lang : str) (code : str) : list Warning :=
  let lines := Str.lines code in
  if 5000 <? length lines then [large_file_warning lang]
  else
    let openBrackets := length (filter is_open_bracket code) in
    let closeBrackets := length (filter is_close_bracket code) in
    (if negb (openBrackets =? closeBrackets)
     then [mkWarning (L "Mismatched brackets detected") None lang] else [])
    ++ (if Str.includes code (L "undefined")
        then [mkWarning (L "Potential undefined values detected") None lang] else []).

(** The loop of [extractCommentsWithContext] over the lines from index [i];
    [n] is the number of comments recorded so far. *)
Fixpoint extract_lines (this : Converter) (i n : nat) (lines : list str)
  : list str * list CommentRec * list (nat * nat) :=
  match lines with
  | [] => ([], [], [])
  | line :: rest =>
      if negb (Str.truthy line) then
        let '(cl, cs, mp) := extract_lines this (S i) n rest in
        ([] :: cl, cs, mp)
      else
        let trimmed := Str.trim line in
        if This.isFullLineComment this trimmed then
          let '(cl, cs, mp) := extract_lines this (S i) (S n) rest in
          ([] :: cl,
           mkComment fullLine trimmed i (Some (leading line)) None :: cs,
           (i, n) :: mp)
        else if This.hasInlineComment this line then
          let '(code, comment) := This.splitInlineComment this line in
          let '(cl, cs, mp) := extract_lines this (S i) (S n) rest in
          (code :: cl,
           mkComment inline comment i None (Some (Str.trim code)) :: cs,
           (i, n) :: mp)
        else
          let '(cl, cs, mp) := extract_lines this (S i) n rest in
          (line :: cl, cs, mp)
  end.

Definition extractCommentsWithContext (this : Converter) (sourceCode : str) : Extracted :=
  if negb (Str.truthy sourceCode) then mkExtracted [] [] []
  else
    let '(cl, cs, mp) := extract_lines this 0 0 (Str.lines sourceCode) in
    mkExtracted (Str.unlines cl) cs mp.

(** [parseLineToNode(line, lineNumber, context)] *)
Definition parseLineToNode (this : Converter) (line : str) (lineNumber : nat)
           (ctx : option nat) : result Node :=
  let trimmedLine := Str.trim line in
  let indent := leading line in
  if This.isFunctionDefinition this trimmedLine then
    This.parseFunctionDefinition this trimmedLine lineNumber indent ctx
  else if This.isClassDefinition this trimmedLine then
    This.parseClassDefinition this trimmedLine lineNumber indent ctx
  else if This.isVariableAssignment this trimmedLine then
    This.parseVariableAssignment this trimmedLine lineNumber indent ctx
  else if This.isControlFlow this trimmedLine then
    This.parseControlFlow this trimmedLine lineNumber indent ctx
  else if This.isImportExport this trimmedLine then
    This.parseImportExport this trimmedLine lineNumber indent
  else
    This.parseExpression this trimmedLine lineNumber indent ctx.

(** The loop of [createAST]: the nodes pushed and the complexity counted
    from line index [i] on; [stack] is [blockStack], top first. *)
Fixpoint create_loop (this : Converter) (i : nat) (lines : list str)
         (ctx : option nat) (stack : list Node) : result (list Node * nat) :=
  match lines with
  | [] => Ok ([], 0)
  | l :: rest =>
      let trimmedLine := Str.trim l in
      if negb (Str.truthy trimmedLine) then
        let* (b, c) := create_loop this (S i) rest ctx stack in
        Ok (bare EmptyLine (i + 1) :: b, c)
      else
        let* node := parseLineToNode this l (i + 1) ctx in
        let inc :=
          if NodeType_eqb (type node) FunctionDefinition
             || NodeType_eqb (type node) ClassDefinition then 1 else 0 in
        let* starts := This.isBlockStart this node in
        let '(ctx', stack') :=
          if starts then (Some (line node), node :: stack)
          else if This.isBlockEnd this trimmedLine then
            (match tl stack with
             | top :: _ => Some (line top)
             | [] => None
             end, tl stack)
          else (ctx, stack) in
        let* (b, c) := create_loop this (S i) rest ctx' stack' in
        Ok (node :: b, inc + c)
  end.

Definition createAST (this : Converter) (sourceCode : str) : result Program :=
  let lines := Str.lines sourceCode in
  let* (b, c) := create_loop this 0 lines None [] in
  Ok (mkProgram b (This.languageName this) sourceCode
                (Some (mkMetadata (length lines) c))).

Definition parseCode := createAST.

(** [restoreCommentsToAST]: the new body. *)
Fixpoint restore_loop (body : list Node) (cs : list CommentRec)
         (mp : list (nat * nat)) : result (list Node) :=
  match body with
  | [] => Ok []
  | node :: rest =>
      let found :=
        match line node with
        | O => None
        | S k => map_get k mp
        end in
      match found with
      | None =>
          let* b := restore_loop rest cs mp in Ok (node :: b)
      | Some commentIndex =>
          match nth_error cs commentIndex with
          | None => Throw (L "Cannot read properties of undefined (reading 'type')")
          | Some comment =>
              match ckind comment with
              | fullLine =>
                  let c := mkNode Comment None (coriginalLine comment + 1) None None
                             None None None None None None None None None
                             (Some (ccontent comment)) (cindentation comment)
                             None None None None None None None false false in
                  let* b := restore_loop rest cs mp in Ok (c :: node :: b)
              | inline =>
                  let* b := restore_loop rest cs mp in
                  Ok (with_inlineComment node (ccontent comment) :: b)
              end
          end
      end
  end.

Definition restoreCommentsToAST (ast : Program) (cs : list CommentRec)
           (mp : list (nat * nat)) : result Program :=
  let* b := restore_loop (prog_body ast) cs mp in
  Ok (mkProgram b (sourceLanguage ast) (originalCode ast) (metadata ast)).

(** What the [catch] of [parseToAST] rethrows. *)
Definition parse_failure (this : Converter) (e : str) : str :=
  L "Failed to parse " ++ This.languageName this ++ L " code: " ++ e.

(** [parseToAST(sourceCode)]: the tree and the warnings left in
    [this.warnings]. *)
Definition parseToAST (this : Converter) (sourceCode : str)
  : result (Program * list Warning) :=
  let warnings := This.validateSyntax this sourceCode in
  let ex := extractCommentsWithContext this sourceCode in
  match (let* ast := parseCode this (cleanCode ex) in
         restoreCommentsToAST ast (comments ex) (commentMap ex)) with
  | Ok ast => Ok (ast, warnings)
  | Throw e => Throw (parse_failure this e)
  end.

(** [needsLineBreak(currentNode, nextNode)] *)
Definition needsLineBreak (nextNode : option Node) : bool :=
  match nextNode with
  | None => false
  | Some n => NodeType_eqb (type n) FunctionDefinition
              || NodeType_eqb (type n) ClassDefinition
  end.

(** [nodeToCode(node)] *)
Definition nodeToCode (this : Converter) (node : Node) : str :=
  or_empty
    match type node with
    | EmptyLine => Some [Str.nl]
    | Comment => This.formatComment this node
    | FunctionDefinition => This.formatFunctionDefinition this node
    | ClassDefinition => This.formatClassDefinition this node
    | VariableAssignment => This.formatVariableAssignment this node
    | ControlFlow => This.formatControlFlow this node
    | ImportExport => This.formatImportExport this node
    | Expression => This.formatExpression this node
    | Block => Some (or_empty (originalLine node))
    end.

Definition re_blank_run : Regex.re := Regex.parse "\n{3,}".

Fixpoint emit_nodes (this : Converter) (nodes : list Node) : str :=
  match nodes with
  | [] => []
  | node :: rest =>
      nodeToCode this node
      ++ (if negb (NodeType_eqb (type node) EmptyLine) && needsLineBreak (hd_error rest)
          then [Str.nl] else [])
      ++ emit_nodes this rest
  end.

(** [astToCode(ast)] *)
Definition astToCode (this : Converter) (ast : Program) : str :=
  Regex.replace_all re_blank_run [Str.nl; Str.nl] (emit_nodes this (prog_body ast)).

Definition generateCode := astToCode.

(** [generateFromAST(ast)] *)
Definition generateFromAST (this : Converter) (ast : Program) : str :=
  This.formatCode this (generateCode this ast).

(** The methods of the base class that a subclass inherits unless it
    overrides them. *)
Definition isFullLineComment (_ : str) : bool := false.
Definition hasInlineComment (_ : str) : bool := false.
Definition splitInlineComment (line : str) : str * str := (line, []).
Definition never_matches (_ : str) : bool := false.
Definition isBlockStart (_ : Node) : result bool := Ok false.

Definition parseFunctionDefinition (s : str) (ln i : nat) (ctx : option nat) : result Node :=
  Ok (line_node FunctionDefinition s ln i ctx).
Definition parseClassDefinition (s : str) (ln i : nat) (ctx : option nat) : result Node :=
  Ok (line_node ClassDefinition s ln i ctx).
Definition parseVariableAssignment (s : str) (ln i : nat) (ctx : option nat) : result Node :=
  Ok (line_node VariableAssignment s ln i ctx).
Definition parseControlFlow (s : str) (ln i : nat) (ctx : option nat) : result Node :=
  Ok (line_node ControlFlow s ln i ctx).
Definition parseImportExport (s : str) (ln i : nat) : result Node :=
  Ok (line_node ImportExport s ln i None).
Definition parseExpression (s : str) (ln i : nat) (ctx : option nat) : result Node :=
  Ok (line_node Expression s ln i ctx).

(** [node.content || node.value || ''] *)
Definition formatComment (node : Node) : option str :=
  Some (if truthy_opt (content node) then or_empty (content node)
        else or_empty (value node)).

(** [node.originalLine || ''], the body of the six other base formatters *)
Definition formatOriginal (node : Node) : option str :=
  Some (or_empty (originalLine node)).

End Base.

(** ** The re-formatting pass shared by the language converters

    Every [formatCode] but JavaScript's runs the same loop over the lines
    of the pre-processed text and the same three closing replacements; the
    languages differ in the tests the loop makes and in the indent unit. *)

Module Fmt.

(** The per-language tests of the loop: lines dropped, lines that step the
    level down before they are pushed, and by how much a line steps it up
    afterwards. *)
Record Rules : Type := mkRules {
  skips : str -> bool;
  closes : str -> bool;
  opens : str -> Z;
  unit : str
}.

(** Loop state: [formatted] holds the pushed lines, last first. *)
Record State : Type := mkState {
  formatted : list str;
  indentLevel : Z
}.

Definition init : State := mkState [] 0%Z.

(** [formatted.length > 0 && formatted[formatted.length - 1] !== ''] *)
Definition last_nonblank (f : list str) : bool :=
  match f with
  | [] => false
  | x :: _ => Str.truthy x
  end.

(** One turn of [for (let line of lines)]. *)
Definition step (r : Rules) (st : State) (ln : str) : State :=
  let trimmed := Str.trim ln in
  if negb (Str.truthy trimmed) then
    if last_nonblank (formatted st)
    then mkState ([] :: formatted st) (indentLevel st)
    else st
  else if skips r trimmed then st
  else
    let lvl := if closes r trimmed
               then Z.max 0 (indentLevel st - 1) else indentLevel st in
    let indent := Str.repeat (unit r) (Z.to_nat lvl) in
    mkState ((indent ++ trimmed) :: formatted st) (lvl + opens r trimmed)%Z.

Definition run (r : Rules) (lines : list str) : State :=
  fold_left (step r) lines init.

(** [.replace(/\n{3,}/g, '\n\n')]: of a run of newlines only the first two
    are kept; [run] counts the newlines just passed. *)
Fixpoint collapse_from (run : nat) (s : str) : str :=
  match s with
  | [] => []
  | c :: s' =>
      if Str.ceq c Str.nl then
        if run <? 2 then c :: collapse_from (S run) s'
        else collapse_from (S run) s'
      else c :: collapse_from 0 s'
  end.

Definition collapse (s : str) : str := collapse_from 0 s.

(** [.replace(/^\n+/, '')] *)
Fixpoint strip_leading (s : str) : str :=
  match s with
  | c :: s' => if Str.ceq c Str.nl then strip_leading s' else s
  | [] => []
  end.

(** [.replace(/\n*$/, '\n')] *)
Definition one_trailing (s : str) : str :=
  rev (strip_leading (rev s)) ++ [Str.nl].

(** The three closing replacements, in the order the source applies them. *)
Definition finish (s : str) : str := one_trailing (strip_leading (collapse s)).

(** The loop and the closing replacements on pre-processed text. *)
Definition layout (r : Rules) (preprocessed : str) : str :=
  finish (Str.unlines (rev (formatted (run r (Str.lines preprocessed))))).

Definition is_semicolon (t : str) : bool := Str.eqb t (L ";").

(** [trimmed === '}' || trimmed.startsWith('} ')] *)
Definition closing_brace (t : str) : bool :=
  Str.eqb t (L "}") || Str.startsWith t (L "} ").

(** [trimmed.endsWith('{')], as a step of one level *)
Definition opening_brace (t : str) : Z :=
  if Str.endsWith t (L "{") then 1%Z else 0%Z.

(** The pre-processing replacements every brace language starts with. *)
Definition re_double_semicolon : Regex.re := Regex.parse ";\s*;".
Definition re_semicolon : Regex.re := Regex.parse ";(?!\s*[\r\n])".
Definition re_open : Regex.re := Regex.parse "\{(?!\s*[\r\n])".
Definition re_close : Regex.re := Regex.parse "\}(?!\s*[\r\n])".
Definition re_paren_brace : Regex.re := Regex.parse "\)\s*\{".

Definition break_braces (s : str) : str :=
  Regex.replace_all re_close (Str.nl :: L "}" ++ [Str.nl])
    (Regex.replace_all re_open (L " {" ++ [Str.nl]) s).

Definition break_statements (s : str) : str :=
  break_braces
    (Regex.replace_all re_semicolon (L ";" ++ [Str.nl])
       (Regex.replace_all re_double_semicolon (L ";") s)).

End Fmt.

(** ** Helpers shared by the language subclasses *)

(** A number spliced into a template literal. *)
Definition show_nat (n : nat) : str :=
  L (DecimalString.NilEmpty.string_of_uint (Nat.to_uint n)).

(** [if (node.originalLine) return node.originalLine; return other] *)
Definition original_or (node : Node) (other : option str) : option str :=
  if truthy_opt (originalLine node) then originalLine node else other.

(** [node.parameters ? node.parameters.join(', ') : ''] *)
Definition params_text (node : Node) : str :=
  match parameters node with
  | Some ps => Str.join (L ", ") ps
  | None => []
  end.

(** [x ? prefix + x : ''] *)
Definition clause (prefix : string) (o : option str) : str :=
  if truthy_opt o then L prefix ++ show o else [].

(** [x || 'dflt'] *)
Definition or_default (o : option str) (dflt : string) : str :=
  if truthy_opt o then show o else L dflt.

(** The subclasses declare [formatComment(value)] for a string and are
    handed the node object: [typeof value !== 'string'] sends it to [''].*)
Definition formatComment_of_string (_ : Node) : option str := Some [].

(** [`Line ${i + 1}: text`] as a warning of [lang]. *)
Definition line_warning (lang : str) (i : nat) (text : string) : Warning :=
  mkWarning (L "Line " ++ show_nat (i + 1) ++ L ": " ++ L text) None lang.

(** A validation loop that looks at each trimmed line with its index. *)
Fixpoint each_line (f : nat -> str -> list Warning) (i : nat) (lines : list str)
  : list Warning :=
  match lines with
  | [] => []
  | l :: rest => f i (Str.trim l) ++ each_line f (S i) rest
  end.

(** Whether some trimmed line satisfies [p]. *)
Definition some_line (p : str -> bool) (code : str) : bool :=
  existsb (fun l => p (Str.trim l)) (Str.lines code).

(** [(line.match(/\{/g) || []).length - (line.match(/\}/g) || []).length]
    summed over the lines, as the loops keep it in [braceCount]. *)
Definition brace_delta (l : str) : Z :=
  (Z.of_nat (Str.count_char "{" l) - Z.of_nat (Str.count_char "}" l))%Z.

Definition braceCount (lines : list str) : Z :=
  fold_left (fun acc l => (acc + brace_delta l)%Z) lines 0%Z.

(** ** Kotlin *)

Module Kotlin.

Definition languageName : str := L "Kotlin".

Definition p_function := Regex.parse "^(?:fun\s+)?(\w+)\s*\((.*?)\)\s*(?::\s*(.+))?\s*\{?$".
Definition p_class := Regex.parse "^(?:open\s+|abstract\s+|final\s+)?class\s+(\w+)(?:\s*\((.*?)\))?(?:\s*:\s*(.+))?\s*\{?$".
Definition p_interface := Regex.parse "^interface\s+(\w+)(?:\s*:\s*(.+))?\s*\{?$".
Definition p_object := Regex.parse "^object\s+(\w+)(?:\s*:\s*(.+))?\s*\{?$".
Definition p_variable := Regex.parse "^(?:val|var)\s+(\w+)(?:\s*:\s*(.+?))?\s*=\s*(.+)$".
Definition p_property := Regex.parse "^(?:val|var)\s+(\w+)\s*:\s*(.+)$".
Definition p_dataClass := Regex.parse "^data\s+class\s+(\w+)\s*\((.*?)\)$".

Definition isFunctionDefinition (l : str) : bool :=
  Str.includes l (L "fun ")
  || (Regex.test p_function l && negb (Str.includes l (L "class "))).

Definition isClassDefinition (l : str) : bool :=
  Regex.test p_class l || Regex.test p_interface l
  || Regex.test p_object l || Regex.test p_dataClass l.

Definition isVariableAssignment (l : str) : bool :=
  Regex.test p_variable l || Regex.test p_property l.

Definition isControlFlow (l : str) : bool :=
  Str.includes l (L "if (") || Str.includes l (L "for (")
  || Str.includes l (L "while (") || Str.includes l (L "when (")
  || Str.includes l (L "try {").

Definition formatFunctionDefinition (node : Node) : option str :=
  original_or node
    (Some (L "fun " ++ show (name node) ++ L "(" ++ params_text node ++ L ")"
           ++ clause ": " (returnType node) ++ L " {")).

(** No node carries one of the tags the [switch] names, so it falls to
    [default: return node.originalLine]. *)
Definition formatClassDefinition (node : Node) : option str :=
  original_or node (originalLine node).

Definition formatVariableAssignment (node : Node) : option str :=
  original_or node
    (Some (L (if isMutable node then "var" else "val") ++ L " " ++ show (name node)
           ++ clause ": " (dataType node) ++ clause " = " (value node))).

Definition formatExpression (node : Node) : option str :=
  if negb (truthy_opt (originalLine node)) then Some []
  else Some (Str.trim (or_empty (originalLine node))).

Definition validateSyntax (code : str) : list Warning :=
  Base.validateSyntax languageName code
  ++ each_line (fun i l =>
                  if Str.endsWith l (L ";") && negb (Str.includes l (L "//"))
                  then [line_warning languageName i "Semicolons are optional in Kotlin"]
                  else [])
               0 (Str.lines code).

Definition re_keywords :=
  Regex.parse "(fun|class|interface|object|enum|if|else|for|while|when|try|catch|finally)\s+".

Definition preprocess (code : str) : str :=
  Regex.replace_all Fmt.re_paren_brace (L ") {")
    (Regex.replace_all re_keywords (L "$1 ") (Fmt.break_statements code)).

Definition rules : Fmt.Rules :=
  Fmt.mkRules Fmt.is_semicolon Fmt.closing_brace Fmt.opening_brace (L "    ").

Definition formatCode (code : str) : str :=
  if negb (Str.truthy code) then [] else Fmt.layout rules (preprocess code).

Definition converter : Converter :=
  This.mkConverter languageName
    Base.isFullLineComment Base.hasInlineComment Base.splitInlineComment
    isFunctionDefinition isClassDefinition isVariableAssignment isControlFlow
    Base.never_matches Base.isBlockStart Base.never_matches
    Base.parseFunctionDefinition Base.parseClassDefinition
    Base.parseVariableAssignment Base.parseControlFlow
    Base.parseImportExport Base.parseExpression
    formatComment_of_string formatFunctionDefinition formatClassDefinition
    formatVariableAssignment Base.formatOriginal Base.formatOriginal
    formatExpression validateSyntax formatCode.

End Kotlin.

(** [line && !line.endsWith(';') && !line.endsWith('{') && !line.endsWith('}')] *)
Definition wants_semicolon (l : str) : bool :=
  Str.truthy l && negb (Str.endsWith l (L ";"))
  && negb (Str.endsWith l (L "{")) && negb (Str.endsWith l (L "}")).

(** The [formatExpression] of the languages that end statements with a
    semicolon; [extra] is the language's further condition on the line. *)
Definition formatExpression_semicolon (extra : str -> bool) (node : Node) : option str :=
  if negb (truthy_opt (originalLine node)) then Some []
  else
    let l := Str.trim (or_empty (originalLine node)) in
    Some (if wants_semicolon l && extra l then l ++ L ";" else l).

(** ** Java *)

Module Java.

Definition languageName : str := L "Java".

Definition p_class := Regex.parse "^(?:public\s+)?class\s+(\w+)(?:\s+extends\s+(\w+))?\s*\{?$".
Definition p_method := Regex.parse "^(?:public\s+|private\s+|protected\s+)?(?:static\s+)?(\w+)\s+(\w+)\s*\((.*?)\)\s*\{?$".
Definition p_variable := Regex.parse "^(?:public\s+|private\s+|protected\s+)?(?:static\s+|final\s+)*(\w+)\s+(\w+)\s*(?:=\s*(.+))?\s*;?$".
Definition p_if := Regex.parse "^if\s*\((.*?)\)\s*\{?$".
Definition p_for := Regex.parse "^for\s*\((.*?)\)\s*\{?$".
Definition p_while := Regex.parse "^while\s*\((.*?)\)\s*\{?$".
Definition p_try := Regex.parse "^try\s*\{?$".

Definition isFunctionDefinition (l : str) : bool :=
  Regex.test p_method l && negb (Str.includes l (L "class ")).

Definition isClassDefinition (l : str) : bool := Regex.test p_class l.

Definition isVariableAssignment (l : str) : bool := Regex.test p_variable l.

Definition isControlFlow (l : str) : bool :=
  Regex.test p_if l || Regex.test p_for l || Regex.test p_while l || Regex.test p_try l.

Definition formatFunctionDefinition (node : Node) : option str :=
  original_or node
    (Some (L "public " ++ or_default (returnType node) "void" ++ L " "
           ++ show (name node) ++ L "(" ++ params_text node ++ L ") {")).

Definition formatClassDefinition (node : Node) : option str :=
  original_or node
    (Some (L "public class " ++ show (name node)
           ++ clause " extends " (extends node) ++ L " {")).

Definition formatVariableAssignment (node : Node) : option str :=
  original_or node
    (Some (or_default (dataType node) "Object" ++ L " " ++ show (name node)
           ++ clause " = " (value node) ++ L ";")).

Definition formatExpression : Node -> option str :=
  formatExpression_semicolon (fun _ => true).

Definition validateSyntax (code : str) : list Warning :=
  let trimmed := map Str.trim (Str.lines code) in
  Base.validateSyntax languageName code
  ++ (if negb (existsb (fun l => Str.includes l (L "class ")) trimmed)
      then [mkWarning (L "Java code should contain at least one class") None languageName]
      else [])
  ++ (if negb (braceCount trimmed =? 0)%Z
      then [mkWarning (L "Unmatched braces detected") None languageName]
      else []).

Definition re_modifiers := Regex.parse "(public|private|protected|static|final|abstract)\s+".
Definition re_kinds := Regex.parse "(class|interface|enum)\s+".
Definition re_control := Regex.parse "(if|else|for|while|do|try|catch|finally|switch)\s*\(".

Definition preprocess (code : str) : str :=
  Regex.replace_all Fmt.re_paren_brace (L ") {")
    (Regex.replace_all re_control (L "$1 (")
       (Regex.replace_all re_kinds (L "$1 ")
          (Regex.replace_all re_modifiers (L "$1 ") (Fmt.break_statements code)))).

Definition re_control_line := Regex.parse "^(if|else|for|while|do|try|catch|finally|switch)\b.*\)\s*$".
Definition re_member_line := Regex.parse "^(public|private|protected).*\{$".

(** The two [if]s after the push: each may step the level up by one. *)
Definition opens (t : str) : Z :=
  ((if Str.endsWith t (L "{") || Regex.test re_control_line t then 1 else 0)
   + (if (Str.includes t (L "class ") || Str.includes t (L "interface ")
          || Str.includes t (L "enum ") || Regex.test re_member_line t)
         && negb (Str.endsWith t (L "{"))
      then 1 else 0))%Z.

Definition rules : Fmt.Rules :=
  Fmt.mkRules Fmt.is_semicolon Fmt.closing_brace opens (L "    ").

Definition formatCode (code : str) : str :=
  if negb (Str.truthy code) then [] else Fmt.layout rules (preprocess code).

Definition converter : Converter :=
  This.mkConverter languageName
    Base.isFullLineComment Base.hasInlineComment Base.splitInlineComment
    isFunctionDefinition isClassDefinition isVariableAssignment isControlFlow
    Base.never_matches Base.isBlockStart Base.never_matches
    Base.parseFunctionDefinition Base.parseClassDefinition
    Base.parseVariableAssignment Base.parseControlFlow
    Base.parseImportExport Base.parseExpression
    formatComment_of_string formatFunctionDefinition formatClassDefinition
    formatVariableAssignment Base.formatOriginal Base.formatOriginal
    formatExpression validateSyntax formatCode.

End Java.

(** ** C# *)

Module CSharp.

Definition languageName : str := L "C#".

Definition p_namespace := Regex.parse "^namespace\s+(\w+(?:\.\w+)*)\s*\{?$".
Definition p_class := Regex.parse "^(?:public\s+|private\s+|internal\s+)?(?:static\s+|abstract\s+)?class\s+(\w+)(?:\s*:\s*(.+))?\s*\{?$".
Definition p_method := Regex.parse "^(?:public\s+|private\s+|protected\s+|internal\s+)?(?:static\s+|virtual\s+|override\s+)?(\w+)\s+(\w+)\s*\((.*?)\)\s*\{?$".
Definition p_property := Regex.parse "^(?:public\s+|private\s+|protected\s+)?(\w+)\s+(\w+)\s*\{\s*get;\s*set;\s*\}$".
Definition p_variable := Regex.parse "^(?:var\s+|(\w+)\s+)(\w+)\s*(?:=\s*(.+))?\s*;?$".

Definition isFunctionDefinition (l : str) : bool := Regex.test p_method l.

Definition isClassDefinition (l : str) : bool :=
  Regex.test p_class l || Regex.test p_namespace l.

Definition isVariableAssignment (l : str) : bool :=
  Regex.test p_variable l || Regex.test p_property l.

Definition isControlFlow (l : str) : bool :=
  Str.includes l (L "if (") || Str.includes l (L "for (")
  || Str.includes l (L "foreach (") || Str.includes l (L "while (")
  || Str.includes l (L "try {").

Definition formatFunctionDefinition (node : Node) : option str :=
  original_or node
    (Some (L "public " ++ or_default (returnType node) "void" ++ L " "
           ++ show (name node) ++ L "(" ++ params_text node ++ L ") {")).

(** [node.type === 'namespace'] holds of no node tag. *)
Definition formatClassDefinition (node : Node) : option str :=
  original_or node
    (Some (L "public class " ++ show (name node)
           ++ clause " : " (inheritance node) ++ L " {")).

Definition formatVariableAssignment (node : Node) : option str :=
  original_or node
    (Some (or_default (dataType node) "var" ++ L " " ++ show (name node)
           ++ clause " = " (value node) ++ L ";")).

Definition formatExpression : Node -> option str :=
  formatExpression_semicolon (fun _ => true).

Definition validateSyntax (code : str) : list Warning :=
  Base.validateSyntax languageName code
  ++ (if negb (some_line (fun l => Str.includes l (L "class ")) code)
      then [mkWarning (L "C# code should contain at least one class") None languageName]
      else []).

Definition re_modifiers := Regex.parse "(public|private|protected|internal|static|readonly|const|virtual|override|abstract)\s+".
Definition re_kinds := Regex.parse "(class|interface|struct|enum|namespace)\s+".
Definition re_control := Regex.parse "(if|else|for|foreach|while|do|try|catch|finally|switch)\s*\(".

Definition preprocess (code : str) : str :=
  Regex.replace_all Fmt.re_paren_brace (L ") {")
    (Regex.replace_all re_control (L "$1 (")
       (Regex.replace_all re_kinds (L "$1 ")
          (Regex.replace_all re_modifiers (L "$1 ") (Fmt.break_statements code)))).

Definition re_control_line := Regex.parse "^(if|else|for|foreach|while|do|try|catch|finally|switch)\b.*\)\s*$".

Definition opens (t : str) : Z :=
  if Str.endsWith t (L "{") || Regex.test re_control_line t then 1%Z else 0%Z.

Definition rules : Fmt.Rules :=
  Fmt.mkRules Fmt.is_semicolon Fmt.closing_brace opens (L "    ").

Definition formatCode (code : str) : str :=
  if negb (Str.truthy code) then [] else Fmt.layout rules (preprocess code).

Definition converter : Converter :=
  This.mkConverter languageName
    Base.isFullLineComment Base.hasInlineComment Base.splitInlineComment
    isFunctionDefinition isClassDefinition isVariableAssignment isControlFlow
    Base.never_matches Base.isBlockStart Base.never_matches
    Base.parseFunctionDefinition Base.parseClassDefinition
    Base.parseVariableAssignment Base.parseControlFlow
    Base.parseImportExport Base.parseExpression
    formatComment_of_string formatFunctionDefinition formatClassDefinition
    formatVariableAssignment Base.formatOriginal Base.formatOriginal
    formatExpression validateSyntax formatCode.

End CSharp.

(** ** C++ *)

Module Cpp.

Definition languageName : str := L "C++".

Definition p_class := Regex.parse "^(?:class|struct)\s+(\w+)(?:\s*:\s*(?:public|private|protected)\s+(.+))?\s*\{?$".
Definition p_function := Regex.parse "^(?:inline\s+)?(\w+(?:\s*\*)?)\s+(\w+)\s*\((.*?)\)\s*(?:const)?\s*\{?$".
Definition p_variable := Regex.parse "^(?:const\s+|static\s+)?(\w+(?:\s*\*)?)\s+(\w+)(?:\s*=\s*(.+))?\s*;?$".

Definition isFunctionDefinition (l : str) : bool :=
  Regex.test p_function l && negb (Str.includes l (L "class "))
  && negb (Str.includes l (L "struct ")).

Definition isClassDefinition (l : str) : bool :=
  Regex.test p_class l || Str.includes l (L "namespace ").

Definition isVariableAssignment (l : str) : bool :=
  Regex.test p_variable l && negb (Str.includes l (L "("))
  && negb (Str.includes l (L "class ")).

Definition isControlFlow (l : str) : bool :=
  Str.includes l (L "if (") || Str.includes l (L "for (")
  || Str.includes l (L "while (") || Str.includes l (L "try {")
  || Str.includes l (L "switch (").

Definition formatFunctionDefinition (node : Node) : option str :=
  original_or node
    (Some (or_default (returnType node) "void" ++ L " " ++ show (name node)
           ++ L "(" ++ params_text node ++ L ") {")).

(** [node.type === 'namespace'] holds of no node tag. *)
Definition formatClassDefinition (node : Node) : option str :=
  original_or node
    (Some (L "class " ++ show (name node)
           ++ clause " : public " (inheritance node) ++ L " {")).

Definition formatVariableAssignment (node : Node) : option str :=
  original_or node
    (Some (or_default (dataType node) "auto" ++ L " " ++ show (name node)
           ++ clause " = " (value node) ++ L ";")).

Definition formatExpression : Node -> option str :=
  formatExpression_semicolon
    (fun l => negb (Str.startsWith l (L "#")) && negb (Str.includes l (L "namespace "))).

Definition validateSyntax (code : str) : list Warning :=
  Base.validateSyntax languageName code
  ++ (if negb (some_line (fun l => Str.startsWith l (L "#include")) code)
      then [mkWarning (L "C++ code typically requires #include directives") None languageName]
      else []).

Definition re_keywords := Regex.parse "(class|struct|namespace|if|else|for|while|do|try|catch|switch)\s+".

Definition preprocess (code : str) : str :=
  Regex.replace_all Fmt.re_paren_brace (L ") {")
    (Regex.replace_all re_keywords (L "$1 ") (Fmt.break_statements code)).

Definition rules : Fmt.Rules :=
  Fmt.mkRules Fmt.is_semicolon Fmt.closing_brace Fmt.opening_brace (L "    ").

Definition formatCode (code : str) : str :=
  if negb (Str.truthy code) then [] else Fmt.layout rules (preprocess code).

Definition converter : Converter :=
  This.mkConverter languageName
    Base.isFullLineComment Base.hasInlineComment Base.splitInlineComment
    isFunctionDefinition isClassDefinition isVariableAssignment isControlFlow
    Base.never_matches Base.isBlockStart Base.never_matches
    Base.parseFunctionDefinition Base.parseClassDefinition
    Base.parseVariableAssignment Base.parseControlFlow
    Base.parseImportExport Base.parseExpression
    formatComment_of_string formatFunctionDefinition formatClassDefinition
    formatVariableAssignment Base.formatOriginal Base.formatOriginal
    formatExpression validateSyntax formatCode.

End Cpp.

(** ** Go *)

Module Go.

Definition languageName : str := L "Go".

Definition p_function := Regex.parse "^func\s+(?:\((\w+)\s+\*?(\w+)\)\s+)?(\w+)\s*\((.*?)\)\s*(?:\((.+)\)|(\w+))?\s*\{?$".
Definition p_type := Regex.parse "^type\s+(\w+)\s+(?:struct\s*\{|interface\s*\{|(.+))$".
Definition p_variable := Regex.parse "^(?:var\s+)?(\w+)(?:\s+(\w+))?\s*(?::?=\s*(.+))?\s*$".
Definition p_const := Regex.parse "^const\s+(\w+)(?:\s+(\w+))?\s*=\s*(.+)$".
Definition p_method := Regex.parse "^func\s+\((\w+)\s+\*?(\w+)\)\s+(\w+)\s*\((.*?)\)\s*(?:\((.+)\)|(\w+))?\s*\{?$".

Definition isFunctionDefinition (l : str) : bool :=
  Regex.test p_function l || Regex.test p_method l.

Definition isClassDefinition (l : str) : bool :=
  Regex.test p_type l
  && (Str.includes l (L "struct") || Str.includes l (L "interface")).

Definition isVariableAssignment (l : str) : bool :=
  Regex.test p_variable l || Regex.test p_const l.

Definition isControlFlow (l : str) : bool :=
  Str.includes l (L "if ") || Str.includes l (L "for ")
  || Str.includes l (L "switch ") || Str.includes l (L "select {")
  || Str.includes l (L "go ").

Definition formatFunctionDefinition (node : Node) : option str :=
  original_or node
    (Some (L "func " ++ show (name node) ++ L "(" ++ params_text node ++ L ")"
           ++ clause " " (returnType node) ++ L " {")).

Definition formatClassDefinition (node : Node) : option str :=
  original_or node
    (Some (match structType node with
           | Some k =>
               if Str.eqb k (L "struct")
               then L "type " ++ show (name node) ++ L " struct {"
               else if Str.eqb k (L "interface")
               then L "type " ++ show (name node) ++ L " interface {"
               else L "type " ++ show (name node) ++ L " " ++ show (definition node)
           | None => L "type " ++ show (name node) ++ L " " ++ show (definition node)
           end)).

Definition formatVariableAssignment (node : Node) : option str :=
  original_or node
    (Some (if isConst node
           then L "const " ++ show (name node) ++ L " = " ++ show (value node)
           else L "var " ++ show (name node) ++ clause " " (dataType node)
                ++ clause " = " (value node))).

Definition formatExpression (node : Node) : option str :=
  if negb (truthy_opt (originalLine node)) then Some []
  else Some (Str.trim (or_empty (originalLine node))).

Definition validateSyntax (code : str) : list Warning :=
  Base.validateSyntax languageName code
  ++ (if negb (some_line (fun l => Str.startsWith l (L "package ")) code)
      then [mkWarning (L "Go code should start with a package declaration") None languageName]
      else []).

Definition re_keywords := Regex.parse "(func|if|else|for|switch|select|type|var|const|package|import)\s+".

Definition preprocess (code : str) : str :=
  Regex.replace_all Fmt.re_paren_brace (L ") {")
    (Regex.replace_all re_keywords (L "$1 ")
       (Fmt.break_braces
          (Regex.replace_all Fmt.re_semicolon [Str.nl]
             (Regex.replace_all Fmt.re_double_semicolon (L ";") code)))).

Definition rules : Fmt.Rules :=
  Fmt.mkRules Fmt.is_semicolon Fmt.closing_brace Fmt.opening_brace [Str.ch 9].

Definition formatCode (code : str) : str :=
  if negb (Str.truthy code) then [] else Fmt.layout rules (preprocess code).

Definition converter : Converter :=
  This.mkConverter languageName
    Base.isFullLineComment Base.hasInlineComment Base.splitInlineComment
    isFunctionDefinition isClassDefinition isVariableAssignment isControlFlow
    Base.never_matches Base.isBlockStart Base.never_matches
    Base.parseFunctionDefinition Base.parseClassDefinition
    Base.parseVariableAssignment Base.parseControlFlow
    Base.parseImportExport Base.parseExpression
    formatComment_of_string formatFunctionDefinition formatClassDefinition
    formatVariableAssignment Base.formatOriginal Base.formatOriginal
    formatExpression validateSyntax formatCode.

End Go.

(** ** TypeScript *)

Module TypeScript.

Definition languageName : str := L "TypeScript".

Definition p_function := Regex.parse "^function\s+(\w+)\s*\((.*?)\)\s*:\s*(\w+)\s*\{?$".
Definition p_arrowFunction := Regex.parse "^(?:const|let|var)\s+(\w+)\s*:\s*\((.*?)\)\s*=>\s*(\w+)\s*=\s*\((.*?)\)\s*=>\s*(.*)$".
Definition p_interface := Regex.parse "^interface\s+(\w+)(?:\s+extends\s+(\w+))?\s*\{?$".
Definition p_type := Regex.parse "^type\s+(\w+)\s*=\s*(.+)$".
Definition p_class := Regex.parse "^(?:export\s+)?class\s+(\w+)(?:\s+extends\s+(\w+))?(?:\s+implements\s+(.+))?\s*\{?$".
Definition p_variable := Regex.parse "^(?:const|let|var)\s+(\w+)\s*:\s*(\w+)(?:\s*=\s*(.+))?\s*;?$".

Definition isFunctionDefinition (l : str) : bool :=
  Regex.test p_function l || Regex.test p_arrowFunction l.

Definition isClassDefinition (l : str) : bool :=
  Regex.test p_class l || Regex.test p_interface l.

Definition isVariableAssignment (l : str) : bool :=
  Regex.test p_variable l || Regex.test p_type l.

Definition isControlFlow (l : str) : bool :=
  Str.includes l (L "if (") || Str.includes l (L "for (")
  || Str.includes l (L "while (") || Str.includes l (L "try {").

Definition formatFunctionDefinition (node : Node) : option str :=
  original_or node
    (Some (L "function " ++ show (name node) ++ L "(" ++ params_text node
           ++ L "): " ++ or_default (returnType node) "void" ++ L " {")).

(** [node.type === 'interface'] holds of no node tag. *)
Definition formatClassDefinition (node : Node) : option str :=
  original_or node
    (Some (L "class " ++ show (name node) ++ clause " extends " (extends node)
           ++ clause " implements " (implements node) ++ L " {")).

Definition formatVariableAssignment (node : Node) : option str :=
  original_or node
    (Some (L "const " ++ show (name node) ++ clause ": " (dataType node)
           ++ clause " = " (value node) ++ L ";")).

Definition validateSyntax (code : str) : list Warning :=
  Base.validateSyntax languageName code
  ++ each_line (fun i l =>
                  if Str.includes l (L "function ") && negb (Str.includes l (L ": "))
                  then [line_warning languageName i
                          "TypeScript function should have return type annotation"]
                  else [])
               0 (Str.lines code).

Definition re_keywords := Regex.parse "(function|const|let|var|if|else|for|while|do|try|catch|finally|switch|interface|type|class|enum)\s+".

Definition preprocess (code : str) : str :=
  Regex.replace_all Fmt.re_paren_brace (L ") {")
    (Regex.replace_all re_keywords (L "$1 ") (Fmt.break_statements code)).

Definition closes (t : str) : bool :=
  Fmt.closing_brace t || Str.eqb t (L "];") || Str.eqb t (L ");").

Definition opens (t : str) : Z :=
  if Str.endsWith t (L "{") || Str.endsWith t (L "[") || Str.endsWith t (L "(")
  then 1%Z else 0%Z.

Definition rules : Fmt.Rules :=
  Fmt.mkRules Fmt.is_semicolon closes opens (L "  ").

Definition formatCode (code : str) : str :=
  if negb (Str.truthy code) then [] else Fmt.layout rules (preprocess code).

Definition converter : Converter :=
  This.mkConverter languageName
    Base.isFullLineComment Base.hasInlineComment Base.splitInlineComment
    isFunctionDefinition isClassDefinition isVariableAssignment isControlFlow
    Base.never_matches Base.isBlockStart Base.never_matches
    Base.parseFunctionDefinition Base.parseClassDefinition
    Base.parseVariableAssignment Base.parseControlFlow
    Base.parseImportExport Base.parseExpression
    formatComment_of_string formatFunctionDefinition formatClassDefinition
    formatVariableAssignment Base.formatOriginal Base.formatOriginal
    Base.formatOriginal validateSyntax formatCode.

End TypeScript.

(** ** PHP *)

Module Php.

Definition languageName : str := L "PHP".

Definition p_function := Regex.parse "^function\s+(\w+)\s*\((.*?)\)\s*\{?$".
Definition p_class := Regex.parse "^(?:abstract\s+|final\s+)?class\s+(\w+)(?:\s+extends\s+(\w+))?(?:\s+implements\s+(.+))?\s*\{?$".
Definition p_variable := Regex.parse "^(\$\w+)\s*=\s*(.+)\s*;?$".
Definition p_property := Regex.parse "^(?:public|private|protected)\s+(?:static\s+)?(\$\w+)(?:\s*=\s*(.+))?\s*;?$".
Definition p_method := Regex.parse "^(?:public|private|protected)\s+(?:static\s+)?function\s+(\w+)\s*\((.*?)\)\s*\{?$".

Definition isFunctionDefinition (l : str) : bool :=
  Regex.test p_function l || Regex.test p_method l.

Definition isClassDefinition (l : str) : bool := Regex.test p_class l.

Definition isVariableAssignment (l : str) : bool :=
  Regex.test p_variable l || Regex.test p_property l.

Definition isControlFlow (l : str) : bool :=
  Str.includes l (L "if (") || Str.includes l (L "foreach (")
  || Str.includes l (L "for (") || Str.includes l (L "while (")
  || Str.includes l (L "try {").

Definition formatFunctionDefinition (node : Node) : option str :=
  original_or node
    (Some (L "function " ++ show (name node) ++ L "(" ++ params_text node ++ L ") {")).

Definition formatClassDefinition (node : Node) : option str :=
  original_or node
    (Some (L "class " ++ show (name node) ++ clause " extends " (extends node)
           ++ clause " implements " (implements node) ++ L " {")).

Definition formatVariableAssignment (node : Node) : option str :=
  original_or node
    (Some (show (name node) ++ L " = " ++ show (value node) ++ L ";")).

Definition formatExpression : Node -> option str :=
  formatExpression_semicolon
    (fun l => negb (Str.startsWith l (L "<?php")) && negb (Str.includes l (L "namespace "))).

Definition validateSyntax (code : str) : list Warning :=
  Base.validateSyntax languageName code
  ++ each_line (fun i l =>
                  if Str.includes l (L "$") && negb (Str.includes l (L "="))
                     && negb (Str.includes l (L "("))
                  then [line_warning languageName i "PHP variable may need initialization"]
                  else [])
               0 (Str.lines code)
  ++ (if negb (some_line (fun l => Str.eqb l (L "<?php")) code)
      then [mkWarning (L "PHP code should start with <?php tag") None languageName]
      else []).

Definition re_keywords := Regex.parse "(function|class|if|else|elseif|for|foreach|while|do|try|catch|finally|switch)\s+".

Definition preprocess (code : str) : str :=
  Regex.replace_all Fmt.re_paren_brace (L ") {")
    (Regex.replace_all re_keywords (L "$1 ") (Fmt.break_statements code)).

Definition rules : Fmt.Rules :=
  Fmt.mkRules Fmt.is_semicolon Fmt.closing_brace Fmt.opening_brace (L "    ").

Definition formatCode (code : str) : str :=
  if negb (Str.truthy code) then [] else Fmt.layout rules (preprocess code).

Definition converter : Converter :=
  This.mkConverter languageName
    Base.isFullLineComment Base.hasInlineComment Base.splitInlineComment
    isFunctionDefinition isClassDefinition isVariableAssignment isControlFlow
    Base.never_matches Base.isBlockStart Base.never_matches
    Base.parseFunctionDefinition Base.parseClassDefinition
    Base.parseVariableAssignment Base.parseControlFlow
    Base.parseImportExport Base.parseExpression
    formatComment_of_string formatFunctionDefinition formatClassDefinition
    formatVariableAssignment Base.formatOriginal Base.formatOriginal
    formatExpression validateSyntax formatCode.

End Php.

(** ** Rust *)

Module Rust.

Definition languageName : str := L "Rust".

Definition p_function := Regex.parse "^(?:pub\s+)?fn\s+(\w+)\s*\((.*?)\)\s*(?:->\s*(.+))?\s*\{?$".
Definition p_struct := Regex.parse "^(?:pub\s+)?struct\s+(\w+)(?:<(.+)>)?\s*\{?$".
Definition p_enum := Regex.parse "^(?:pub\s+)?enum\s+(\w+)(?:<(.+)>)?\s*\{?$".
Definition p_impl := Regex.parse "^impl(?:<(.+)>)?\s+(\w+)(?:<(.+)>)?\s*\{?$".
Definition p_trait := Regex.parse "^(?:pub\s+)?trait\s+(\w+)(?:<(.+)>)?\s*\{?$".
Definition p_variable := Regex.parse "^let\s+(?:mut\s+)?(\w+)(?:\s*:\s*(.+?))?\s*=\s*(.+)\s*;?$".
Definition p_const := Regex.parse "^const\s+(\w+)\s*:\s*(.+)\s*=\s*(.+)\s*;?$".

Definition isFunctionDefinition (l : str) : bool := Regex.test p_function l.

Definition isClassDefinition (l : str) : bool :=
  Regex.test p_struct l || Regex.test p_enum l
  || Regex.test p_trait l || Regex.test p_impl l.

Definition isVariableAssignment (l : str) : bool :=
  Regex.test p_variable l || Regex.test p_const l.

Definition isControlFlow (l : str) : bool :=
  Str.includes l (L "if ") || Str.includes l (L "for ")
  || Str.includes l (L "while ") || Str.includes l (L "match ")
  || Str.includes l (L "loop {").

Definition formatFunctionDefinition (node : Node) : option str :=
  original_or node
    (Some (L "fn " ++ show (name node) ++ L "(" ++ params_text node ++ L ")"
           ++ clause " -> " (returnType node) ++ L " {")).

(** No node carries one of the tags the [switch] names, so it falls to
    [default: return node.originalLine]. *)
Definition formatClassDefinition (node : Node) : option str :=
  original_or node (originalLine node).

Definition formatVariableAssignment (node : Node) : option str :=
  original_or node
    (Some (if isConst node
           then L "const " ++ show (name node) ++ L ": " ++ show (dataType node)
                ++ L " = " ++ show (value node) ++ L ";"
           else L "let " ++ show (name node) ++ clause ": " (dataType node)
                ++ L " = " ++ show (value node) ++ L ";")).

Definition formatExpression : Node -> option str :=
  formatExpression_semicolon
    (fun l => negb (Str.includes l (L "if ")) && negb (Str.includes l (L "for "))
              && negb (Str.includes l (L "while ")) && negb (Str.includes l (L "match "))
              && negb (Str.includes l (L "loop "))).

Definition validateSyntax (code : str) : list Warning :=
  Base.validateSyntax languageName code
  ++ each_line (fun i l =>
                  if Str.includes l (L "let ") && negb (Str.includes l (L "="))
                  then [line_warning languageName i
                          "Rust variables should be initialized when declared"]
                  else [])
               0 (Str.lines code).

Definition re_scope := Regex.parse "::".
Definition re_macro := Regex.parse "(println!|print!|dbg!|vec!|format!)\s*\(".
Definition re_debug_fmt := Regex.parse "\{\s*:\s*\?\s*\}".
Definition re_fmt := Regex.parse "\{\s*:\s*(\w+)\s*\}".
Definition re_struct_semi := Regex.parse "(struct\s+\w+\s*\{[^}]*\})\s*;".
Definition re_enum_semi := Regex.parse "(enum\s+\w+\s*\{[^}]*\})\s*;".
Definition re_impl_semi := Regex.parse "(impl\s+[^{]*\{)\s*;".
Definition re_fn_semi := Regex.parse "(fn\s+[^{]*\{)\s*;".
Definition re_close_semi_before := Regex.parse "(\}\s*)\s*;(?=\s*(?:impl|struct|enum|fn|$))".
Definition re_open_semi := Regex.parse "(\{)\s*;".
Definition re_close_semi := Regex.parse "(\})\s*;(?!\s*(?:else|catch|finally))".
Definition re_keywords := Regex.parse "(fn|struct|enum|impl|trait|if|else|for|while|loop|match|let|const|static)\s+".

Definition protect (s : str) : str :=
  Regex.replace_all re_fmt (L "__RUST_FMT_$1__")
    (Regex.replace_all re_debug_fmt (L "__RUST_DEBUG_FMT__")
       (Regex.replace_all re_macro (L "__RUST_MACRO_$1__(")
          (Regex.replace_all re_scope (L "__RUST_SCOPE__") s))).

Definition drop_semicolons (s : str) : str :=
  Regex.replace_all re_close_semi (L "$1")
    (Regex.replace_all re_open_semi (L "$1")
       (Regex.replace_all re_close_semi_before (L "$1")
          (Regex.replace_all re_fn_semi (L "$1")
             (Regex.replace_all re_impl_semi (L "$1")
                (Regex.replace_all re_enum_semi (L "$1")
                   (Regex.replace_all re_struct_semi (L "$1") s)))))).

Definition preprocess (code : str) : str :=
  Regex.replace_all Fmt.re_paren_brace (L ") {")
    (Regex.replace_all re_keywords (L "$1 ")
       (Fmt.break_braces
          (Regex.replace_all Fmt.re_semicolon (L ";" ++ [Str.nl])
             (drop_semicolons
                (protect (Regex.replace_all Fmt.re_double_semicolon (L ";") code)))))).

Definition skips (t : str) : bool := Str.eqb t (L ";") || Str.eqb t (L ":").

Definition rules : Fmt.Rules :=
  Fmt.mkRules skips Fmt.closing_brace Fmt.opening_brace (L "    ").

Definition re_scope_back := Regex.parse "__RUST_SCOPE__".
Definition re_macro_back := Regex.parse "__RUST_MACRO_(println!|print!|dbg!|vec!|format!)__".
Definition re_debug_fmt_back := Regex.parse "__RUST_DEBUG_FMT__".
Definition re_fmt_back := Regex.parse "__RUST_FMT_(\w+)__".
Definition re_header_semi := Regex.parse_m "^(\s*)(struct|enum|impl|fn|trait)\s+[^{]*\{\s*;$".
Definition re_brace_semi := Regex.parse_m "^(\s*)\}\s*;$".

(** The restoring replacements and the two last clean-ups. *)
Definition restore (s : str) : str :=
  Regex.replace_all re_brace_semi (L "$1}")
    (Regex.replace_all re_header_semi (L "$1$2")
       (Regex.replace_all re_fmt_back (L "{:$1}")
          (Regex.replace_all re_debug_fmt_back (L "{:?}")
             (Regex.replace_all re_macro_back (L "$1")
                (Regex.replace_all re_scope_back (L "::") s))))).

Definition formatCode (code : str) : str :=
  if negb (Str.truthy code) then []
  else restore (Fmt.layout rules (preprocess code)).

Definition converter : Converter :=
  This.mkConverter languageName
    Base.isFullLineComment Base.hasInlineComment Base.splitInlineComment
    isFunctionDefinition isClassDefinition isVariableAssignment isControlFlow
    Base.never_matches Base.isBlockStart Base.never_matches
    Base.parseFunctionDefinition Base.parseClassDefinition
    Base.parseVariableAssignment Base.parseControlFlow
    Base.parseImportExport Base.parseExpression
    formatComment_of_string formatFunctionDefinition formatClassDefinition
    formatVariableAssignment Base.formatOriginal Base.formatOriginal
    formatExpression validateSyntax formatCode.

End Rust.

(** ** JavaScript *)

Module JavaScript.

Definition languageName : str := L "JavaScript".

Definition p_function := Regex.parse "^function\s+(\w+)\s*\((.*?)\)\s*\{?$".
Definition p_arrowFunction := Regex.parse "^(?:const|let|var)\s+(\w+)\s*=\s*(?:\((.*?)\)|(\w+))\s*=>\s*(.*)$".
Definition p_class := Regex.parse "^class\s+(\w+)(?:\s+extends\s+(\w+))?\s*\{?$".
Definition p_variable := Regex.parse "^(?:const|let|var)\s+(\w+)\s*=\s*(.+)$".
Definition p_if := Regex.parse "^if\s*\((.*?)\)\s*\{?$".
Definition p_for := Regex.parse "^for\s*\((.*?)\)\s*\{?$".
Definition p_while := Regex.parse "^while\s*\((.*?)\)\s*\{?$".
Definition p_try := Regex.parse "^try\s*\{?$".

Definition isFullLineComment (l : str) : bool :=
  if negb (Str.truthy l) then false
  else Str.startsWith l (L "//") || Str.startsWith l (L "/*")
       || Str.startsWith l (L "*/") || Str.startsWith l (L "*")
       || negb (Str.truthy (Str.trim l)).

(** The pattern of a quoted literal passed to [line.split]; the double
    quote of the source class is written with its escape, x22. *)
Definition re_string_literal := Regex.parse "(['\x22])((?:(?!\1)[^\\]|\\.)*)(\1)".

(** [for (let i = 0; i < parts.length; i += 4)]: whether a part at an
    index that is a multiple of four includes [//]. *)
Fixpoint outside_has_comment (parts : list (option str)) : bool :=
  match parts with
  | [] => false
  | p :: rest =>
      (truthy_opt p && Str.includes (or_empty p) (L "//"))
      || match rest with
         | _ :: _ :: _ :: rest' => outside_has_comment rest'
         | _ => false
         end
  end.

Definition hasInlineComment (l : str) : bool :=
  if negb (Str.truthy l) then false
  else outside_has_comment (Regex.split re_string_literal l).

Definition splitInlineComment (l : str) : str * str :=
  match Str.indexOf l (L "//") with
  | None => (l, [])
  | Some commentIndex =>
      (Str.trim (Str.substring l 0 commentIndex),
       Str.trim (Str.substringFrom l commentIndex))
  end.

Definition isFunctionDefinition (l : str) : bool :=
  Regex.test p_function l || Regex.test p_arrowFunction l.

Definition isClassDefinition (l : str) : bool := Regex.test p_class l.

Definition re_assign := Regex.parse "^\w+\s*=\s*.+$".

Definition isVariableAssignment (l : str) : bool :=
  Regex.test p_variable l
  || (Regex.test re_assign l && negb (Str.includes l (L "function"))
      && negb (Str.includes l (L "class"))).

Definition isControlFlow (l : str) : bool :=
  Regex.test p_if l || Regex.test p_for l || Regex.test p_while l || Regex.test p_try l.

(** [text.split(',').map(p => p.trim()).filter(p => p)] *)
Definition param_list (text : str) : list str :=
  filter Str.truthy (map Str.trim (Str.split "," text)).

(** A node of the given tag with only [line] and [indent] set, the common
    part of the object literals below. *)
Definition at_line (t : NodeType) (ln i : nat) : Node := with_indent (bare t ln) i None.

Definition with_function (n : Node) (nm : option str) (ps : list str)
           (b : list str) (arrow : bool) : Node :=
  mkNode (type n) (originalLine n) (line n) (indent n) (context n) nm
         (Some ps) (Some b) (Some arrow) (extends n) (value n)
         (declarationType n) (subtype n) (condition n) (content n)
         (indentation n) (inlineComment n) (returnType n) (dataType n)
         (inheritance n) (implements n) (structType n) (definition n)
         (isMutable n) (isConst n).

Definition with_class (n : Node) (nm ext : option str) : Node :=
  mkNode (type n) (originalLine n) (line n) (indent n) (context n) nm
         (parameters n) (body n) (isArrow n) ext (value n)
         (declarationType n) (subtype n) (condition n) (content n)
         (indentation n) (inlineComment n) (returnType n) (dataType n)
         (inheritance n) (implements n) (structType n) (definition n)
         (isMutable n) (isConst n).

Definition with_variable (n : Node) (nm v decl : option str) : Node :=
  mkNode (type n) (originalLine n) (line n) (indent n) (context n) nm
         (parameters n) (body n) (isArrow n) (extends n) v
         decl (subtype n) (condition n) (content n)
         (indentation n) (inlineComment n) (returnType n) (dataType n)
         (inheritance n) (implements n) (structType n) (definition n)
         (isMutable n) (isConst n).

Definition with_control (n : Node) (sub : string) (cond : option str) : Node :=
  mkNode (type n) (originalLine n) (line n) (indent n) (context n) (name n)
         (parameters n) (body n) (isArrow n) (extends n) (value n)
         (declarationType n) (Some (L sub)) cond (content n)
         (indentation n) (inlineComment n) (returnType n) (dataType n)
         (inheritance n) (implements n) (structType n) (definition n)
         (isMutable n) (isConst n).

(** [{ type, originalLine: line, line: lineNumber, indent }] *)
Definition fallback (t : NodeType) (l : str) (ln i : nat) : Node :=
  line_node t l ln i None.

(** In the arrow case an empty parameter list leaves group 2 falsy and the
    list becomes [[arrowMatch[3]]], one absent element; it joins to the
    empty text, as the empty element kept here does. *)
Definition parseFunctionDefinition (l : str) (ln i : nat) (_ : option nat) : result Node :=
  match Regex.exec p_function l with
  | Some f =>
      Ok (with_function (at_line FunctionDefinition ln i) (Regex.group f 1)
            (param_list (or_empty (Regex.group f 2))) [] false)
  | None =>
      match Regex.exec p_arrowFunction l with
      | Some a =>
          Ok (with_function (at_line FunctionDefinition ln i) (Regex.group a 1)
                (if truthy_opt (Regex.group a 2)
                 then param_list (or_empty (Regex.group a 2))
                 else [or_empty (Regex.group a 3)])
                (if truthy_opt (Regex.group a 4) then [or_empty (Regex.group a 4)] else [])
                true)
      | None => Ok (fallback FunctionDefinition l ln i)
      end
  end.

Definition parseClassDefinition (l : str) (ln i : nat) (_ : option nat) : result Node :=
  match Regex.exec p_class l with
  | Some f =>
      Ok (with_class (at_line ClassDefinition ln i) (Regex.group f 1)
            (if truthy_opt (Regex.group f 2) then Regex.group f 2 else None))
  | None => Ok (fallback ClassDefinition l ln i)
  end.

Definition re_declaration_keyword := Regex.parse "^(const|let|var)".
Definition re_assign_groups := Regex.parse "^(\w+)\s*=\s*(.+)$".

(** [line.match(/^(const|let|var)/)[1]] reads a group of a match that may
    be [null]. *)
Definition parseVariableAssignment (l : str) (ln i : nat) (_ : option nat) : result Node :=
  match Regex.exec p_variable l with
  | Some d =>
      match Regex.exec re_declaration_keyword l with
      | Some k =>
          Ok (with_variable (at_line VariableAssignment ln i)
                (Regex.group d 1) (Regex.group d 2) (Regex.group k 1))
      | None => Throw (L "Cannot read properties of null (reading '1')")
      end
  | None =>
      match Regex.exec re_assign_groups l with
      | Some a =>
          Ok (with_variable (at_line VariableAssignment ln i)
                (Regex.group a 1) (Regex.group a 2) None)
      | None => Ok (fallback VariableAssignment l ln i)
      end
  end.

Definition parseControlFlow (l : str) (ln i : nat) (_ : option nat) : result Node :=
  match Regex.exec p_if l with
  | Some f => Ok (with_control (at_line ControlFlow ln i) "if" (Regex.group f 1))
  | None =>
      match Regex.exec p_for l with
      | Some f => Ok (with_control (at_line ControlFlow ln i) "for" (Regex.group f 1))
      | None =>
          match Regex.exec p_while l with
          | Some f => Ok (with_control (at_line ControlFlow ln i) "while" (Regex.group f 1))
          | None => Ok (fallback ControlFlow l ln i)
          end
      end
  end.

Definition re_python_def := Regex.parse "^def\s+(\w+)\s*\((.*?)\)\s*:$".

(** The elements of [node.body] are kept as text; [nodeToCode] of a text
    has no [type] to switch on and no [originalLine], so the body loop adds
    nothing between the two braces. *)
Definition formatFunctionDefinition (node : Node) : option str :=
  if truthy_opt (originalLine node) then
    let l := Str.trim (or_empty (originalLine node)) in
    if Str.startsWith l (L "def ") && Str.endsWith l (L ":") then
      match Regex.exec re_python_def l with
      | Some f =>
          Some (L "function " ++ show (Regex.group f 1) ++ L "("
                ++ Str.join (L ", ") (param_list (or_empty (Regex.group f 2)))
                ++ L ") {")
      | None => originalLine node
      end
    else originalLine node
  else
    Some (L "function " ++ show (name node) ++ L "(" ++ params_text node
          ++ L ") {" ++ [Str.nl] ++ L "}").

Definition formatClassDefinition (node : Node) : option str :=
  original_or node
    (Some (L "class " ++ show (name node) ++ clause " extends " (extends node) ++ L " {")).

Definition formatVariableAssignment (node : Node) : option str :=
  original_or node
    (Some (or_default (declarationType node) "let" ++ L " " ++ show (name node)
           ++ L " = " ++ show (value node) ++ L ";")).

Definition formatControlFlow (node : Node) : option str :=
  original_or node
    (match subtype node with
     | Some k =>
         if Str.eqb k (L "if") then Some (L "if (" ++ show (condition node) ++ L ") {")
         else if Str.eqb k (L "for") then Some (L "for (" ++ show (condition node) ++ L ") {")
         else if Str.eqb k (L "while") then Some (L "while (" ++ show (condition node) ++ L ") {")
         else Some (or_empty (originalLine node))
     | None => Some (or_empty (originalLine node))
     end).

Definition formatExpression : Node -> option str :=
  formatExpression_semicolon (fun _ => true).

Definition re_declaration := Regex.parse "^(const|let|var)\s+\w+\s*[^=]".

(** The loop of [validateSyntax]: the warnings of the lines from index [i]
    and the brace count, comment lines left out of both. *)
Fixpoint validate_lines (i : nat) (lines : list str) : list Warning * Z :=
  match lines with
  | [] => ([], 0%Z)
  | l :: rest =>
      let '(ws, bc) := validate_lines (S i) rest in
      let trimmed := Str.trim l in
      if negb (Str.truthy l) then (ws, bc)
      else if Str.startsWith trimmed (L "//") || Str.startsWith trimmed (L "/*")
      then (ws, bc)
      else
        ((if Str.includes trimmed (L "function ") && negb (Str.includes trimmed (L "("))
          then [line_warning languageName i "Function definition may be incomplete"]
          else [])
         ++ (if Regex.test re_declaration trimmed && negb (Str.includes trimmed (L "="))
             then [line_warning languageName i "Variable declaration without initialization"]
             else [])
         ++ ws,
         (brace_delta l + bc)%Z)
  end.

Definition validateSyntax (code : str) : list Warning :=
  if negb (Str.truthy code) then []
  else
    let '(ws, bc) := validate_lines 0 (Str.lines code) in
    Base.validateSyntax languageName code ++ ws
    ++ (if negb (bc =? 0)%Z
        then [mkWarning (L "Unmatched curly braces detected") None languageName]
        else []).

(** The callback of [.filter((line, index, array) => ...)]: [prev] is
    [array[index - 1]], absent at index 0. *)
Definition keeps (prev : option str) (l : str) : bool :=
  let trimmed := Str.trim l in
  let prevLine := match prev with Some x => Str.trim x | None => [] end in
  if Str.startsWith trimmed (L "//") then
    if (length trimmed <? 10) && negb (Str.includes trimmed (L "TODO"))
       && negb (Str.includes trimmed (L "FIXME"))
    then false
    else if Str.startsWith prevLine (L "//") && Str.eqb trimmed prevLine
    then false
    else true
  else true.

Fixpoint filter_lines (prev : option str) (lines : list str) : list str :=
  match lines with
  | [] => []
  | l :: rest =>
      if keeps prev l then l :: filter_lines (Some l) rest
      else filter_lines (Some l) rest
  end.

(** The class body declares [formatCode] twice.  This is the first
    declaration, which the second replaces: no call reaches it.  It is the
    loop of the other converters, closing a level at every line that
    begins with a closing brace. *)
Definition re_keywords :=
  Regex.parse "(function|const|let|var|if|else|for|while|do|try|catch|finally|switch)\s+".

Definition preprocess_replaced (code : str) : str :=
  Regex.replace_all Fmt.re_paren_brace (L ") {")
    (Regex.replace_all re_keywords (L "$1 ") (Fmt.break_statements code)).

(** [trimmed === '}' || trimmed.startsWith('}')] *)
Definition closes_replaced (t : str) : bool :=
  Str.eqb t (L "}") || Str.startsWith t (L "}").

(** [this.getIndentation(indentLevel)] is four spaces for each level. *)
Definition rules_replaced : Fmt.Rules :=
  Fmt.mkRules Fmt.is_semicolon closes_replaced Fmt.opening_brace (L "    ").

Definition formatCode_replaced (code : str) : str :=
  if negb (Str.truthy code) then []
  else Fmt.layout rules_replaced (preprocess_replaced code).

(** [formatCode]: the second declaration, the one in effect. *)
Definition formatCode (code : str) : str :=
  if negb (Str.truthy code) then []
  else
    Str.trim (Fmt.collapse
                (Str.unlines (filter_lines None (map Str.trimEnd (Str.lines code))))).

Definition converter : Converter :=
  This.mkConverter languageName
    isFullLineComment hasInlineComment splitInlineComment
    isFunctionDefinition isClassDefinition isVariableAssignment isControlFlow
    Base.never_matches Base.isBlockStart Base.never_matches
    parseFunctionDefinition parseClassDefinition
    parseVariableAssignment parseControlFlow
    Base.parseImportExport Base.parseExpression
    formatComment_of_string formatFunctionDefinition formatClassDefinition
    formatVariableAssignment formatControlFlow Base.formatOriginal
    formatExpression validateSyntax formatCode.

End JavaScript.

(** ** Python *)

Module Python.

Definition languageName : str := L "Python".

Definition p_function := Regex.parse "^def\s+(\w+)\s*\((.*?)\)\s*:$".
Definition p_class := Regex.parse "^class\s+(\w+)(?:\s*\(\s*(\w+)\s*\))?\s*:$".
Definition p_variable := Regex.parse "^(\w+)\s*=\s*(.+)$".
Definition p_if := Regex.parse "^if\s+(.*?)\s*:$".
Definition p_for := Regex.parse "^for\s+(\w+)\s+in\s+(.*?)\s*:$".
Definition p_forRange := Regex.parse "^for\s+(\w+)\s+in\s+range\s*\((.*?)\)\s*:$".
Definition p_while := Regex.parse "^while\s+(.*?)\s*:$".
Definition p_try := Regex.parse "^try\s*:$".

(** [getIndentLevel(line)] *)
Definition getIndentLevel (l : str) : nat :=
  if negb (Str.truthy l) then 0 else leading l.

(** [addIndent(line, level)] *)
Definition addIndent (l : str) (level : nat) : str :=
  if negb (Str.truthy (Str.trim l)) then l else Str.repeat (L " ") level ++ l.

Definition isFullLineComment (l : str) : bool :=
  if negb (Str.truthy l) then false else Str.startsWith (Str.trim l) (L "#").

Definition hasInlineComment (l : str) : bool :=
  if negb (Str.truthy l) then false else Str.includes l (L "#").

Definition splitInlineComment (l : str) : str * str :=
  match Str.indexOf l (L "#") with
  | None => (l, [])
  | Some commentIndex =>
      (Str.trim (Str.substring l 0 commentIndex),
       Str.trim (Str.substringFrom l commentIndex))
  end.

Definition isFunctionDefinition (l : str) : bool := Regex.test p_function l.
Definition isClassDefinition (l : str) : bool := Regex.test p_class l.
Definition isVariableAssignment (l : str) : bool := Regex.test p_variable l.
Definition isControlFlow (l : str) : bool :=
  Regex.test p_if l || Regex.test p_for l || Regex.test p_while l || Regex.test p_try l.

(** [isBlockStart(line)] is declared for a line of text and the base class
    hands it the node object, which has no [endsWith]. *)
Definition isBlockStart (_ : Node) : result bool :=
  Throw (L "line.endsWith is not a function").

Definition re_and := Regex.parse "\band\b".
Definition re_or := Regex.parse "\bor\b".
Definition re_not := Regex.parse "\bnot\b".
Definition re_True := Regex.parse "\bTrue\b".
Definition re_False := Regex.parse "\bFalse\b".
Definition re_None := Regex.parse "\bNone\b".

Definition convertPythonCondition (cond : str) : str :=
  Regex.replace_all re_None (L "null")
    (Regex.replace_all re_False (L "false")
       (Regex.replace_all re_True (L "true")
          (Regex.replace_all re_not (L "!")
             (Regex.replace_all re_or (L "||")
                (Regex.replace_all re_and (L "&&") cond))))).

Definition convertPythonExpression (expr : str) : str :=
  Str.trim
    (Regex.replace_all re_None (L "null")
       (Regex.replace_all re_False (L "false")
          (Regex.replace_all re_True (L "true") expr))).

Definition re_placeholder := Regex.parse "\{([^}]+)\}".
Definition backtick : ascii := Str.ch 96.
Definition dquote : ascii := Str.ch 34.

(** The two last replacements put a backtick at [^] and at [$]. *)
Definition convertPythonPrint (content : str) : str :=
  if Str.startsWith content ["f"%char; dquote] || Str.startsWith content (L "f'") then
    backtick
      :: Regex.replace_all re_placeholder (L "${$1}")
           (Str.substring content 2 (length content - 1))
      ++ [backtick]
  else content.

Definition re_for_range := Regex.parse "^for\s+(\w+)\s+in\s+range\s*\((.*?)\)\s*:$".
Definition re_print := Regex.parse "print\s*\((.*?)\)$".

Definition default_line (l : str) : str :=
  let converted := convertPythonExpression l in
  if Str.endsWith converted (L ";") then converted else converted ++ L ";".

Definition from_print (l : str) : str :=
  if Str.startsWith l (L "print(") then
    match Regex.exec re_print l with
    | Some f => L "console.log(" ++ convertPythonPrint (or_empty (Regex.group f 1)) ++ L ");"
    | None => default_line l
    end
  else default_line l.

Definition from_return (l : str) : str :=
  if Str.startsWith l (L "return ") then
    L "return " ++ convertPythonExpression (Str.substringFrom l 7) ++ L ";"
  else from_print l.

Definition from_for (l : str) : str :=
  if Str.startsWith l (L "for ") && Str.includes l (L " in range(") && Str.endsWith l (L ":") then
    match Regex.exec re_for_range l with
    | Some f =>
        let variable := show (Regex.group f 1) in
        L "for (let " ++ variable ++ L " = 0; " ++ variable ++ L " < "
        ++ show (Regex.group f 2) ++ L "; " ++ variable ++ L "++) {"
    | None => from_return l
    end
  else from_return l.

Definition from_if (l : str) : str :=
  if Str.startsWith l (L "if ") && Str.endsWith l (L ":") then
    L "if (" ++ convertPythonCondition (Str.trim (Str.sliceEnd l 3 1)) ++ L ") {"
  else from_for l.

(** [convertPythonLineToJS(line)]: the tests in the order of the source,
    each falling to the next when it does not return. *)
Definition convertPythonLineToJS (l : str) : str :=
  if negb (Str.truthy l) then []
  else if Str.startsWith l (L "def ") && Str.endsWith l (L ":") then
    match Regex.exec p_function l with
    | Some f =>
        L "function " ++ show (Regex.group f 1) ++ L "(" ++ show (Regex.group f 2) ++ L ") {"
    | None => from_if l
    end
  else from_if l.

(** [getBlockType(line)]; [None] is [null]. *)
Definition getBlockType (l : str) : option str :=
  if Str.startsWith l (L "def ") then Some (L "function")
  else if Str.startsWith l (L "class ") then Some (L "class")
  else if Str.startsWith l (L "if ") then Some (L "if")
  else if Str.startsWith l (L "for ") then Some (L "for")
  else if Str.startsWith l (L "while ") then Some (L "while")
  else if Str.startsWith l (L "try") then Some (L "try")
  else None.

(** An entry of [blockStack]: the block type and the indent it opened at. *)
Definition OpenBlock : Type := (str * nat)%type.

(** [closeBlocksIfNeeded]: the closing lines pushed and the stack left;
    the stack has its top first. *)
Fixpoint closeBlocksIfNeeded (blockStack : list OpenBlock) (currentIndent : nat)
  : list str * list OpenBlock :=
  match blockStack with
  | [] => ([], [])
  | (_, ind) :: below =>
      if currentIndent <=? ind then
        let '(closed, remaining) := closeBlocksIfNeeded below currentIndent in
        (addIndent (L "}") ind :: closed, remaining)
      else ([], blockStack)
  end.

(** The loop of [convertPythonToJS]: the lines pushed to [jsLines]. *)
Fixpoint convert_lines (lines : list str) (blockStack : list OpenBlock) : list str :=
  match lines with
  | [] => map (fun b => addIndent (L "}") (snd b)) blockStack
  | l :: rest =>
      let trimmed := Str.trim l in
      let currentIndent := getIndentLevel l in
      if negb (Str.truthy trimmed) || Str.startsWith trimmed (L "#") then
        l :: convert_lines rest blockStack
      else
        let '(closed, stack1) := closeBlocksIfNeeded blockStack currentIndent in
        let jsLine := convertPythonLineToJS trimmed in
        let stack2 :=
          if Str.endsWith trimmed (L ":") then
            match getBlockType trimmed with
            | Some blockType => (blockType, currentIndent) :: stack1
            | None => stack1
            end
          else stack1 in
        closed ++ addIndent jsLine currentIndent :: convert_lines rest stack2
  end.

Definition re_block_header :=
  Regex.parse "(def|class|if|elif|else|for|while|try|except|finally|with)\s+[^:\n]*:(?!\s*[\r\n])".
Definition re_keyword_start :=
  Regex.parse "\b(def|class|if|elif|else|for|while|try|except|finally|with)\s+".
Definition re_first_newline := Regex.parse "^\n".

Definition preprocess (code : str) : str :=
  Regex.replace_first re_first_newline []
    (Regex.replace_all re_keyword_start (Str.nl :: L "$1 ")
       (Regex.replace_all re_block_header (L "$&" ++ [Str.nl])
          (Regex.replace_all Fmt.re_semicolon (L ";" ++ [Str.nl])
             (Regex.replace_all Fmt.re_double_semicolon (L ";") code)))).

Definition re_dedent := Regex.parse "^(else|elif|except|finally)\b".
Definition re_block_line :=
  Regex.parse "^(def|class|if|elif|else|for|while|try|except|finally|with)\b.*:$".

(** The two [if]s after the push: each may step the level up by one. *)
Definition opens (t : str) : Z :=
  ((if Regex.test re_block_line t then 1 else 0)
   + (if Regex.test re_dedent t && Str.endsWith t (L ":") then 1 else 0))%Z.

Definition rules : Fmt.Rules :=
  Fmt.mkRules Fmt.is_semicolon (Regex.test re_dedent) opens (L "    ").

Definition formatCode (code : str) : str :=
  if negb (Str.truthy code) then [] else Fmt.layout rules (preprocess code).

(** [convertPythonToJS(pythonCode)] *)
Definition convertPythonToJS (pythonCode : str) : str :=
  formatCode (Str.unlines (convert_lines (Str.lines pythonCode) [])).

(** The single node of the tree [parseToAST] returns. *)
Definition whole_program (jsCode : str) : Node :=
  with_originalLine (bare Expression 1) jsCode.

(** [parseToAST(sourceCode)], overriding the base method; no warning is
    recorded on this path. *)
Definition parseToAST (sourceCode : str) : result (Program * list Warning) :=
  let jsCode := convertPythonToJS sourceCode in
  Ok (mkProgram [whole_program jsCode] (L "JavaScript") jsCode None, []).

(** [generateFromAST(ast)], overriding the base method *)
Definition generateFromAST (ast : Program) : str :=
  convertPythonToJS (originalCode ast).

(** The elements of [node.body] are kept as text, for which
    [convertBodyNode] returns the empty text: the body loop adds nothing. *)
Definition formatFunctionDefinition (node : Node) : option str :=
  if truthy_opt (originalLine node) then
    let l := Str.trim (or_empty (originalLine node)) in
    if Str.startsWith l (L "def ") && Str.endsWith l (L ":") then
      match Regex.exec p_function l with
      | Some f =>
          Some (L "function " ++ show (Regex.group f 1) ++ L "("
                ++ show (Regex.group f 2) ++ L ") {" ++ [Str.nl] ++ L "}")
      | None => originalLine node
      end
    else originalLine node
  else Some (L "function " ++ show (name node) ++ L "(" ++ params_text node ++ L ") {}").

Definition formatControlFlow (node : Node) : option str :=
  if truthy_opt (originalLine node) then
    let l := Str.trim (or_empty (originalLine node)) in
    if Str.startsWith l (L "if ") && Str.endsWith l (L ":") then
      Some (L "if (" ++ convertPythonCondition (Str.trim (Str.sliceEnd l 3 1))
            ++ L ") {" ++ [Str.nl] ++ L "}")
    else if Str.startsWith l (L "for ") && Str.endsWith l (L ":") then
      match Regex.exec re_for_range l with
      | Some f =>
          let variable := show (Regex.group f 1) in
          Some (L "for (let " ++ variable ++ L " = 0; " ++ variable ++ L " < "
                ++ show (Regex.group f 2) ++ L "; " ++ variable ++ L "++) {"
                ++ [Str.nl] ++ L "}")
      | None => originalLine node
      end
    else originalLine node
  else Some [].

Definition formatExpression (node : Node) : option str :=
  if negb (truthy_opt (originalLine node)) then Some []
  else
    let l := Str.trim (or_empty (originalLine node)) in
    if negb (Str.truthy l) || Str.startsWith l (L "#") then Some []
    else Some (convertPythonLineToJS l).

Definition converter : Converter :=
  This.mkConverter languageName
    isFullLineComment hasInlineComment splitInlineComment
    isFunctionDefinition isClassDefinition isVariableAssignment isControlFlow
    Base.never_matches isBlockStart Base.never_matches
    Base.parseFunctionDefinition Base.parseClassDefinition
    Base.parseVariableAssignment Base.parseControlFlow
    Base.parseImportExport Base.parseExpression
    formatComment_of_string formatFunctionDefinition Base.formatOriginal
    Base.formatOriginal formatControlFlow Base.formatOriginal
    formatExpression (Base.validateSyntax languageName) formatCode.

End Python.

(** ** The orchestrator *)

(** The ten converter classes, named by their keys in [CONVERTERS]. *)
Inductive Lang : Type :=
| javascript | python | java | typescript | csharp
| cpp | php | go | rust | kotlin.

Definition all_langs : list Lang :=
  [javascript; python; java; typescript; csharp; cpp; php; go; rust; kotlin].

(** [SUPPORTED_LANGUAGES[i].value] *)
Definition tag (l : Lang) : str :=
  match l with
  | javascript => L "javascript"
  | python => L "python"
  | java => L "java"
  | typescript => L "typescript"
  | csharp => L "csharp"
  | cpp => L "cpp"
  | php => L "php"
  | go => L "go"
  | rust => L "rust"
  | kotlin => L "kotlin"
  end.

(** The instance [new CONVERTERS[tag]()] builds. *)
Definition converter_of (l : Lang) : Converter :=
  match l with
  | javascript => JavaScript.converter
  | python => Python.converter
  | java => Java.converter
  | typescript => TypeScript.converter
  | csharp => CSharp.converter
  | cpp => Cpp.converter
  | php => Php.converter
  | go => Go.converter
  | rust => Rust.converter
  | kotlin => Kotlin.converter
  end.

(** Method dispatch: Python overrides [parseToAST] and [generateFromAST],
    the other classes inherit them. *)
Definition parseToAST (l : Lang) (sourceCode : str) : result (Program * list Warning) :=
  match l with
  | python => Python.parseToAST sourceCode
  | _ => Base.parseToAST (converter_of l) sourceCode
  end.

Definition generateFromAST (l : Lang) (ast : Program) : str :=
  match l with
  | python => Python.generateFromAST ast
  | _ => Base.generateFromAST (converter_of l) ast
  end.

Definition formatCode (l : Lang) (code : str) : str :=
  This.formatCode (converter_of l) code.

(** What reading [CONVERTERS[key]] yields.  [CONVERTERS] is an object
    literal: besides its ten own keys it answers for the members it
    inherits from [Object.prototype], all of them truthy. *)
Inductive Lookup : Type :=
| Class (l : Lang)
| Inherited (member : str)
| Undefined.

Definition object_prototype_members : list str :=
  [L "constructor"; L "__defineGetter__"; L "__defineSetter__";
   L "hasOwnProperty"; L "__lookupGetter__"; L "__lookupSetter__";
   L "isPrototypeOf"; L "propertyIsEnumerable"; L "toString"; L "valueOf";
   L "__proto__"; L "toLocaleString"].

Definition CONVERTERS (key : str) : Lookup :=
  match find (fun l => Str.eqb (tag l) key) all_langs with
  | Some l => Class l
  | None =>
      if existsb (Str.eqb key) object_prototype_members
      then Inherited key else Undefined
  end.

(** The stages of the pipeline, recorded as they start. *)
Inductive Stage : Type := ParseStage | GenerateStage | FormatStage.

Inductive Outcome : Type :=
| Returned (code : str) (warnings : list Warning)
| Raised (msg : str).

Record Run : Type := mkRun {
  outcome : Outcome;
  stages : list Stage
}.

(** The [TypeError] of [new X()] followed by a method call when [X] is an
    inherited member: [Object] constructs an object without the method,
    the other members are not constructors. *)
Definition misuse (member : str) (binding method : string) : str :=
  if Str.eqb member (L "constructor")
  then L method ++ L " is not a function"
  else L binding ++ L " is not a constructor".

(** [throw new Error(`Conversion failed: ${error.message}`)] *)
Definition conversion_failed (e : str) : Outcome :=
  Raised (L "Conversion failed: " ++ e).

(** [convertCode(sourceCode, fromLang, toLang)] *)
Definition convertCode (sourceCode fromLang toLang : str) : Run :=
  if negb (Str.truthy (Str.trim sourceCode)) then
    mkRun (Raised (L "Please provide source code to convert")) []
  else if Str.eqb fromLang toLang then
    mkRun (Raised (L "Source and target languages must be different")) []
  else
    match CONVERTERS fromLang, CONVERTERS toLang with
    | Undefined, _ | _, Undefined =>
        mkRun (Raised (L "Conversion between " ++ fromLang ++ L " and " ++ toLang
                       ++ L " is not supported")) []
    | Inherited mem, _ =>
        mkRun (conversion_failed
                 (misuse mem "fromConverter" "sourceConverter.parseToAST")) []
    | Class lf, Inherited mem =>
        match parseToAST lf sourceCode with
        | Throw e => mkRun (conversion_failed e) [ParseStage]
        | Ok _ =>
            mkRun (conversion_failed
                     (misuse mem "toConverter" "targetConverter.generateFromAST"))
                  [ParseStage]
        end
    | Class lf, Class lt =>
        match parseToAST lf sourceCode with
        | Throw e => mkRun (conversion_failed e) [ParseStage]
        | Ok (ast, sourceWarnings) =>
            let targetCode := generateFromAST lt ast in
            let formattedCode := formatCode lt targetCode in
            if negb (Str.truthy formattedCode) then
              mkRun (conversion_failed (L "Code formatting failed - invalid output"))
                    [ParseStage; GenerateStage; FormatStage]
            else
              mkRun (Returned formattedCode (sourceWarnings ++ []))
                    [ParseStage; GenerateStage; FormatStage]
        end
    end.

(** ** Views of the definitions used by the statements below *)

(** The loop tests and the pre-processing of each [formatCode] that runs
    the indentation loop; JavaScript's effective [formatCode] has none. *)
Definition rules_of (l : Lang) : option Fmt.Rules :=
  match l with
  | javascript => None
  | python => Some Python.rules
  | java => Some Java.rules
  | typescript => Some TypeScript.rules
  | csharp => Some CSharp.rules
  | cpp => Some Cpp.rules
  | php => Some Php.rules
  | go => Some Go.rules
  | rust => Some Rust.rules
  | kotlin => Some Kotlin.rules
  end.

Definition preprocess_of (l : Lang) (code : str) : str :=
  match l with
  | javascript => code
  | python => Python.preprocess code
  | java => Java.preprocess code
  | typescript => TypeScript.preprocess code
  | csharp => CSharp.preprocess code
  | cpp => Cpp.preprocess code
  | php => Php.preprocess code
  | go => Go.preprocess code
  | rust => Rust.preprocess code
  | kotlin => Kotlin.preprocess code
  end.




(** Balance as the loop sees it, line by line: the level the loop would
    track without its clamp, and whether a closing line ever meets level
    zero. *)
Definition counts (r : Fmt.Rules) (ln : str) : bool :=
  let t := Str.trim ln in Str.truthy t && negb (Fmt.skips r t).

Fixpoint lines_balanced_from (r : Fmt.Rules) (depth : Z) (lines : list str) : bool :=
  match lines with
  | [] => (depth =? 0)%Z
  | ln :: rest =>
      let t := Str.trim ln in
      if counts r ln then
        if Fmt.closes r t then
          (1 <=? depth)%Z && lines_balanced_from r (depth - 1 + Fmt.opens r t) rest
        else lines_balanced_from r (depth + Fmt.opens r t) rest
      else lines_balanced_from r depth rest
  end.

Definition lines_balanced (r : Fmt.Rules) (lines : list str) : bool :=
  lines_balanced_from r 0 lines.

(** Whether a text has a run of three newlines. *)
Fixpoint has_triple_newline (s : str) : bool :=
  match s with
  | a :: ((b :: c :: _) as s') =>
      (Str.ceq a Str.nl && Str.ceq b Str.nl && Str.ceq c Str.nl)
      || has_triple_newline s'
  | _ => false
  end.

(** A text that is laid out: a body followed by one newline, with no run
    of three newlines, where the body neither begins nor ends with a
    newline.  The body may be empty: the text is then the newline alone. *)
Definition laid_out (s : str) : Prop :=
  exists b : str,
    s = b ++ [Str.nl]
    /\ has_triple_newline s = false
    /\ Str.startsWith b [Str.nl] = false
    /\ Str.endsWith b [Str.nl] = false.


(** The newline character written as a one-character text. *)
Definition NL : str := [Str.nl].

(** A warning that is none of the three the base [validateSyntax] can add. *)
Definition not_from_base (w : Warning) : Prop :=
  message w <> L "Large file detected - some validations skipped for performance"
  /\ message w <> L "Mismatched brackets detected"
  /\ message w <> L "Potential undefined values detected".

(** A text of 5001 lines, all empty. *)
Definition five_thousand_newlines : str := Str.repeat NL 5000.

(** ** What a match says about the text

    [reach r s s1]: the pattern [r] can take the matcher from state [s] to
    state [s1].  It is the declarative reading of [Regex.m], used to take
    a successful match apart. *)

Inductive star (R : Regex.st -> Regex.st -> Prop) : Regex.st -> Regex.st -> Prop :=
| star_refl : forall s, star R s s
| star_step : forall s s1 s2, R s s1 -> star R s1 s2 -> star R s s2.

Fixpoint reach (r : Regex.re) (s s1 : Regex.st) : Prop :=
  match r with
  | Regex.RSet neg items =>
      exists c, Regex.step1 s = Some (c, s1) /\ Regex.in_set neg items c = true
  | Regex.RDot =>
      exists c, Regex.step1 s = Some (c, s1) /\ Regex.is_lt c = false
  | Regex.REps => s1 = s
  | Regex.RSeq a b => exists s2, reach a s s2 /\ reach b s2 s1
  | Regex.RAlt a b => reach a s s1 \/ reach b s s1
  | Regex.RQuant _ _ _ a => star (reach a) s s1
  | Regex.RGroup n a =>
      exists s2, reach a s s2
        /\ s1 = Regex.mkSt (Regex.pre s2) (Regex.rest s2)
                  ((n, Regex.consumed s s2) :: Regex.caps s2)
  | Regex.RBol ml =>
      s1 = s /\ match Regex.pre s with
                | [] => True
                | c :: _ => ml && Regex.is_lt c = true
                end
  | Regex.REol ml =>
      s1 = s /\ match Regex.rest s with
                | [] => True
                | c :: _ => ml && Regex.is_lt c = true
                end
  | Regex.RWordB => s1 = s
  | Regex.RLook _ _ =>
      Regex.pre s1 = Regex.pre s /\ Regex.rest s1 = Regex.rest s
  | Regex.RBackref n =>
      match Regex.cap_lookup n (Regex.caps s) with
      | None => s1 = s
      | Some txt => Regex.eat txt s = Some s1
      end
  end.

(** The text between two states of one run: [s1] is [s] advanced over it. *)
Definition advanced (s s1 : Regex.st) (txt : str) : Prop :=
  Regex.pre s1 = rev txt ++ Regex.pre s /\ Regex.rest s = txt ++ Regex.rest s1.

(** Runs of newlines, read left to right: [run_scan run s] tells whether a
    run reaches three when [run] newlines come just before [s], and
    [run_after run s] is the length of the run [s] ends with. *)
Fixpoint run_scan (run : nat) (s : str) : bool :=
  match s with
  | [] => false
  | c :: s' =>
      if Str.ceq c Str.nl then
        if 2 <=? run then true else run_scan (S run) s'
      else run_scan 0 s'
  end.

Fixpoint run_after (run : nat) (s : str) : nat :=
  match s with
  | [] => run
  | c :: s' => if Str.ceq c Str.nl then run_after (S run) s' else run_after 0 s'
  end.

(** A text without a newline. *)
Definition one_line (s : str) : Prop := Forall (fun c => Str.ceq c Str.nl = false) s.

(** A replacement the layout survives: the match and what replaces it
    share a prefix, after which the match goes on to a character that is
    not a newline and the replacement is a non-empty text of one line. *)
Definition keeps_layout (M N : str) : Prop :=
  exists W M' N' : str,
    M = W ++ M' /\ N = W ++ N'
    /\ M' <> [] /\ Str.endsWith M' [Str.nl] = false
    /\ N' <> [] /\ one_line N'.

(** A text that does not begin with white space. *)
Definition starts_solid (s : str) : Prop :=
  match s with [] => True | c :: _ => Str.is_ws c = false end.

(** A text that does not end with white space. *)
Definition ends_solid (s : str) : Prop := starts_solid (rev s).


(** A block whose braces the loop recognises. *)
Definition small_block : str := L "fun f() {" ++ NL ++ L "g()" ++ NL ++ L "}".

(** A text of white space only. *)
Definition all_ws (s : str) : bool := forallb Str.is_ws s.



(** How [extractCommentsWithContext] reads one source line: as a full-line
    comment, as code with an inline comment, or as plain code ([None]). *)
Definition comment_kind (c : Converter) (ln : str) : option CommentKind :=
  if negb (Str.truthy ln) then None
  else if This.isFullLineComment c (Str.trim ln) then Some fullLine
  else if This.hasInlineComment c ln then Some inline
  else None.



Definition is_comment_node (n : Node) : bool := NodeType_eqb (type n) Comment.

Definition is_empty_line_node (n : Node) : bool := NodeType_eqb (type n) EmptyLine.


(** The clean line [extractCommentsWithContext] keeps for a source line. *)
Definition clean_line (c : Converter) (ln : str) : str :=
  match comment_kind c ln with
  | None => ln
  | Some fullLine => []
  | Some inline => fst (This.splitInlineComment c ln)
  end.

Definition is_full_kind (k : option CommentKind) : bool :=
  match k with Some fullLine => true | _ => false end.




(** ** The other exports of the orchestrator's module *)

Module Supported.

(** An element of [SUPPORTED_LANGUAGES]. *)
Record Language : Type := mkLanguage {
  value : str;
  label : str;
  extension : str
}.

(** An element of the list [getSupportedConversions] returns. *)
Record Conversion : Type := mkConversion {
  from : str;
  to : str;
  fromLabel : str;
  toLabel : str
}.

End Supported.

Definition SUPPORTED_LANGUAGES : list Supported.Language :=
  [ Supported.mkLanguage (L "javascript") (L "JavaScript") (L "js");
    Supported.mkLanguage (L "python") (L "Python") (L "py");
    Supported.mkLanguage (L "java") (L "Java") (L "java");
    Supported.mkLanguage (L "typescript") (L "TypeScript") (L "ts");
    Supported.mkLanguage (L "csharp") (L "C#") (L "cs");
    Supported.mkLanguage (L "cpp") (L "C++") (L "cpp");
    Supported.mkLanguage (L "php") (L "PHP") (L "php");
    Supported.mkLanguage (L "go") (L "Go") (L "go");
    Supported.mkLanguage (L "rust") (L "Rust") (L "rs");
    Supported.mkLanguage (L "kotlin") (L "Kotlin") (L "kt") ].

(** [getSupportedConversions()]: the two nested loops over
    [SUPPORTED_LANGUAGES]. *)
Definition getSupportedConversions : list Supported.Conversion :=
  flat_map
    (fun from =>
       flat_map
         (fun to =>
            if negb (Str.eqb (Supported.value from) (Supported.value to))
            then [Supported.mkConversion (Supported.value from) (Supported.value to)
                    (Supported.label from) (Supported.label to)]
            else [])
         SUPPORTED_LANGUAGES)
    SUPPORTED_LANGUAGES.

(** [isConversionSupported(fromLang, toLang)]: the value of
    [CONVERTERS[fromLang] && CONVERTERS[toLang] && fromLang !== toLang],
    which is [undefined] ([None]) when a lookup is, and the comparison
    otherwise, the values [CONVERTERS] holds or inherits being truthy. *)
Definition isConversionSupported (fromLang toLang : str) : option bool :=
  match CONVERTERS fromLang, CONVERTERS toLang with
  | Undefined, _ | _, Undefined => None
  | _, _ => Some (negb (Str.eqb fromLang toLang))
  end.

(** The result of [isConversionSupported] used as a condition. *)
Definition truthy_answer (v : option bool) : bool :=
  match v with Some b => b | None => false end.

(** [getLanguageInfo(langCode)]; [None] is the [undefined] of [find]. *)
Definition getLanguageInfo (langCode : str) : option Supported.Language :=
  find (fun lang => Str.eqb (Supported.value lang) langCode) SUPPORTED_LANGUAGES.

(** The ordered pairs of distinct converter classes. *)
Definition distinct_pairs : list (Lang * Lang) :=
  filter (fun p => negb (Str.eqb (tag (fst p)) (tag (snd p))))
         (list_prod all_langs all_langs).

(** The entry of [SUPPORTED_LANGUAGES] of a converter class. *)
Definition info_of (l : Lang) : Supported.Language :=
  nth (match l with
       | javascript => 0 | python => 1 | java => 2 | typescript => 3
       | csharp => 4 | cpp => 5 | php => 6 | go => 7 | rust => 8 | kotlin => 9
       end) SUPPORTED_LANGUAGES (Supported.mkLanguage [] [] []).

(** A node that [createAST] counts into [metadata.complexity]. *)
Definition is_definition_node (n : Node) : bool :=
  NodeType_eqb (type n) FunctionDefinition || NodeType_eqb (type n) ClassDefinition.

(** A node without what [restoreCommentsToAST] stores of a comment: the
    text and indentation of a Comment node and the inline comment
    attached to a node of code. *)
Definition forget_comment_text (n : Node) : Node :=
  mkNode (type n) (originalLine n) (line n) (indent n) (context n) (name n)
         (parameters n) (body n) (isArrow n) (extends n) (value n)
         (declarationType n) (subtype n) (condition n) None
         None None (returnType n) (dataType n)
         (inheritance n) (implements n) (structType n) (definition n)
         (isMutable n) (isConst n).

Definition forget_comments (ast : Program) : Program :=
  mkProgram (map forget_comment_text (prog_body ast)) (sourceLanguage ast)
            (originalCode ast) (metadata ast).

(** A text that is empty or begins with a character other than a
    newline. *)
Definition solid_start (tl : str) : Prop :=
  tl = [] \/ exists c tl', tl = c :: tl' /\ Str.ceq c Str.nl = false.

(** Two statements on two lines, as nodes without structured fields. *)
Definition two_statements : Program :=
  mkProgram [line_node Expression (L "foo()") 1 0 None;
             line_node Expression (L "bar()") 2 0 None]
            (L "JavaScript") (L "foo()" ++ [Str.nl] ++ L "bar()") None.

(** ** The utility methods of the base class *)

Module Utility.

(** [getIndentation(level)] *)
Definition getIndentation (level : nat) : str := Str.repeat (L "    ") level.

(** What a call that spreads an array gives: its value, or the
    [RangeError] the engine throws when the array has more elements than
    a call may have arguments. *)
Inductive Spread (A : Type) : Type :=
| Value (a : A)
| RangeError.

Arguments Value {A} a.
Arguments RangeError {A}.

Section Engine.

(** The number of arguments the engine accepts in one call.  The language
    fixes no number; what follows holds for each. *)
Variable maxArguments : nat.

(** The least of the numbers; [None] is [Infinity], the minimum of no
    number. *)
Definition least (xs : list nat) : option nat :=
  match xs with
  | [] => None
  | x :: xs' => Some (fold_left Nat.min xs' x)
  end.

(** [Math.min(...xs)]: a call with one argument for each element. *)
Definition min_of (xs : list nat) : Spread (option nat) :=
  if maxArguments <? length xs then RangeError else Value (least xs).

(** [line.slice(minIndent)]; past the end, and so for [Infinity], the
    slice is empty. *)
Definition slice_from (n : option nat) (s : str) : str :=
  match n with
  | Some k => skipn k s
  | None => []
  end.

(** The lines the filter of [normalizeIndentation] keeps. *)
Definition with_text (lines : list str) : list str :=
  filter (fun l => Str.truthy (Str.trim l)) lines.

(** The [minIndent] of [normalizeIndentation]. *)
Definition minIndent (lines : list str) : Spread (option nat) :=
  min_of (map leading (with_text lines)).

(** [normalizeIndentation(code)] *)
Definition normalizeIndentation (code : str) : Spread str :=
  let lines := Str.lines code in
  match lines with
  | [] => Value code
  | _ =>
      match minIndent lines with
      | Value m => Value (Str.unlines (map (slice_from m) lines))
      | RangeError => RangeError
      end
  end.

End Engine.

End Utility.

(** The shape of a line the indentation loop pushes: empty, or a number
    of indentation units followed by a trimmed text that the loop does
    not skip. *)
Definition line_shape (r : Fmt.Rules) (ln : str) : Prop :=
  ln = []
  \/ exists k t, ln = Str.repeat (Fmt.unit r) k ++ t
                 /\ t <> [] /\ Str.trim t = t /\ Fmt.skips r t = false.

(** A source line for which the loop of [convertPythonToJS] pushes a
    block on its stack: a line of code that ends with a colon and begins
    with one of the block keywords. *)
Definition opens_block (l : str) : bool :=
  let t := Str.trim l in
  Str.truthy t && negb (Str.startsWith t (L "#")) && Str.endsWith t (L ":")
  && match Python.getBlockType t with Some _ => true | None => false end.

(** A line that is a closing brace and nothing else. *)
Definition is_closer (x : str) : bool := Str.eqb (Str.trim x) (L "}").

Definition count_lines (p : str -> bool) (ls : list str) : nat := length (filter p ls).

(** ** The conversion handlers of the application component

    The state cells of [App] that the handlers read and write, as one
    record; a handler is the state it leaves when it has run to its end
    with no other update in between.  The timers that later clear the
    success message are left out. *)

Module App.

Record State : Type := mkState {
  sourceCode : str;
  convertedCode : str;
  fromLanguage : str;
  toLanguage : str;
  isConverting : bool;
  error : str;
  warnings : list Warning;
  successMessage : str
}.

(** [isConvertDisabled] *)
Definition isConvertDisabled (st : State) : bool :=
  isConverting st || negb (Str.truthy (Str.trim (sourceCode st)))
  || Str.eqb (fromLanguage st) (toLanguage st).

Definition with_error (st : State) (e : str) : State :=
  mkState (sourceCode st) (convertedCode st) (fromLanguage st) (toLanguage st)
          (isConverting st) e (warnings st) (successMessage st).

(** [err.message || 'An unexpected error occurred during conversion'] *)
Definition shown_message (msg : str) : str :=
  if Str.truthy msg then msg
  else L "An unexpected error occurred during conversion".

(** [handleConvert] *)
Definition handleConvert (st : State) : State :=
  if negb (Str.truthy (Str.trim (sourceCode st))) then
    with_error st (L "Please enter some code to convert")
  else if Str.eqb (fromLanguage st) (toLanguage st) then
    with_error st (L "Please select different source and target languages")
  else
    match outcome (convertCode (sourceCode st) (fromLanguage st) (toLanguage st)) with
    | Returned code ws =>
        mkState (sourceCode st) code (fromLanguage st) (toLanguage st)
                false [] ws (L "Code converted successfully!")
    | Raised msg =>
        mkState (sourceCode st) [] (fromLanguage st) (toLanguage st)
                false (shown_message msg) [] []
    end.

(** [swapLanguages] *)
Definition swapLanguages (st : State) : State :=
  if negb (Str.truthy (convertedCode st)) then st
  else mkState (convertedCode st) (sourceCode st) (toLanguage st) (fromLanguage st)
               (isConverting st) [] [] (successMessage st).

(** [clearAll] *)
Definition clearAll (st : State) : State :=
  mkState [] [] (fromLanguage st) (toLanguage st) (isConverting st) [] [] [].

End App.

(** A state of the application with a line of JavaScript to convert. *)
Definition ready_state : App.State :=
  App.mkState (L "let a = 1;") [] (L "javascript") (L "kotlin") false [] [] [].

(** The comment [extractCommentsWithContext] records for the line [ln]
    at index [j], if it records one. *)
Definition recorded_comment (c : Converter) (j : nat) (ln : str) : option CommentRec :=
  match comment_kind c ln with
  | None => None
  | Some fullLine =>
      Some (mkComment fullLine (Str.trim ln) j (Some (leading ln)) None)
  | Some inline =>
      Some (mkComment inline (snd (This.splitInlineComment c ln)) j None
              (Some (Str.trim (fst (This.splitInlineComment c ln)))))
  end.

(** The two quote characters of the JavaScript string-literal pattern. *)
Definition is_quote (c : ascii) : bool := Str.ceq c "'" || Str.ceq c (Str.ch 34).

(** A text without a quote character. *)
Definition no_quote (s : str) : bool := forallb (fun c => negb (is_quote c)) s.

(** ** Views of the Python converter's line loop *)

(** A line the loop of [convertPythonToJS] translates: one with text that
    is not a comment. *)
Definition python_code_line (ln : str) : bool :=
  Str.truthy (Str.trim ln) && negb (Str.startsWith (Str.trim ln) (L "#")).

(** What the loop pushes for a source line: the translation of its
    trimmed text under the indentation of the line, or the line itself
    when it is blank or a comment. *)
Definition translated_line (ln : str) : str :=
  if python_code_line ln
  then Python.addIndent (Python.convertPythonLineToJS (Str.trim ln)) (Python.getIndentLevel ln)
  else ln.

(** A line that is not a lone closing brace. *)
Definition not_closer_line (x : str) : bool := negb (is_closer x).

(** A Python function and a call of it. *)
Definition def_and_call : str :=
  L "def f(x):" ++ NL ++ L "    return x" ++ NL ++ L "print(f(1))".

(** ** Views of the braces of a text *)






(** ** Views of the indentation loop *)








(** * Properties *)

(** ** Strings *)

Lemma ceq_refl (c : ascii) : Str.ceq c c = true.
Proof. apply Ascii.eqb_refl. Qed.

Lemma ceq_eq (a b : ascii) : Str.ceq a b = true -> a = b.
Proof. apply Ascii.eqb_eq. Qed.

Lemma eqb_refl (s : str) : Str.eqb s s = true.
Proof.
  induction s as [|c s IH]; simpl; [reflexivity|].
  now rewrite ceq_refl, IH.
Qed.

Lemma eqb_eq (a b : str) : Str.eqb a b = true -> a = b.
Proof.
  revert b; induction a as [|x a IH]; intros [|y b]; simpl; try discriminate; auto.
  intros H. apply andb_prop in H as [H1 H2].
  apply ceq_eq in H1. apply IH in H2. now subst.
Qed.

(** ** The orchestrator's guard *)

(** Blank source, equal tags, or a tag [CONVERTERS] has no value for: the
    call raises with no stage started. *)
Lemma convertCode_guard (sourceCode fromLang toLang : str) :
  Str.trim sourceCode = [] \/ fromLang = toLang
  \/ CONVERTERS fromLang = Undefined \/ CONVERTERS toLang = Undefined ->
  exists msg, convertCode sourceCode fromLang toLang = mkRun (Raised msg) [].
Proof.
  intros H. unfold convertCode.
  destruct (Str.truthy (Str.trim sourceCode)) eqn:Et; simpl; [|eauto].
  destruct (Str.eqb fromLang toLang) eqn:Ee; [eauto|].
  destruct H as [H|[H|[H|H]]].
  - rewrite H in Et. discriminate.
  - subst. rewrite eqb_refl in Ee. discriminate.
  - rewrite H. eauto.
  - rewrite H. destruct (CONVERTERS fromLang); eauto.
Qed.

(** C1, at a tag outside the ten that the guard lets through.
    [convertCode("x = 1", "javascript", "toString")]: the lookup of the
    target tag finds the member every object inherits, the guard does not
    fire, the source is parsed, and only then the call fails, with the
    wrapped [TypeError] instead of the message for an unsupported pair. *)
Theorem convertCode_inherited_tag :
  CONVERTERS (L "toString") = Inherited (L "toString")
  /\ convertCode (L "x = 1") (L "javascript") (L "toString")
     = mkRun (Raised (L "Conversion failed: toConverter is not a constructor"))
             [ParseStage].
Proof. split; vm_compute; reflexivity. Qed.

(** ** Inline comments of JavaScript lines *)

(** C5, at a line with a marker inside a literal and a comment after it.
    [hasInlineComment] finds the comment outside the literal, and
    [splitInlineComment] cuts at the first marker, the one inside the
    literal: the code kept is the text up to the middle of the literal. *)
Theorem splitInlineComment_cuts_inside_literal :
  JavaScript.hasInlineComment (L "var u = 'http://x'; // note") = true
  /\ JavaScript.splitInlineComment (L "var u = 'http://x'; // note")
     = (L "var u = 'http:", L "//x'; // note").
Proof. split; vm_compute; reflexivity. Qed.

(** ** Validation of large inputs *)

Lemma each_line_Forall (P : Warning -> Prop) (f : nat -> str -> list Warning) :
  (forall i l, Forall P (f i l)) ->
  forall lines i, Forall P (each_line f i lines).
Proof.
  intros Hf lines; induction lines as [|l rest IH]; intros i; simpl.
  - constructor.
  - apply Forall_app; split; [apply Hf | apply IH].
Qed.

Lemma line_warning_not_from_base (lang : str) (i : nat) (text : string) :
  not_from_base (line_warning lang i text).
Proof. repeat split; cbn; discriminate. Qed.

Lemma base_validateSyntax_large (lang code : str) :
  5000 < length (Str.lines code) ->
  Base.validateSyntax lang code = [Base.large_file_warning lang].
Proof.
  intros H. unfold Base.validateSyntax.
  apply Nat.ltb_lt in H. now rewrite H.
Qed.

Lemma javascript_validate_lines_Forall (lines : list str) (i : nat) :
  Forall not_from_base (fst (JavaScript.validate_lines i lines)).
Proof.
  revert i; induction lines as [|l rest IH]; intros i; simpl.
  - constructor.
  - specialize (IH (S i)).
    destruct (JavaScript.validate_lines (S i) rest) as [ws bc]; simpl in *.
    destruct (negb (Str.truthy l)); [exact IH|].
    destruct (_ || _); [exact IH|]. simpl.
    repeat (apply Forall_app; split); try exact IH.
    + destruct (_ && _); [|constructor].
      constructor; [apply line_warning_not_from_base | constructor].
    + destruct (_ && _); [|constructor].
      constructor; [apply line_warning_not_from_base | constructor].
Qed.

(** C8 as stated fails for a subclass that overrides [validateSyntax]:
    on 5001 empty lines the Java converter records the large-file warning
    and then its own warning about the missing class. *)
Lemma validateSyntax_java_large_two_warnings :
  5000 < length (Str.lines five_thousand_newlines)
  /\ This.validateSyntax (converter_of java) five_thousand_newlines
     = [Base.large_file_warning (L "Java");
        mkWarning (L "Java code should contain at least one class") None (L "Java")].
Proof.
  split.
  - apply Nat.ltb_lt. vm_compute. reflexivity.
  - vm_compute. reflexivity.
Qed.

(** C8, amended.  Beyond 5000 lines the base [validateSyntax] skips its
    bracket and [undefined] checks and adds exactly the large-file warning.
    Every converter's [validateSyntax] then starts with that warning and
    holds it once; what a subclass override adds after it comes from the
    override's own pass, and the Python converter, which does not override
    the method, adds nothing. *)
Theorem validateSyntax_large_file (l : Lang) (code : str) :
  5000 < length (Str.lines code) ->
  Base.validateSyntax (This.languageName (converter_of l)) code
  = [Base.large_file_warning (This.languageName (converter_of l))]
  /\ This.validateSyntax (converter_of python) code
     = [Base.large_file_warning (L "Python")]
  /\ exists extra : list Warning,
       This.validateSyntax (converter_of l) code
       = Base.large_file_warning (This.languageName (converter_of l)) :: extra
       /\ Forall not_from_base extra.
Proof.
  intros H.
  pose proof (fun lang => base_validateSyntax_large lang code H) as HB.
  split; [apply HB|]. split; [apply HB|].
  destruct l; simpl.
  - (* javascript *)
    unfold JavaScript.validateSyntax.
    destruct (Str.truthy code) eqn:Et; simpl.
    + pose proof (javascript_validate_lines_Forall (Str.lines code) 0) as HF.
      destruct (JavaScript.validate_lines 0 (Str.lines code)) as [ws bc]; simpl in HF.
      rewrite HB. simpl. eexists; split; [reflexivity|].
      apply Forall_app; split; [exact HF|].
      destruct (negb _); repeat constructor; cbn; discriminate.
    + destruct code; [simpl in H; lia | discriminate].
  - (* python *)
    rewrite HB. eexists; split; [reflexivity | constructor].
  - (* java *)
    unfold Java.validateSyntax. rewrite HB. simpl.
    eexists; split; [reflexivity|].
    apply Forall_app; split;
      (destruct (negb _); repeat constructor; cbn; discriminate).
  - (* typescript *)
    unfold TypeScript.validateSyntax. rewrite HB. simpl.
    eexists; split; [reflexivity|].
    apply each_line_Forall. intros i0 l0.
    destruct (_ && _); repeat constructor; cbn; discriminate.
  - (* csharp *)
    unfold CSharp.validateSyntax. rewrite HB. simpl.
    eexists; split; [reflexivity|].
    destruct (negb _); repeat constructor; cbn; discriminate.
  - (* cpp *)
    unfold Cpp.validateSyntax. rewrite HB. simpl.
    eexists; split; [reflexivity|].
    destruct (negb _); repeat constructor; cbn; discriminate.
  - (* php *)
    unfold Php.validateSyntax. rewrite HB. simpl.
    eexists; split; [reflexivity|].
    apply Forall_app; split.
    + apply each_line_Forall. intros i0 l0.
      destruct (_ && _); repeat constructor; cbn; discriminate.
    + destruct (negb _); repeat constructor; cbn; discriminate.
  - (* go *)
    unfold Go.validateSyntax. rewrite HB. simpl.
    eexists; split; [reflexivity|].
    destruct (negb _); repeat constructor; cbn; discriminate.
  - (* rust *)
    unfold Rust.validateSyntax. rewrite HB. simpl.
    eexists; split; [reflexivity|].
    apply each_line_Forall. intros i0 l0.
    destruct (_ && _); repeat constructor; cbn; discriminate.
  - (* kotlin *)
    unfold Kotlin.validateSyntax. rewrite HB. simpl.
    eexists; split; [reflexivity|].
    apply each_line_Forall. intros i0 l0.
    destruct (_ && _); repeat constructor; cbn; discriminate.
Qed.

(** The amended C8 at the 5001 empty lines, for the Java converter. *)
Lemma validateSyntax_large_file_witness :
  Base.validateSyntax (L "Java") five_thousand_newlines
  = [Base.large_file_warning (L "Java")]
  /\ This.validateSyntax (converter_of python) five_thousand_newlines
     = [Base.large_file_warning (L "Python")]
  /\ exists extra : list Warning,
       This.validateSyntax (converter_of java) five_thousand_newlines
       = Base.large_file_warning (L "Java") :: extra
       /\ Forall not_from_base extra.
Proof.
  apply (validateSyntax_large_file java five_thousand_newlines).
  apply Nat.ltb_lt. vm_compute. reflexivity.
Defined.

(** ** Formatters on nodes that carry only their text *)

Lemma truthy_nonempty (s : str) : s <> [] -> Str.truthy s = true.
Proof. destruct s; [congruence | reflexivity]. Qed.

Lemma original_or_populated (node : Node) (s : str) (other : option str) :
  originalLine node = Some s -> s <> [] -> original_or node other = Some s.
Proof.
  intros H Hs. unfold original_or. rewrite H. simpl.
  now rewrite (truthy_nonempty Hs).
Qed.

Lemma formatExpression_semicolon_populated (extra : str -> bool) (node : Node) (s : str) :
  originalLine node = Some s -> s <> [] ->
  formatExpression_semicolon extra node = Some (Str.trim s)
  \/ formatExpression_semicolon extra node = Some (Str.trim s ++ L ";").
Proof.
  intros H Hs. unfold formatExpression_semicolon. rewrite H. simpl.
  rewrite (truthy_nonempty Hs). simpl.
  destruct (_ && _); auto.
Qed.

(** C2 as stated fails for [formatExpression]: the Java converter, handed
    an Expression node that carries only the text [foo()], returns the text
    with a semicolon appended. *)
Lemma formatExpression_java_appends_semicolon :
  originalLine (line_node Expression (L "foo()") 1 0 None) = Some (L "foo()")
  /\ This.formatExpression (converter_of java)
       (line_node Expression (L "foo()") 1 0 None)
     = Some (L "foo();")
  /\ L "foo();" <> L "foo()".
Proof. repeat split; try (vm_compute; reflexivity). vm_compute. discriminate. Qed.

(** C2, amended.  On a node whose [originalLine] is populated:
    [formatClassDefinition], [formatVariableAssignment] and
    [formatImportExport] of every converter return that text unchanged;
    so does [formatFunctionDefinition], except that the JavaScript and the
    Python converter rewrite a line of the form [def ...:], and so does
    [formatControlFlow], except that the Python converter rewrites a line
    of the form [if ...:] or [for ...:].  [formatExpression] returns the
    text unchanged for TypeScript, trimmed for Go and Kotlin, and trimmed
    with at most one semicolon appended for JavaScript, Java, C#, C++, PHP
    and Rust; the Python converter translates the line. *)
Theorem formatters_keep_original_text (l : Lang) (node : Node) (s : str) :
  originalLine node = Some s -> s <> [] ->
  let c := converter_of l in
  let t := Str.trim s in
  This.formatClassDefinition c node = Some s
  /\ This.formatVariableAssignment c node = Some s
  /\ This.formatImportExport c node = Some s
  /\ match l with
     | javascript | python =>
         Str.startsWith t (L "def ") && Str.endsWith t (L ":") = true
         \/ This.formatFunctionDefinition c node = Some s
     | _ => This.formatFunctionDefinition c node = Some s
     end
  /\ match l with
     | python =>
         (Str.startsWith t (L "if ") || Str.startsWith t (L "for "))
         && Str.endsWith t (L ":") = true
         \/ This.formatControlFlow c node = Some s
     | _ => This.formatControlFlow c node = Some s
     end
  /\ match l with
     | typescript => This.formatExpression c node = Some s
     | go | kotlin => This.formatExpression c node = Some t
     | python => True
     | _ => This.formatExpression c node = Some t
            \/ This.formatExpression c node = Some (t ++ L ";")
     end.
Proof.
  intros H Hs c t.
  pose proof (fun o => original_or_populated node o H Hs) as HO.
  pose proof (truthy_nonempty Hs) as Ht.
  assert (HB : Base.formatOriginal node = Some s).
  { unfold Base.formatOriginal. now rewrite H. }
  assert (HE : Go.formatExpression node = Some t /\ Kotlin.formatExpression node = Some t).
  { unfold Go.formatExpression, Kotlin.formatExpression. rewrite H. simpl.
    rewrite Ht. simpl. auto. }
  destruct HE as [HG HK].
  subst c; destruct l; simpl;
    repeat match goal with |- _ /\ _ => split end;
    try apply HO; try exact HB; try exact HG; try exact HK; try exact I;
    try (apply formatExpression_semicolon_populated; assumption).
  - (* JavaScript.formatFunctionDefinition *)
    unfold JavaScript.formatFunctionDefinition. rewrite H. simpl. rewrite Ht.
    fold t. match goal with |- ?b = true \/ _ => destruct b end; auto.
  - (* Python.formatFunctionDefinition *)
    unfold Python.formatFunctionDefinition. rewrite H. simpl. rewrite Ht.
    fold t. match goal with |- ?b = true \/ _ => destruct b end; auto.
  - (* Python.formatControlFlow *)
    unfold Python.formatControlFlow. rewrite H. simpl. rewrite Ht. fold t.
    repeat match goal with
           | |- context [Str.startsWith t ?p] => destruct (Str.startsWith t p)
           | |- context [Str.endsWith t ?p] => destruct (Str.endsWith t p)
           end; simpl; auto.
Qed.

(** The amended C2 at the node of the counterexample: every formatter of
    the Java converter but [formatExpression] returns [foo()] as it is. *)
Lemma formatters_keep_original_text_witness :
  This.formatClassDefinition (converter_of java)
    (line_node Expression (L "foo()") 1 0 None) = Some (L "foo()")
  /\ This.formatFunctionDefinition (converter_of java)
       (line_node Expression (L "foo()") 1 0 None) = Some (L "foo()").
Proof.
  pose proof (@formatters_keep_original_text java
                (line_node Expression (L "foo()") 1 0 None) (L "foo()")
                eq_refl ltac:(discriminate)) as H.
  destruct H as (H1 & _ & _ & H4 & _).
  split; [exact H1 | exact H4].
Defined.

(** ** The closing replacements of [formatCode] *)

Lemma triple_cons_other (c : ascii) (s : str) :
  Str.ceq c Str.nl = false -> has_triple_newline (c :: s) = has_triple_newline s.
Proof.
  intros H. destruct s as [|b [|d s]]; simpl; try reflexivity.
  now rewrite H.
Qed.

Lemma triple_tail (c : ascii) (s : str) :
  has_triple_newline (c :: s) = false -> has_triple_newline s = false.
Proof.
  destruct s as [|b [|d s]]; simpl; try reflexivity.
  intros H. apply orb_false_elim in H. apply H.
Qed.

Lemma triple_prefix (a b : str) :
  has_triple_newline (a ++ b) = false -> has_triple_newline a = false.
Proof.
  induction a as [|x a IH]; intros H; [reflexivity|].
  destruct a as [|y [|z a]]; try reflexivity.
  simpl in H. apply orb_false_elim in H as [H1 H2].
  change (has_triple_newline (x :: y :: z :: a))
    with ((Str.ceq x Str.nl && Str.ceq y Str.nl && Str.ceq z Str.nl)
          || has_triple_newline (y :: z :: a)).
  rewrite H1. simpl. apply IH. exact H2.
Qed.

Lemma triple_suffix (a b : str) :
  has_triple_newline (a ++ b) = false -> has_triple_newline b = false.
Proof.
  induction a as [|x a IH]; intros H; [exact H|].
  apply IH. exact (triple_tail _ _ H).
Qed.

Lemma endsWith_cons (x y : ascii) (b : str) :
  Str.endsWith (x :: y :: b) [Str.nl] = Str.endsWith (y :: b) [Str.nl].
Proof.
  unfold Str.endsWith. simpl rev.
  destruct (rev b ++ [y]) as [|h t] eqn:E.
  - destruct (rev b); discriminate.
  - simpl. destruct t; reflexivity.
Qed.

Lemma endsWith_single (x : ascii) :
  Str.endsWith [x] [Str.nl] = Str.ceq Str.nl x.
Proof. unfold Str.endsWith. simpl. now rewrite andb_true_r. Qed.

Lemma ceq_sym (a b : ascii) : Str.ceq a b = Str.ceq b a.
Proof. apply Ascii.eqb_sym. Qed.

Lemma triple_snoc (b : str) :
  has_triple_newline b = false -> Str.endsWith b [Str.nl] = false ->
  has_triple_newline (b ++ [Str.nl]) = false.
Proof.
  induction b as [|x b IH]; intros H E; [reflexivity|].
  destruct b as [|y [|z b]].
  - reflexivity.
  - rewrite endsWith_cons, endsWith_single in E.
    simpl. rewrite (ceq_sym y Str.nl), E. now rewrite andb_false_r.
  - rewrite endsWith_cons in E.
    change (has_triple_newline (x :: y :: z :: b))
      with ((Str.ceq x Str.nl && Str.ceq y Str.nl && Str.ceq z Str.nl)
            || has_triple_newline (y :: z :: b)) in H.
    apply orb_false_elim in H as [H1 H2].
    change (has_triple_newline ((x :: y :: z :: b) ++ [Str.nl]))
      with ((Str.ceq x Str.nl && Str.ceq y Str.nl && Str.ceq z Str.nl)
            || has_triple_newline ((y :: z :: b) ++ [Str.nl])).
    rewrite H1. simpl orb. apply IH; assumption.
Qed.

Lemma triple_unfold (a b c : ascii) (r : str) :
  has_triple_newline (a :: b :: c :: r)
  = (Str.ceq a Str.nl && Str.ceq b Str.nl && Str.ceq c Str.nl)
    || has_triple_newline (b :: c :: r).
Proof. reflexivity. Qed.

Lemma triple_after_short_run (k : nat) (c : ascii) (rest : str) :
  k <= 2 -> Str.ceq c Str.nl = false ->
  has_triple_newline (List.repeat Str.nl k ++ c :: rest) = has_triple_newline rest.
Proof.
  intros Hk Ec.
  assert (H1 : has_triple_newline (Str.nl :: c :: rest) = has_triple_newline rest).
  { destruct rest as [|d r]; [reflexivity|].
    rewrite triple_unfold, Ec, andb_false_r. rewrite orb_false_l.
    now apply triple_cons_other. }
  destruct k as [|[|[|k]]]; try lia; simpl List.repeat; simpl app.
  - now apply triple_cons_other.
  - exact H1.
  - rewrite triple_unfold, Ec, andb_false_r. rewrite orb_false_l. exact H1.
Qed.

Lemma repeat_nl_shift (k : nat) (t : str) :
  List.repeat Str.nl k ++ Str.nl :: t = List.repeat Str.nl (S k) ++ t.
Proof. induction k; simpl; [reflexivity|]. now rewrite IHk. Qed.

Lemma collapse_from_no_triple (s : str) (run : nat) :
  has_triple_newline (List.repeat Str.nl (Nat.min run 2) ++ Fmt.collapse_from run s) = false.
Proof.
  revert run; induction s as [|c s IH]; intros run.
  - destruct run as [|[|[|run]]]; reflexivity.
  - simpl Fmt.collapse_from.
    destruct (Str.ceq c Str.nl) eqn:Ec.
    + apply ceq_eq in Ec; subst c.
      destruct (run <? 2) eqn:Er.
      * apply Nat.ltb_lt in Er.
        specialize (IH (S run)).
        replace (Nat.min (S run) 2) with (S (Nat.min run 2)) in IH by lia.
        replace (Nat.min run 2) with run in * by lia.
        rewrite repeat_nl_shift. exact IH.
      * apply Nat.ltb_ge in Er.
        specialize (IH (S run)).
        replace (Nat.min (S run) 2) with 2 in IH by lia.
        replace (Nat.min run 2) with 2 by lia. exact IH.
    + specialize (IH 0). simpl in IH.
      rewrite triple_after_short_run; [exact IH | lia | exact Ec].
Qed.

Lemma collapse_no_triple (s : str) : has_triple_newline (Fmt.collapse s) = false.
Proof. exact (collapse_from_no_triple s 0). Qed.

Lemma strip_leading_split (s : str) :
  exists k, s = List.repeat Str.nl k ++ Fmt.strip_leading s.
Proof.
  induction s as [|c s [k IH]]; [exists 0; reflexivity|].
  simpl. destruct (Str.ceq c Str.nl) eqn:Ec.
  - apply ceq_eq in Ec; subst c. exists (S k). simpl. now rewrite <- IH.
  - exists 0. reflexivity.
Qed.

Lemma strip_leading_head (s : str) :
  Str.startsWith (Fmt.strip_leading s) [Str.nl] = false.
Proof.
  induction s as [|c s IH]; [reflexivity|].
  simpl. destruct (Str.ceq c Str.nl) eqn:Ec; [exact IH|].
  simpl. rewrite ceq_sym, Ec. reflexivity.
Qed.

Lemma strip_leading_no_triple (s : str) :
  has_triple_newline s = false -> has_triple_newline (Fmt.strip_leading s) = false.
Proof.
  intros H. destruct (strip_leading_split s) as [k E].
  rewrite E in H. exact (triple_suffix _ _ H).
Qed.

Lemma startsWith_nil (s : str) : Str.startsWith s [] = true.
Proof. destruct s; reflexivity. Qed.

Lemma startsWith_one (x c : ascii) (s : str) :
  Str.startsWith (x :: s) [c] = Str.ceq c x.
Proof. simpl. now rewrite startsWith_nil, andb_true_r. Qed.

Lemma startsWith_prefix (a b : str) :
  Str.startsWith (a ++ b) [Str.nl] = false -> Str.startsWith a [Str.nl] = false.
Proof.
  destruct a as [|x a]; [reflexivity|].
  simpl app. now rewrite !startsWith_one.
Qed.

(** The text [one_trailing] builds is laid out whenever its argument has
    no run of three newlines and no leading one. *)
Lemma one_trailing_laid_out (s : str) :
  has_triple_newline s = false -> Str.startsWith s [Str.nl] = false ->
  laid_out (Fmt.one_trailing s).
Proof.
  intros H3 Hh. unfold Fmt.one_trailing.
  set (b := rev (Fmt.strip_leading (rev s))).
  assert (Es : exists k, s = b ++ List.repeat Str.nl k).
  { destruct (strip_leading_split (rev s)) as [k E]. exists k.
    rewrite <- (rev_involutive s), E, rev_app_distr. subst b.
    f_equal. clear. induction k; [reflexivity|].
    simpl. rewrite IHk, (repeat_nl_shift k []). simpl. now rewrite app_nil_r. }
  destruct Es as [k Es].
  assert (Hb3 : has_triple_newline b = false).
  { rewrite Es in H3. exact (triple_prefix _ _ H3). }
  assert (Hbe : Str.endsWith b [Str.nl] = false).
  { unfold Str.endsWith. subst b. rewrite rev_involutive. apply strip_leading_head. }
  exists b. repeat split.
  - apply triple_snoc; assumption.
  - rewrite Es in Hh. exact (startsWith_prefix _ _ Hh).
  - exact Hbe.
Qed.

Lemma finish_laid_out (s : str) : laid_out (Fmt.finish s).
Proof.
  unfold Fmt.finish. apply one_trailing_laid_out.
  - apply strip_leading_no_triple, collapse_no_triple.
  - apply strip_leading_head.
Qed.

(** ** Soundness of the matcher *)

Section MatcherSoundness.

Import Regex.

Lemma quant_loop_sound (ma : (st -> option st) -> st -> option st)
      (R : st -> st -> Prop) (greedy : bool) (lo : nat) (hi : option nat)
      (k : st -> option st) :
  (forall k' s res, ma k' s = Some res -> exists s1, R s s1 /\ k' s1 = Some res) ->
  forall fuel cnt s0 res,
    quant_loop ma greedy lo hi k fuel cnt s0 = Some res ->
    exists s1, star R s0 s1 /\ k s1 = Some res.
Proof.
  intros Hma. induction fuel as [|fuel IH]; intros cnt s0 res H; simpl in H.
  - assert (Hstop : (if lo <=? cnt then k s0 else None) = Some res).
    { destruct (below cnt hi).
      + match type of H with context [ma ?k' s0] =>
          destruct (ma k' s0) as [x|] eqn:E end.
        * apply Hma in E as (s1 & _ & E). destruct (_ && _); discriminate.
        * destruct greedy; simpl in H; [exact H|].
          destruct (if lo <=? cnt then k s0 else None); [exact H | discriminate].
      + destruct greedy; simpl in H; [exact H|].
        destruct (if lo <=? cnt then k s0 else None); [exact H | discriminate]. }
    exists s0. split; [constructor|].
    destruct (lo <=? cnt); [exact Hstop | discriminate].
  - set (k' := fun s1 : st =>
                 if (lo <=? cnt) && (length (rest s1) =? length (rest s0))
                 then None else quant_loop ma greedy lo hi k fuel (S cnt) s1) in H.
    assert (Hiter : forall x, ma k' s0 = Some x ->
                      exists s1, star R s0 s1 /\ k s1 = Some x).
    { intros x E. apply Hma in E as (s1 & HR & E). unfold k' in E.
      destruct (_ && _); [discriminate|].
      apply IH in E as (s2 & Hs & E). exists s2. split; [|exact E].
      econstructor; eassumption. }
    assert (Hstop : forall x, (if lo <=? cnt then k s0 else None) = Some x ->
                      exists s1, star R s0 s1 /\ k s1 = Some x).
    { intros x E. exists s0. split; [constructor|].
      destruct (lo <=? cnt); [exact E | discriminate]. }
    destruct (below cnt hi).
    + destruct greedy; unfold orelse in H.
      * destruct (ma k' s0) eqn:E; [inversion H; subst; now apply Hiter | now apply Hstop].
      * destruct (if lo <=? cnt then k s0 else None) eqn:E;
          [inversion H; subst; now apply Hstop | now apply Hiter].
    + destruct greedy; unfold orelse in H.
      * now apply Hstop.
      * destruct (if lo <=? cnt then k s0 else None) eqn:E;
          [inversion H; subst; now apply Hstop | discriminate].
Qed.

(** A successful run of the matcher passes through a state that the
    pattern reaches and from which the continuation succeeds. *)
Lemma m_sound (r : re) :
  forall k s res, m r k s = Some res -> exists s1, reach r s s1 /\ k s1 = Some res.
Proof.
  induction r as [neg items| | |a IHa b IHb|a IHa b IHb|g lo hi a IHa|n a IHa
                  |ml|ml| |neg a IHa|n]; intros k s res H; simpl in H.
  - destruct (step1 s) as [[c s']|] eqn:E; [|discriminate].
    destruct (in_set neg items c) eqn:Ei; [|discriminate].
    exists s'. split; [exists c; auto | exact H].
  - destruct (step1 s) as [[c s']|] eqn:E; [|discriminate].
    destruct (is_lt c) eqn:Ei; [discriminate|].
    exists s'. split; [exists c; auto | exact H].
  - exists s. split; [reflexivity | exact H].
  - apply IHa in H as (s2 & Ha & H). apply IHb in H as (s1 & Hb & H).
    exists s1. split; [exists s2; auto | exact H].
  - unfold orelse in H. destruct (m a k s) eqn:E.
    + inversion H; subst. apply IHa in E as (s1 & Ha & E). exists s1. simpl. auto.
    + apply IHb in H as (s1 & Hb & H). exists s1. simpl. auto.
  - eapply quant_loop_sound in H; [exact H | exact IHa].
  - apply IHa in H as (s2 & Ha & H). eexists. split; [|exact H].
    exists s2. split; [exact Ha | reflexivity].
  - destruct (pre s) as [|c p] eqn:E.
    + exists s. simpl. rewrite E. auto.
    + destruct (ml && is_lt c) eqn:Ec; [|discriminate].
      exists s. simpl. rewrite E. auto.
  - destruct (rest s) as [|c p] eqn:E.
    + exists s. simpl. rewrite E. auto.
    + destruct (ml && is_lt c) eqn:Ec; [|discriminate].
      exists s. simpl. rewrite E. auto.
  - destruct (at_word_boundary s); [|discriminate]. exists s. simpl. auto.
  - destruct (m a (fun s1 => Some s1) s) as [s1|] eqn:E.
    + destruct neg; [discriminate|]. eexists. split; [|exact H]. simpl. auto.
    + destruct neg; [|discriminate]. exists s. simpl. auto.
  - simpl. destruct (cap_lookup n (caps s)) as [txt|] eqn:E.
    + destruct (eat txt s) as [s1|] eqn:Ee; [|discriminate].
      exists s1. auto.
    + exists s. auto.
Qed.

End MatcherSoundness.

(** ** The text a match consumes *)

Section MatcherText.

Import Regex.

Lemma advanced_refl (s : st) : advanced s s [].
Proof. split; reflexivity. Qed.

Lemma advanced_trans (s s2 s1 : st) (t1 t2 : str) :
  advanced s s2 t1 -> advanced s2 s1 t2 -> advanced s s1 (t1 ++ t2).
Proof.
  intros [P1 R1] [P2 R2]. split.
  - now rewrite P2, P1, rev_app_distr, app_assoc.
  - now rewrite R1, R2, app_assoc.
Qed.

Lemma step1_advanced (s s1 : st) (c : ascii) :
  step1 s = Some (c, s1) -> advanced s s1 [c] /\ caps s1 = caps s.
Proof.
  unfold step1. destruct (rest s) as [|x r] eqn:E; [discriminate|].
  intros H; inversion H; subst; clear H. repeat split; simpl; auto.
Qed.

Lemma eat_advanced (txt : str) :
  forall s s1, eat txt s = Some s1 -> advanced s s1 txt.
Proof.
  induction txt as [|x txt IH]; intros s s1 H; simpl in H.
  - inversion H; subst. apply advanced_refl.
  - destruct (step1 s) as [[c s']|] eqn:E; [|discriminate].
    destruct (Str.ceq x c) eqn:Ec; [|discriminate].
    apply ceq_eq in Ec; subst c.
    apply step1_advanced in E as [E _]. apply IH in H.
    exact (advanced_trans E H).
Qed.

Lemma reach_advanced (r : re) :
  forall s s1, reach r s s1 -> exists txt, advanced s s1 txt.
Proof.
  induction r as [neg items| | |a IHa b IHb|a IHa b IHb|g lo hi a IHa|n a IHa
                  |ml|ml| |neg a IHa|n]; intros s s1 H; simpl in H.
  - destruct H as (c & H & _). exists [c]. now apply step1_advanced in H.
  - destruct H as (c & H & _). exists [c]. now apply step1_advanced in H.
  - subst. exists []. apply advanced_refl.
  - destruct H as (s2 & Ha & Hb).
    apply IHa in Ha as [t1 Ha]. apply IHb in Hb as [t2 Hb].
    exists (t1 ++ t2). exact (advanced_trans Ha Hb).
  - destruct H as [H|H]; [now apply IHa | now apply IHb].
  - induction H as [s|s s2 s1 H1 _ [t2 IH]].
    + exists []. apply advanced_refl.
    + apply IHa in H1 as [t1 H1]. exists (t1 ++ t2). exact (advanced_trans H1 IH).
  - destruct H as (s2 & Ha & ->). apply IHa in Ha as [t Ha].
    exists t. exact Ha.
  - destruct H as [-> _]. exists []. apply advanced_refl.
  - destruct H as [-> _]. exists []. apply advanced_refl.
  - subst. exists []. apply advanced_refl.
  - destruct H as [P R]. exists []. split; simpl; congruence.
  - destruct (cap_lookup n (caps s)) as [txt|].
    + exists txt. now apply eat_advanced.
    + subst. exists []. apply advanced_refl.
Qed.

Lemma advanced_consumed (s s1 : st) (txt : str) :
  advanced s s1 txt -> consumed s s1 = txt.
Proof.
  intros [P _]. unfold consumed. rewrite P, length_app, length_rev.
  replace (length txt + length (pre s) - length (pre s)) with (length (rev txt))
    by (rewrite length_rev; lia).
  now rewrite firstn_app, Nat.sub_diag, firstn_all, app_nil_r, rev_involutive.
Qed.

(** What [search] returns: the input from the position of the search is
    the skipped text, the matched text and the rest, and the pattern
    reaches the final state from the state at the start of the match. *)
Lemma search_sound (r : re) :
  forall rst p f,
    search r p rst = Some f ->
    exists sk s1,
      rst = sk ++ matched f ++ after f
      /\ before_rev f = rev sk ++ p
      /\ skipped p f = sk
      /\ groups f = caps s1
      /\ after f = rest s1
      /\ reach r (mkSt (rev sk ++ p) (matched f ++ after f) []) s1
      /\ advanced (mkSt (rev sk ++ p) (matched f ++ after f) []) s1 (matched f).
Proof.
  induction rst as [|c rst IH]; intros p f H; simpl in H.
  - destruct (match_here r p []) as [s1|] eqn:E; [|discriminate].
    inversion H; subst; clear H. unfold match_here in E.
    apply m_sound in E as (s2 & Hr & E). inversion E; subst; clear E.
    destruct (reach_advanced _ _ _ Hr) as [txt Ha].
    pose proof (advanced_consumed Ha) as Hc. unfold consumed in Hc. simpl in Hc.
    pose proof Ha as [_ HR]. simpl in HR.
    exists [], s1. unfold mk_found, skipped. simpl.
    rewrite Hc, Nat.sub_diag. simpl. rewrite <- HR.
    repeat split; auto; apply Ha.
  - destruct (match_here r p (c :: rst)) as [s1|] eqn:E.
    + inversion H; subst; clear H. unfold match_here in E.
      apply m_sound in E as (s2 & Hr & E). inversion E; subst; clear E.
      destruct (reach_advanced _ _ _ Hr) as [txt Ha].
      pose proof (advanced_consumed Ha) as Hc. unfold consumed in Hc. simpl in Hc.
      pose proof Ha as [_ HR]. simpl in HR.
      exists [], s1. unfold mk_found, skipped. simpl.
      rewrite Hc, Nat.sub_diag. simpl. rewrite <- HR.
      repeat split; auto; apply Ha.
    + apply IH in H as (sk & s1 & H1 & H2 & H3 & H4 & H5 & H6 & H7).
      exists (c :: sk), s1.
      assert (Ep : rev (c :: sk) ++ p = rev sk ++ c :: p).
      { simpl. now rewrite <- app_assoc. }
      rewrite Ep. repeat split; auto.
      * simpl. now rewrite <- H1.
      * unfold skipped in *. rewrite H2.
        rewrite length_app, length_rev. simpl.
        replace (length sk + S (length p) - length p) with (length (rev (c :: sk)))
          by (rewrite length_rev; simpl; lia).
        replace (rev sk ++ c :: p) with (rev (c :: sk) ++ p) by exact Ep.
        now rewrite firstn_app, Nat.sub_diag, firstn_all, app_nil_r, rev_involutive.
      * apply H7.
      * apply H7.
Qed.

End MatcherText.

(** ** Runs of newlines *)

Lemma run_scan_triple (s : str) (run : nat) :
  run <= 2 ->
  run_scan run s = has_triple_newline (List.repeat Str.nl run ++ s).
Proof.
  revert run; induction s as [|c s IH]; intros run Hr.
  - rewrite app_nil_r. destruct run as [|[|[|run]]]; try lia; reflexivity.
  - simpl run_scan. destruct (Str.ceq c Str.nl) eqn:Ec.
    + apply ceq_eq in Ec; subst c.
      destruct run as [|[|[|run]]]; try lia; cbn [Nat.leb].
      * rewrite IH by lia. reflexivity.
      * rewrite IH by lia. reflexivity.
      * symmetry. cbn [List.repeat app]. rewrite triple_unfold. now rewrite !ceq_refl.
    + rewrite (IH 0) by lia. simpl app.
      now rewrite triple_after_short_run.
Qed.

Lemma has_triple_scan (s : str) : has_triple_newline s = run_scan 0 s.
Proof. now rewrite run_scan_triple by lia. Qed.

Lemma run_scan_app (a b : str) (run : nat) :
  run_scan run (a ++ b) = run_scan run a || run_scan (run_after run a) b.
Proof.
  revert run; induction a as [|c a IH]; intros run; simpl; [reflexivity|].
  destruct (Str.ceq c Str.nl).
  - match goal with |- context [if ?t then true else _] => destruct t end;
      [reflexivity | apply IH].
  - apply IH.
Qed.

Lemma run_after_app (a b : str) (run : nat) :
  run_after run (a ++ b) = run_after (run_after run a) b.
Proof.
  revert run; induction a as [|c a IH]; intros run; simpl; [reflexivity|].
  destruct (Str.ceq c Str.nl); apply IH.
Qed.

Lemma one_line_scan (s : str) (run : nat) : one_line s -> run_scan run s = false.
Proof.
  intros H; revert run; induction H as [|c s Hc _ IH]; intros run; simpl;
    [reflexivity|]. now rewrite Hc.
Qed.

Lemma one_line_after (s : str) (run : nat) :
  one_line s -> s <> [] -> run_after run s = 0.
Proof.
  intros H; revert run; induction H as [|c s Hc Hs IH]; intros run Hn;
    [congruence|].
  simpl. rewrite Hc. destruct s as [|d s]; [reflexivity|].
  apply IH. discriminate.
Qed.

Lemma endsWith_snoc (s : str) (c : ascii) :
  Str.endsWith (s ++ [c]) [Str.nl] = Str.ceq Str.nl c.
Proof.
  unfold Str.endsWith. rewrite rev_app_distr. simpl rev. simpl app.
  apply startsWith_one.
Qed.

Lemma run_after_snoc (s : str) (c : ascii) (run : nat) :
  Str.ceq c Str.nl = false -> run_after run (s ++ [c]) = 0.
Proof. intros H. rewrite run_after_app. simpl. now rewrite H. Qed.

Lemma run_after_other_end (s : str) (run : nat) :
  s <> [] -> Str.endsWith s [Str.nl] = false -> run_after run s = 0.
Proof.
  intros Hn He. destruct (exists_last Hn) as (s0 & c & ->).
  rewrite endsWith_snoc, ceq_sym in He. now apply run_after_snoc.
Qed.

(** ** Replacements that keep a text laid out *)

Lemma one_line_last (s : str) (c : ascii) :
  one_line (s ++ [c]) -> Str.ceq c Str.nl = false.
Proof.
  intros H. apply Forall_app in H as [_ H]. now inversion H.
Qed.

Lemma laid_out_swap (A M N B : str) :
  laid_out (A ++ M ++ B) -> keeps_layout M N -> laid_out (A ++ N ++ B).
Proof.
  intros (b & Eb & H3 & Hs & He) (W & M' & N' & -> & -> & HM1 & HM2 & HN1 & HN2).
  assert (EA : forall X, A ++ (W ++ X) ++ B = (A ++ W) ++ X ++ B).
  { intros X. now rewrite <- !app_assoc. }
  rewrite EA in *. set (A' := A ++ W) in *. clearbody A'. clear EA A W.
  destruct (exists_last HM1) as (M0 & c & ->).
  rewrite endsWith_snoc in HM2.
  assert (HcM : Str.ceq c Str.nl = false) by now rewrite ceq_sym.
  destruct (exists_last HN1) as (N0 & n & EN).
  assert (Hn : Str.ceq n Str.nl = false).
  { rewrite EN in HN2. exact (one_line_last _ _ HN2). }
  (* the text after the match ends with the final newline *)
  assert (HB : exists B0, B = B0 ++ [Str.nl] /\ b = A' ++ (M0 ++ [c]) ++ B0).
  { destruct B as [|x B] using rev_ind.
    - rewrite app_nil_r, app_assoc in Eb. apply app_inj_tail in Eb as [_ Eb].
      subst c. now rewrite ceq_refl in HcM.
    - clear IHB. rewrite !app_assoc in Eb. apply app_inj_tail in Eb as [Eb ->].
      exists B. split; [reflexivity|]. now rewrite <- Eb, <- !app_assoc. }
  destruct HB as (B0 & -> & ->).
  exists (A' ++ N' ++ B0). repeat split.
  - now rewrite <- !app_assoc.
  - rewrite has_triple_scan in *.
    rewrite !run_scan_app in H3. rewrite !run_scan_app.
    apply orb_false_elim in H3 as [HA H3].
    apply orb_false_elim in H3 as [_ H3].
    rewrite HA, (one_line_scan _ HN2). simpl orb.
    rewrite (one_line_after _ HN2 HN1).
    rewrite run_after_snoc in H3 by exact HcM. exact H3.
  - destruct A' as [|x A'].
    + simpl app. rewrite EN. destruct N0; simpl app; rewrite startsWith_one.
      * now rewrite ceq_sym.
      * rewrite EN in HN2. inversion HN2; subst. now rewrite ceq_sym.
    + simpl app in *. now rewrite startsWith_one in *.
  - destruct B0 as [|d B0] using rev_ind.
    + rewrite app_nil_r, EN, app_assoc, endsWith_snoc. now rewrite ceq_sym.
    + clear IHB0. rewrite !app_assoc in He. rewrite endsWith_snoc in He.
      now rewrite !app_assoc, endsWith_snoc.
Qed.

Section ReplaceLayout.

Import Regex.

Variable r : re.
Variable fn : found -> str.

(** Every match the search can find is replaced in a way the layout
    survives. *)
Hypothesis every_match :
  forall p rst f, search r p rst = Some f -> keeps_layout (matched f) (fn f).

Lemma keeps_layout_nonempty (M N : str) : keeps_layout M N -> M <> [].
Proof.
  intros (W & M' & N' & -> & _ & H & _). destruct W; [exact H | discriminate].
Qed.

Lemma replace_loop_laid_out (fuel : nat) :
  forall (out p rst : str),
    laid_out (out ++ rst) -> laid_out (out ++ replace_loop r fn fuel p rst).
Proof.
  induction fuel as [|fuel IH]; intros out p rst H; simpl; [exact H|].
  destruct (search r p rst) as [f|] eqn:E; [|exact H].
  pose proof (every_match _ _ E) as Hk.
  destruct (search_sound _ _ _ E) as (sk & s1 & E1 & _ & E3 & _).
  rewrite E3.
  pose proof (keeps_layout_nonempty Hk) as Hne.
  destruct (matched f) as [|x mt] eqn:Em; [congruence|]. rewrite <- Em in *.
  rewrite E1 in H.
  replace (out ++ sk ++ matched f ++ after f)
    with ((out ++ sk) ++ matched f ++ after f) in H by now rewrite <- app_assoc.
  pose proof (@laid_out_swap (out ++ sk) (matched f) (fn f) (after f) H Hk) as H'.
  replace ((out ++ sk) ++ fn f ++ after f)
    with ((out ++ sk ++ fn f) ++ after f) in H' by now rewrite <- !app_assoc.
  apply (IH _ (rev (matched f) ++ before_rev f)) in H'.
  now rewrite <- !app_assoc in H'.
Qed.

Lemma replace_all_fn_laid_out (s : str) :
  laid_out s -> laid_out (replace_all_fn r fn s).
Proof. intros H. exact (replace_loop_laid_out _ [] [] s H). Qed.

End ReplaceLayout.

(** ** Taking a match apart *)

Section MatchParts.

Import Regex.

Lemma reach_set (neg : bool) (items : list citem) (s s1 : st) :
  reach (RSet neg items) s s1 ->
  exists c, rest s = [c] ++ rest s1 /\ caps s1 = caps s
            /\ in_set neg items c = true.
Proof.
  intros (c & H & Hi). exists c.
  apply step1_advanced in H as [[_ H] Hc]. auto.
Qed.

Lemma star_set (neg : bool) (items : list citem) (s s1 : st) :
  star (reach (RSet neg items)) s s1 ->
  exists txt, rest s = txt ++ rest s1 /\ caps s1 = caps s
              /\ Forall (fun c => in_set neg items c = true) txt.
Proof.
  induction 1 as [s|s s2 s1 H1 _ (txt & E & Hc & Hf)].
  - exists []. auto.
  - apply reach_set in H1 as (c & E1 & Hc1 & Hi).
    exists (c :: txt). repeat split.
    + rewrite E1, E. reflexivity.
    + congruence.
    + constructor; assumption.
Qed.

Lemma in_set_char (x c : ascii) : in_set false [IChar x] c = true -> c = x.
Proof.
  unfold in_set. simpl. rewrite orb_false_r. intros H. now apply ceq_eq in H.
Qed.

Lemma advanced_rest (s s1 : st) (t1 t2 : str) :
  rest s = t1 ++ rest s1 -> rest s = t2 ++ rest s1 -> t1 = t2.
Proof. intros H1 H2. rewrite H1 in H2. now apply app_inv_tail in H2. Qed.

End MatchParts.

Section ReachSteps.

Import Regex.

Lemma reach_seq (a b : re) (s s1 : st) :
  reach (RSeq a b) s s1 -> exists s2, reach a s s2 /\ reach b s2 s1.
Proof. exact (fun H => H). Qed.

Lemma reach_alt (a b : re) (s s1 : st) :
  reach (RAlt a b) s s1 -> reach a s s1 \/ reach b s s1.
Proof. exact (fun H => H). Qed.

Lemma reach_group (n : nat) (a : re) (s s1 : st) :
  reach (RGroup n a) s s1 ->
  exists s2 txt, reach a s s2 /\ rest s = txt ++ rest s2
                 /\ rest s1 = rest s2 /\ caps s1 = (n, txt) :: caps s2.
Proof.
  intros (s2 & Ha & ->).
  destruct (reach_advanced _ _ _ Ha) as [txt Hadv].
  exists s2, txt. rewrite (advanced_consumed Hadv).
  repeat split; auto. apply Hadv.
Qed.

Lemma reach_quant_set (g : bool) (lo : nat) (hi : option nat) (neg : bool)
      (items : list citem) (s s1 : st) :
  reach (RQuant g lo hi (RSet neg items)) s s1 ->
  exists txt, rest s = txt ++ rest s1 /\ caps s1 = caps s
              /\ Forall (fun c => in_set neg items c = true) txt.
Proof. apply star_set. Qed.

Lemma reach_char (x : ascii) (s s1 : st) :
  reach (RSet false [IChar x]) s s1 ->
  rest s = [x] ++ rest s1 /\ caps s1 = caps s.
Proof.
  intros H. apply reach_set in H as (c & E & Hc & Hi).
  apply in_set_char in Hi. subst c. auto.
Qed.

Lemma reach_bol (ml : bool) (s s1 : st) : reach (RBol ml) s s1 -> s1 = s.
Proof. now intros [-> _]. Qed.

Lemma reach_eol (ml : bool) (s s1 : st) : reach (REol ml) s s1 -> s1 = s.
Proof. now intros [-> _]. Qed.

End ReachSteps.

(** Takes the [reach] hypotheses of the context apart, down to equations
    between the remaining inputs and the captures of the states passed. *)
Ltac reach_apart :=
  repeat match goal with
    | H : reach (Regex.RSeq _ _) _ _ |- _ =>
        apply reach_seq in H; destruct H as (? & ? & ?)
    | H : reach (Regex.RAlt _ _) _ _ |- _ =>
        apply reach_alt in H; destruct H as [?|?]
    | H : reach (Regex.RGroup _ _) _ _ |- _ =>
        apply reach_group in H; destruct H as (? & ? & ? & ? & ? & ?)
    | H : reach (Regex.RQuant _ _ _ (Regex.RSet _ _)) _ _ |- _ =>
        apply reach_quant_set in H; destruct H as (? & ? & ? & ?)
    | H : reach (Regex.RSet false [Regex.IChar _]) _ _ |- _ =>
        apply reach_char in H; destruct H as (? & ?)
    | H : reach (Regex.RBol _) _ _ |- _ => apply reach_bol in H; subst
    | H : reach (Regex.REol _) _ _ |- _ => apply reach_eol in H; subst
    end.

(** Rewrites the equations [reach_apart] leaves until the matched text is
    given as the concatenation of its parts. *)
Ltac state_elim :=
  simpl Regex.rest in *; simpl Regex.caps in *;
  repeat match goal with
    | H : Regex.rest ?b = _ |- _ => is_var b; try rewrite H in *; clear H
    | H : Regex.caps ?b = _ |- _ => is_var b; try rewrite H in *; clear H
    | H : ?l = Regex.rest ?b |- _ =>
        is_var b; lazymatch l with Regex.rest _ => fail | _ => symmetry in H end
    end;
  repeat match goal with
    | H : _ ++ ?t = _ ++ ?t |- _ => apply app_inv_tail in H
    | H : _ ++ ?t = _ |- _ =>
        progress (repeat rewrite app_assoc in H); apply app_inv_tail in H
    end.

(** From a successful search for the pattern constant [r]: the parts of
    the matched text and the captures. *)
Ltac take_apart E r :=
  let sk := fresh "sk" in let s1 := fresh "s1" in
  let E1 := fresh "E1" in let Eg := fresh "Eg" in let Ea := fresh "Ea" in
  let Hr := fresh "Hr" in let Hadv := fresh "Hadv" in
  destruct (search_sound _ _ _ E) as (sk & s1 & E1 & _ & _ & Eg & Ea & Hr & [_ Hadv]);
  simpl in Hadv; clear Hadv;
  let r' := fresh "r" in let Er := fresh "Er" in
  pose (r' := r); assert (Er : r = r') by reflexivity;
  vm_compute in r'; rewrite Er in Hr; subst r'; clear Er E1;
  reach_apart; state_elim.

(** Evaluates the replacement of a match whose captures are known. *)
Ltac expand_template Eg :=
  unfold Regex.expand;
  match goal with
  | |- context [Regex.template ?t] =>
      let tt := fresh "tt" in
      set (tt := Regex.template t); vm_compute in tt; subst tt
  end;
  cbn [map Regex.expand1 concat]; unfold Regex.group; try rewrite Eg;
  cbn [Regex.cap_lookup Nat.eqb app].

Ltac one_line_text := repeat constructor; reflexivity.

Lemma word_one_line (txt : str) :
  Forall (fun c => Regex.in_set false [Regex.IWord] c = true) txt -> one_line txt.
Proof.
  apply Forall_impl. intros c H.
  destruct (Str.ceq c Str.nl) eqn:E; [|reflexivity].
  apply ceq_eq in E. subst c. vm_compute in H. discriminate.
Qed.

Lemma one_line_app (a b : str) : one_line a -> one_line b -> one_line (a ++ b).
Proof. intros Ha Hb. apply Forall_app. auto. Qed.

(** ** The restoring replacements of the Rust converter *)

Lemma scope_back_keeps p rst f :
  Regex.search Rust.re_scope_back p rst = Some f ->
  keeps_layout (Regex.matched f) (Regex.expand (Regex.template (L "::")) f).
Proof.
  intros E. take_apart E Rust.re_scope_back. expand_template Eg.
  exists [], (Regex.matched f), (L "::").
  repeat split; try discriminate.
  - rewrite H; discriminate.
  - rewrite H. apply endsWith_snoc.
  - one_line_text.
Qed.

Lemma debug_fmt_back_keeps p rst f :
  Regex.search Rust.re_debug_fmt_back p rst = Some f ->
  keeps_layout (Regex.matched f) (Regex.expand (Regex.template (L "{:?}")) f).
Proof.
  intros E. take_apart E Rust.re_debug_fmt_back. expand_template Eg.
  exists [], (Regex.matched f), (L "{:?}").
  repeat split; try discriminate.
  - rewrite H; discriminate.
  - rewrite H. apply endsWith_snoc.
  - one_line_text.
Qed.

Lemma macro_back_keeps p rst f :
  Regex.search Rust.re_macro_back p rst = Some f ->
  keeps_layout (Regex.matched f) (Regex.expand (Regex.template (L "$1")) f).
Proof.
  intros E. take_apart E Rust.re_macro_back; expand_template Eg;
    match goal with
    | Hx : ?x = _, Hm : Regex.matched f = _ |- _ =>
        exists [], (Regex.matched f), x; rewrite app_nil_r;
        repeat split; try (rewrite Hm; discriminate);
        try (rewrite Hm; apply endsWith_snoc);
        try (rewrite Hx; discriminate);
        try (rewrite Hx; one_line_text)
    end.
Qed.

Lemma fmt_back_keeps p rst f :
  Regex.search Rust.re_fmt_back p rst = Some f ->
  keeps_layout (Regex.matched f) (Regex.expand (Regex.template (L "{:$1}")) f).
Proof.
  intros E. take_apart E Rust.re_fmt_back. expand_template Eg.
  subst.
  match goal with
  | Hw : Forall _ ?x |- _ =>
      exists [], (Regex.matched f), (L "{:" ++ x ++ L "}")
  end.
  repeat split; try discriminate.
  - rewrite H; discriminate.
  - rewrite H. apply endsWith_snoc.
  - repeat apply one_line_app; try one_line_text. now apply word_one_line.
Qed.

Lemma header_semi_keeps p rst f :
  Regex.search Rust.re_header_semi p rst = Some f ->
  keeps_layout (Regex.matched f) (Regex.expand (Regex.template (L "$1$2")) f).
Proof.
  intros E. take_apart E Rust.re_header_semi; expand_template Eg;
    match goal with
    | Hk : ?k = _ ++ [_],
      Hm : Regex.matched f = (((((?w ++ ?k) ++ ?a) ++ ?b) ++ ?c) ++ ?d) ++ ?e,
      Hg : Regex.groups f = [(2, ?k); (1, ?w)] |- _ =>
        exists w, (((((k ++ a) ++ b) ++ c) ++ d) ++ e), k;
        rewrite app_nil_r;
        repeat split;
        [ rewrite Hm; now rewrite <- !app_assoc
        | destruct k; [discriminate Hk | discriminate]
        | apply endsWith_snoc
        | rewrite Hk; discriminate
        | rewrite Hk; one_line_text ]
    end.
Qed.

Lemma brace_semi_keeps p rst f :
  Regex.search Rust.re_brace_semi p rst = Some f ->
  keeps_layout (Regex.matched f) (Regex.expand (Regex.template (L "$1}")) f).
Proof.
  intros E. take_apart E Rust.re_brace_semi. expand_template Eg.
  match goal with
  | Hm : Regex.matched f = ((?w ++ ?b) ++ ?a) ++ ?e,
    Hg : Regex.groups f = [(1, ?w)] |- _ =>
      exists w, ((b ++ a) ++ e), b;
      repeat split;
      [ rewrite Hm; now rewrite <- !app_assoc
      | discriminate
      | apply endsWith_snoc
      | discriminate
      | one_line_text ]
  end.
Qed.

(** The restoring replacements and clean-ups keep a laid-out text laid
    out. *)
Lemma rust_restore_laid_out (s : str) : laid_out s -> laid_out (Rust.restore s).
Proof.
  intros H. unfold Rust.restore, Regex.replace_all.
  apply replace_all_fn_laid_out; [exact brace_semi_keeps|].
  apply replace_all_fn_laid_out; [exact header_semi_keeps|].
  apply replace_all_fn_laid_out; [exact fmt_back_keeps|].
  apply replace_all_fn_laid_out; [exact debug_fmt_back_keeps|].
  apply replace_all_fn_laid_out; [exact macro_back_keeps|].
  apply replace_all_fn_laid_out; [exact scope_back_keeps|].
  exact H.
Qed.

(** ** Trimming *)

Lemma trimStart_suffix (s : str) : exists a, s = a ++ Str.trimStart s.
Proof.
  induction s as [|c s [a IH]]; [exists []; reflexivity|].
  simpl. destruct (Str.is_ws c).
  - exists (c :: a). simpl. now rewrite <- IH.
  - exists []. reflexivity.
Qed.

Lemma trimEnd_prefix (s : str) : exists a, s = Str.trimEnd s ++ a.
Proof.
  unfold Str.trimEnd. destruct (trimStart_suffix (rev s)) as [a E].
  exists (rev a). rewrite <- rev_app_distr, <- E. now rewrite rev_involutive.
Qed.

Lemma trimStart_solid (s : str) : starts_solid (Str.trimStart s).
Proof.
  induction s as [|c s IH]; simpl; [exact I|].
  destruct (Str.is_ws c) eqn:E; [exact IH | exact E].
Qed.

Lemma trimStart_fix (s : str) : starts_solid s -> Str.trimStart s = s.
Proof. destruct s as [|c s]; simpl; [reflexivity|]. now intros ->. Qed.

Lemma trimEnd_solid (s : str) : ends_solid (Str.trimEnd s).
Proof. unfold ends_solid, Str.trimEnd. rewrite rev_involutive. apply trimStart_solid. Qed.

Lemma trimEnd_fix (s : str) : ends_solid s -> Str.trimEnd s = s.
Proof.
  unfold ends_solid, Str.trimEnd. intros H.
  now rewrite trimStart_fix, rev_involutive.
Qed.

Lemma starts_solid_prefix (a b : str) :
  starts_solid (a ++ b) -> starts_solid a.
Proof. destruct a; [intros; exact I | exact (fun H => H)]. Qed.

Lemma trim_starts_solid (s : str) : starts_solid (Str.trim s).
Proof.
  unfold Str.trim. destruct (trimEnd_prefix (Str.trimStart s)) as [a E].
  pose proof (trimStart_solid s) as H. rewrite E in H.
  exact (starts_solid_prefix _ _ H).
Qed.

Lemma trim_ends_solid (s : str) : ends_solid (Str.trim s).
Proof. apply trimEnd_solid. Qed.

Lemma trim_fix (s : str) : starts_solid s -> ends_solid s -> Str.trim s = s.
Proof.
  intros H1 H2. unfold Str.trim. rewrite (trimStart_fix _ H1). now apply trimEnd_fix.
Qed.

Lemma trim_idempotent (s : str) : Str.trim (Str.trim s) = Str.trim s.
Proof. apply trim_fix; [apply trim_starts_solid | apply trim_ends_solid]. Qed.

Lemma trim_parts (s : str) : exists a b, s = a ++ Str.trim s ++ b.
Proof.
  destruct (trimStart_suffix s) as [a Ea].
  destruct (trimEnd_prefix (Str.trimStart s)) as [b Eb].
  exists a, b. unfold Str.trim. now rewrite <- Eb.
Qed.


(** ** The layout [formatCode] returns *)

Lemma layout_laid_out (r : Fmt.Rules) (p : str) : laid_out (Fmt.layout r p).
Proof. apply finish_laid_out. Qed.

(** On a non-empty input every [formatCode] but JavaScript's returns a
    laid-out text. *)
Lemma formatCode_others_laid_out (l : Lang) (code : str) :
  l <> javascript -> code <> [] -> laid_out (formatCode l code).
Proof.
  intros Hl Hc. pose proof (truthy_nonempty Hc) as Ht.
  destruct l; try congruence; unfold formatCode; simpl This.formatCode;
    match goal with
    | |- laid_out (?f code) => unfold f
    end; rewrite Ht; simpl negb; cbv iota;
    try apply layout_laid_out.
  apply rust_restore_laid_out, layout_laid_out.
Qed.

Lemma formatCode_javascript_trimmed (code : str) :
  Str.trim (formatCode javascript code) = formatCode javascript code.
Proof.
  unfold formatCode. simpl This.formatCode. unfold JavaScript.formatCode.
  destruct (negb (Str.truthy code)); [reflexivity|]. apply trim_idempotent.
Qed.

Lemma laid_out_not_trimmed (s : str) : laid_out s -> Str.trim s <> s.
Proof.
  intros (b & E & _) H. pose proof (trim_ends_solid s) as Hs.
  rewrite H, E in Hs. unfold ends_solid in Hs. rewrite rev_app_distr in Hs.
  cbn [rev app starts_solid] in Hs. vm_compute in Hs. discriminate Hs.
Qed.

(** C7 fails for the JavaScript converter, and only for it.  Its class
    body declares [formatCode] twice.  The first declaration ends, like
    the [formatCode] of the nine other converters, with the replacement
    that leaves one newline at the end; the second, which is the one in
    effect, ends with [trim].  So for every input the JavaScript
    [formatCode] returns a text without white space at its end, never one
    that ends with a newline: the text [x] comes back as it is.  The
    declaration it replaces and the nine other converters return a
    laid-out text for every non-empty input. *)
Theorem formatCode_javascript_no_trailing_newline (code : str) :
  ~ laid_out (formatCode javascript code)
  /\ Str.trim (formatCode javascript code) = formatCode javascript code
  /\ formatCode javascript (L "x") = L "x"
  /\ (code <> [] -> laid_out (JavaScript.formatCode_replaced code))
  /\ (forall l : Lang, l <> javascript -> code <> [] -> laid_out (formatCode l code)).
Proof.
  split; [|split; [|split; [|split]]].
  - intros H. exact (laid_out_not_trimmed H (formatCode_javascript_trimmed code)).
  - apply formatCode_javascript_trimmed.
  - vm_compute. reflexivity.
  - intros Hc. unfold JavaScript.formatCode_replaced.
    rewrite (truthy_nonempty Hc). simpl negb. cbv iota. apply layout_laid_out.
  - intros l. apply formatCode_others_laid_out.
Qed.

(** ** The indentation loop *)






(** ** Lines of a text *)

Lemma split_acc_nonempty (acc s : str) : Str.split_acc Str.nl acc s <> [].
Proof.
  revert acc; induction s as [|c s IH]; intros acc; simpl; [discriminate|].
  destruct (Str.ceq c Str.nl); [discriminate | apply IH].
Qed.

Lemma split_acc_head (acc s : str) :
  Str.split_acc Str.nl acc s
  = (rev acc ++ hd [] (Str.lines s)) :: tl (Str.lines s).
Proof.
  unfold Str.lines, Str.split.
  revert acc; induction s as [|c s IH]; intros acc; simpl.
  - now rewrite app_nil_r.
  - destruct (Str.ceq c Str.nl); simpl.
    + now rewrite app_nil_r.
    + rewrite (IH (c :: acc)), (IH [c]). simpl. now rewrite <- app_assoc.
Qed.

Lemma lines_cons_other (c : ascii) (s : str) :
  Str.ceq c Str.nl = false ->
  Str.lines (c :: s) = (c :: hd [] (Str.lines s)) :: tl (Str.lines s).
Proof.
  intros H. unfold Str.lines at 1, Str.split. simpl. rewrite H.
  now rewrite split_acc_head.
Qed.

Lemma lines_cons_nl (s : str) : Str.lines (Str.nl :: s) = [] :: Str.lines s.
Proof. unfold Str.lines, Str.split. simpl. rewrite ?ceq_refl. reflexivity. Qed.

Lemma lines_nonempty (s : str) : Str.lines s <> [].
Proof. apply split_acc_nonempty. Qed.

Lemma lines_hd_tl (s : str) : Str.lines s = hd [] (Str.lines s) :: tl (Str.lines s).
Proof. pose proof (lines_nonempty s). destruct (Str.lines s); [congruence | reflexivity]. Qed.

Lemma unlines_cons (x : str) (l : list str) :
  l <> [] -> Str.unlines (x :: l) = x ++ Str.nl :: Str.unlines l.
Proof. destruct l; [congruence | reflexivity]. Qed.

Lemma unlines_lines (s : str) : Str.unlines (Str.lines s) = s.
Proof.
  induction s as [|c s IH]; [reflexivity|].
  destruct (Str.ceq c Str.nl) eqn:E.
  - apply ceq_eq in E; subst c. rewrite lines_cons_nl.
    rewrite unlines_cons by apply lines_nonempty. simpl. now rewrite IH.
  - rewrite (@lines_cons_other c s E).
    assert (H : forall h t, Str.unlines ((c :: h) :: t) = c :: Str.unlines (h :: t)).
    { intros h t. destruct t; reflexivity. }
    rewrite H, <- lines_hd_tl. now rewrite IH.
Qed.

Lemma one_line_lines (x : str) : one_line x -> Str.lines x = [x].
Proof.
  induction 1 as [|c x Hc _ IH]; [reflexivity|].
  rewrite (@lines_cons_other c x Hc), IH. reflexivity.
Qed.

Lemma lines_app_nl (x z : str) :
  Str.lines (x ++ Str.nl :: z) = Str.lines x ++ Str.lines z.
Proof.
  induction x as [|c x IH]; simpl app.
  - now rewrite lines_cons_nl.
  - destruct (Str.ceq c Str.nl) eqn:E.
    + apply ceq_eq in E; subst c. rewrite !lines_cons_nl, IH. reflexivity.
    + rewrite (@lines_cons_other c (x ++ Str.nl :: z) E), (@lines_cons_other c x E), IH.
      rewrite (lines_hd_tl x). reflexivity.
Qed.

Lemma lines_unlines (ls : list str) :
  ls <> [] -> Forall one_line ls -> Str.lines (Str.unlines ls) = ls.
Proof.
  intros Hn H. induction H as [|x ls Hx Hl IH]; [congruence|].
  destruct ls as [|y ls].
  - simpl. now apply one_line_lines.
  - rewrite unlines_cons by discriminate.
    rewrite lines_app_nl, (one_line_lines Hx), IH by discriminate. reflexivity.
Qed.

Lemma lines_one_line (s : str) : Forall one_line (Str.lines s).
Proof.
  induction s as [|c s IH]; [repeat constructor|].
  destruct (Str.ceq c Str.nl) eqn:E.
  - apply ceq_eq in E; subst c. rewrite lines_cons_nl.
    constructor; [constructor | exact IH].
  - rewrite (@lines_cons_other c s E). rewrite (lines_hd_tl s) in IH.
    inversion IH; subst. constructor; [constructor; assumption | assumption].
Qed.

(** ** White space around a text *)

Lemma all_ws_app (a b : str) : all_ws (a ++ b) = all_ws a && all_ws b.
Proof. apply forallb_app. Qed.

Lemma all_ws_rev (a : str) : all_ws (rev a) = all_ws a.
Proof.
  induction a as [|c a IH]; [reflexivity|].
  simpl rev. rewrite all_ws_app, IH. simpl. rewrite andb_true_r. apply andb_comm.
Qed.

Lemma trimStart_ws (a : str) : all_ws a = true -> Str.trimStart a = [].
Proof.
  induction a as [|c a IH]; [reflexivity|]. simpl.
  intros H. apply andb_prop in H as [-> H]. auto.
Qed.

Lemma trimStart_app (x z : str) :
  Str.trimStart (x ++ z) = if all_ws x then Str.trimStart z else Str.trimStart x ++ z.
Proof.
  induction x as [|c x IH]; [reflexivity|]. simpl.
  destruct (Str.is_ws c); [exact IH | reflexivity].
Qed.

Lemma trimEnd_ws_after (z b : str) :
  all_ws b = true -> Str.trimEnd (z ++ b) = Str.trimEnd z.
Proof.
  intros H. unfold Str.trimEnd. rewrite rev_app_distr, trimStart_app.
  now rewrite all_ws_rev, H.
Qed.

Lemma trimStart_split (s : str) :
  exists a, s = a ++ Str.trimStart s /\ all_ws a = true.
Proof.
  induction s as [|c s (a & E & H)]; [exists []; auto|].
  simpl. destruct (Str.is_ws c) eqn:Ec.
  - exists (c :: a). simpl. rewrite Ec, H, <- E. auto.
  - exists []. auto.
Qed.

Lemma trimEnd_split (s : str) :
  exists b, s = Str.trimEnd s ++ b /\ all_ws b = true.
Proof.
  unfold Str.trimEnd. destruct (trimStart_split (rev s)) as (a & E & H).
  exists (rev a). split.
  - rewrite <- rev_app_distr, <- E. now rewrite rev_involutive.
  - now rewrite all_ws_rev.
Qed.

Lemma trim_ws_around (w x w' : str) :
  all_ws w = true -> all_ws w' = true -> Str.trim (w ++ x ++ w') = Str.trim x.
Proof.
  intros H H'. unfold Str.trim. rewrite trimStart_app, H, trimStart_app.
  destruct (all_ws x) eqn:Ex.
  - now rewrite (trimStart_ws _ H'), (trimStart_ws _ Ex).
  - now apply trimEnd_ws_after.
Qed.








(** ** Idempotence of JavaScript's [formatCode] away from comment lines *)

Lemma collapse_lines_in (u : str) :
  forall run acc y,
    (0 < run -> acc = []) ->
    In y (Str.split_acc Str.nl acc (Fmt.collapse_from run u)) ->
    In y (Str.split_acc Str.nl acc u).
Proof.
  induction u as [|c u IH]; intros run acc y Hacc H; [exact H|].
  simpl in *. destruct (Str.ceq c Str.nl) eqn:E.
  - destruct (run <? 2) eqn:Er.
    + simpl in H. rewrite E in H. destruct H as [H|H]; [now left | right].
      apply (IH (S run) [] y); auto.
    + right. apply Nat.ltb_ge in Er.
      rewrite (Hacc ltac:(lia)) in H. apply (IH (S run) [] y); auto.
  - simpl in H. rewrite E in H. apply (IH 0 (c :: acc) y); [lia | exact H].
Qed.











(** ** Line classification *)

Lemma reach_bol_start (s s1 : Regex.st) :
  reach (Regex.RBol false) s s1 -> s1 = s /\ Regex.pre s = [].
Proof.
  intros [-> H]. split; [reflexivity|].
  destruct (Regex.pre s); [reflexivity | discriminate].
Qed.

(** A line the JavaScript declaration pattern matches begins with one of
    the three keywords, so the second match of [parseVariableAssignment]
    is never [null]. *)
Lemma javascript_declaration_keyword (t : str) (d : Regex.found) :
  Regex.exec JavaScript.p_variable t = Some d ->
  exists k, Regex.exec JavaScript.re_declaration_keyword t = Some k.
Proof.
  unfold Regex.exec. intros E.
  destruct (search_sound _ _ _ E) as (sk & s1 & E1 & _ & _ & Eg & Ea & Hr & [_ Hadv]).
  simpl in Hadv; clear Hadv.
  pose (r := JavaScript.p_variable).
  assert (Er : JavaScript.p_variable = r) by reflexivity.
  vm_compute in r. rewrite Er in Hr. subst r. clear Er.
  apply reach_seq in Hr as (s0 & Hb & Hr).
  apply reach_bol_start in Hb as [-> Hp]. simpl in Hp.
  rewrite app_nil_r in Hp.
  assert (sk = []).
  { destruct sk; [reflexivity|]. simpl in Hp. destruct (rev sk); discriminate. }
  subst sk. simpl in E1.
  reach_apart; state_elim;
    match goal with
    | H : Regex.matched d = _ |- _ =>
        rewrite H; repeat rewrite <- app_assoc; simpl app;
        eexists; vm_compute; reflexivity
    end.
Qed.

(** The node [parseLineToNode] builds, for every converter: it never
    throws, the node's tag is that of the first category whose predicate
    holds of the trimmed line, and its line number is the one given. *)
Lemma parseLineToNode_ok (l : Lang) (ln : str) (lineNumber : nat) (ctx : option nat) :
  exists node,
    Base.parseLineToNode (converter_of l) ln lineNumber ctx = Ok node
    /\ type node =
       (if This.isFunctionDefinition (converter_of l) (Str.trim ln) then FunctionDefinition
        else if This.isClassDefinition (converter_of l) (Str.trim ln) then ClassDefinition
        else if This.isVariableAssignment (converter_of l) (Str.trim ln) then VariableAssignment
        else if This.isControlFlow (converter_of l) (Str.trim ln) then ControlFlow
        else if This.isImportExport (converter_of l) (Str.trim ln) then ImportExport
        else Expression)
    /\ line node = lineNumber
    /\ (type node <> Expression
        \/ (originalLine node = Some (Str.trim ln) /\ indent node = Some (leading ln))).
Proof.
  unfold Base.parseLineToNode.
  destruct l; cbn [converter_of This.isFunctionDefinition This.isClassDefinition
                     This.isVariableAssignment This.isControlFlow This.isImportExport
                     This.parseFunctionDefinition This.parseClassDefinition
                     This.parseVariableAssignment This.parseControlFlow
                     This.parseImportExport This.parseExpression
                     JavaScript.converter Python.converter Java.converter
                     TypeScript.converter CSharp.converter Cpp.converter
                     Php.converter Go.converter Rust.converter Kotlin.converter];
    unfold Base.never_matches;
    repeat match goal with
      | |- context [if ?b then _ else _] =>
          lazymatch b with
          | context [if _ then _ else _] => fail
          | _ => destruct b eqn:?
          end
      end;
    try (eexists; split; [reflexivity|]; split; [reflexivity|];
         split; [reflexivity|];
         first [right; split; reflexivity | left; discriminate]).
  - (* JavaScript.parseFunctionDefinition *)
    unfold JavaScript.parseFunctionDefinition.
    destruct (Regex.exec JavaScript.p_function (Str.trim ln)).
    + eexists; repeat split; try reflexivity. left; discriminate.
    + destruct (Regex.exec JavaScript.p_arrowFunction (Str.trim ln));
        eexists; repeat split; try reflexivity; left; discriminate.
  - (* JavaScript.parseClassDefinition *)
    unfold JavaScript.parseClassDefinition.
    destruct (Regex.exec JavaScript.p_class (Str.trim ln));
      eexists; repeat split; try reflexivity; left; discriminate.
  - (* JavaScript.parseVariableAssignment *)
    unfold JavaScript.parseVariableAssignment.
    destruct (Regex.exec JavaScript.p_variable (Str.trim ln)) as [d|] eqn:Ed.
    + destruct (javascript_declaration_keyword _ Ed) as [k ->].
      eexists; repeat split; try reflexivity. left; discriminate.
    + destruct (Regex.exec JavaScript.re_assign_groups (Str.trim ln));
        eexists; repeat split; try reflexivity; left; discriminate.
  - (* JavaScript.parseControlFlow *)
    unfold JavaScript.parseControlFlow.
    destruct (Regex.exec JavaScript.p_if (Str.trim ln)).
    + eexists; repeat split; try reflexivity. left; discriminate.
    + destruct (Regex.exec JavaScript.p_for (Str.trim ln)).
      * eexists; repeat split; try reflexivity. left; discriminate.
      * destruct (Regex.exec JavaScript.p_while (Str.trim ln));
          eexists; repeat split; try reflexivity; left; discriminate.
Qed.

(** C3.  For every converter and every line, [parseLineToNode] returns a
    node and never throws; the node's tag is that of the first category,
    in the order function, class, variable assignment, control flow,
    import/export, whose predicate holds of the trimmed line; when none
    holds the node is an Expression whose text is the trimmed line as it
    is. *)
Theorem parseLineToNode_priority (l : Lang) (ln : str) (lineNumber : nat)
        (ctx : option nat) :
  exists node,
    Base.parseLineToNode (converter_of l) ln lineNumber ctx = Ok node
    /\ type node =
       (if This.isFunctionDefinition (converter_of l) (Str.trim ln) then FunctionDefinition
        else if This.isClassDefinition (converter_of l) (Str.trim ln) then ClassDefinition
        else if This.isVariableAssignment (converter_of l) (Str.trim ln) then VariableAssignment
        else if This.isControlFlow (converter_of l) (Str.trim ln) then ControlFlow
        else if This.isImportExport (converter_of l) (Str.trim ln) then ImportExport
        else Expression)
    /\ line node = lineNumber
    /\ (type node <> Expression
        \/ (originalLine node = Some (Str.trim ln) /\ indent node = Some (leading ln))).
Proof. apply parseLineToNode_ok. Qed.

(** ** One node per line *)

Lemma parseLineToNode_not_comment (l : Lang) (ln : str) (lineNumber : nat)
      (ctx : option nat) :
  exists node,
    Base.parseLineToNode (converter_of l) ln lineNumber ctx = Ok node
    /\ line node = lineNumber /\ is_comment_node node = false
    /\ (Str.trim ln <> [] -> is_empty_line_node node = false).
Proof.
  destruct (parseLineToNode_ok l ln lineNumber ctx) as (node & E & Ht & Hl & _).
  exists node. repeat split; auto; unfold is_comment_node, is_empty_line_node;
    rewrite Ht;
    repeat match goal with |- context [if ?b then _ else _] => destruct b end;
    reflexivity.
Qed.

Lemma create_loop_nodes (l : Lang) :
  l <> python ->
  forall lines i ctx stack,
  exists b cnt,
    Base.create_loop (converter_of l) i lines ctx stack = Ok (b, cnt)
    /\ map line b = seq (i + 1) (length lines)
    /\ Forall (fun nd => is_comment_node nd = false) b
    /\ map is_empty_line_node b
       = map (fun ln => negb (Str.truthy (Str.trim ln))) lines.
Proof.
  intros Hl. assert (Hb : This.isBlockStart (converter_of l) = Base.isBlockStart).
  { destruct l; try reflexivity. congruence. }
  assert (He' : This.isBlockEnd (converter_of l) = Base.never_matches).
  { destruct l; reflexivity. }
  induction lines as [|ln lines IH]; intros i ctx stack.
  - exists [], 0. repeat split; constructor.
  - simpl Base.create_loop.
    destruct (Str.truthy (Str.trim ln)) eqn:Et; simpl negb; cbv iota.
    + destruct (parseLineToNode_not_comment l ln (i + 1) ctx)
        as (node & E & Hline & Hc & He).
      rewrite E. simpl bind. rewrite Hb, He'.
      unfold Base.isBlockStart, Base.never_matches. simpl bind. cbv iota beta.
      match goal with
      | |- context [Base.create_loop _ (S i) lines ?c ?s] =>
          destruct (IH (S i) c s) as (b & cnt & -> & Hm & Hf & Hem)
      end.
      simpl. eexists; eexists. split; [reflexivity|].
      repeat split.
      * simpl. rewrite Hline, Hm. now replace (S i + 1) with (S (i + 1)) by lia.
      * constructor; assumption.
      * simpl. rewrite Hem, He, Et; [reflexivity|].
        intros Hn. rewrite Hn in Et. discriminate.
    + destruct (IH (S i) ctx stack) as (b & cnt & -> & Hm & Hf & Hem).
      simpl. eexists; eexists. split; [reflexivity|].
      repeat split.
      * simpl. rewrite Hm. now replace (S i + 1) with (S (i + 1)) by lia.
      * constructor; [reflexivity | assumption].
      * simpl. now rewrite Hem, Et.
Qed.

Section Extraction.

Variable c : Converter.

Lemma extract_lines_clean (lines : list str) :
  forall i n, fst (fst (Base.extract_lines c i n lines)) = map (clean_line c) lines.
Proof.
  induction lines as [|ln lines IH]; intros i n; [reflexivity|].
  simpl. unfold clean_line, comment_kind.
  destruct ln as [|a ln]; simpl Str.truthy; simpl negb; cbv iota.
  - specialize (IH (S i) n).
    destruct (Base.extract_lines c (S i) n lines) as [[cl cs] mp].
    simpl in *. now rewrite IH.
  - set (ln0 := a :: ln) in *.
    destruct (This.isFullLineComment c (Str.trim ln0)).
    + specialize (IH (S i) (S n)).
      destruct (Base.extract_lines c (S i) (S n) lines) as [[cl cs] mp].
      simpl in *. now rewrite IH.
    + destruct (This.hasInlineComment c ln0).
      * destruct (This.splitInlineComment c ln0) as [code comment].
        specialize (IH (S i) (S n)).
        destruct (Base.extract_lines c (S i) (S n) lines) as [[cl cs] mp].
        simpl in *. now rewrite IH.
      * specialize (IH (S i) n).
        destruct (Base.extract_lines c (S i) n lines) as [[cl cs] mp].
        simpl in *. now rewrite IH.
Qed.

Lemma extract_lines_keys (lines : list str) :
  forall i n k, k < i -> map_get k (snd (Base.extract_lines c i n lines)) = None.
Proof.
  induction lines as [|ln lines IH]; intros i n k Hk; [reflexivity|].
  simpl.
  destruct (Str.truthy ln); simpl.
  - destruct (This.isFullLineComment c (Str.trim ln)).
    + specialize (IH (S i) (S n) k ltac:(lia)).
      destruct (Base.extract_lines c (S i) (S n) lines) as [[cl cs] mp].
      simpl in *. replace (i =? k) with false by (symmetry; apply Nat.eqb_neq; lia).
      exact IH.
    + destruct (This.hasInlineComment c ln).
      * destruct (This.splitInlineComment c ln) as [code comment].
        specialize (IH (S i) (S n) k ltac:(lia)).
        destruct (Base.extract_lines c (S i) (S n) lines) as [[cl cs] mp].
        simpl in *. replace (i =? k) with false by (symmetry; apply Nat.eqb_neq; lia).
        exact IH.
      * specialize (IH (S i) n k ltac:(lia)).
        destruct (Base.extract_lines c (S i) n lines) as [[cl cs] mp]. exact IH.
  - specialize (IH (S i) n k ltac:(lia)).
    destruct (Base.extract_lines c (S i) n lines) as [[cl cs] mp]. exact IH.
Qed.

(** The comment recorded for a line is found again under the line's
    index, with the kind the line was read as. *)
Lemma extract_lines_lookup (lines : list str) :
  forall i n j ln,
    nth_error lines j = Some ln ->
    match comment_kind c ln with
    | None => map_get (i + j) (snd (Base.extract_lines c i n lines)) = None
    | Some kd =>
        exists idx cm,
          map_get (i + j) (snd (Base.extract_lines c i n lines)) = Some (n + idx)
          /\ nth_error (snd (fst (Base.extract_lines c i n lines))) idx = Some cm
          /\ ckind cm = kd
    end.
Proof.
  induction lines as [|l0 lines IH]; intros i n j ln Hj; [destruct j; discriminate|].
  destruct j as [|j]; simpl in Hj.
  - inversion Hj; subst l0; clear Hj. rewrite Nat.add_0_r.
    unfold comment_kind. simpl.
    destruct (Str.truthy ln); simpl.
    + destruct (This.isFullLineComment c (Str.trim ln)).
      * destruct (Base.extract_lines c (S i) (S n) lines) as [[cl cs] mp]. simpl.
        rewrite Nat.eqb_refl. exists 0. eexists. rewrite Nat.add_0_r. simpl. auto.
      * destruct (This.hasInlineComment c ln).
        -- destruct (This.splitInlineComment c ln) as [code comment].
           destruct (Base.extract_lines c (S i) (S n) lines) as [[cl cs] mp]. simpl.
           rewrite Nat.eqb_refl. exists 0. eexists. rewrite Nat.add_0_r. simpl. auto.
        -- pose proof (@extract_lines_keys lines (S i) n i ltac:(lia)) as Hk.
           destruct (Base.extract_lines c (S i) n lines) as [[cl cs] mp]. exact Hk.
    + pose proof (@extract_lines_keys lines (S i) n i ltac:(lia)) as Hk.
      destruct (Base.extract_lines c (S i) n lines) as [[cl cs] mp]. exact Hk.
  - replace (i + S j) with (S i + j) by lia.
    assert (Hne : (i =? S i + j) = false) by (apply Nat.eqb_neq; lia).
    simpl Base.extract_lines.
    destruct (Str.truthy l0); simpl negb; cbv iota.
    + destruct (This.isFullLineComment c (Str.trim l0)).
      * specialize (IH (S i) (S n) j ln Hj).
        destruct (Base.extract_lines c (S i) (S n) lines) as [[cl cs] mp].
        simpl in *. rewrite Hne.
        destruct (comment_kind c ln); [|exact IH].
        destruct IH as (idx & cm & H1 & H2 & H3).
        exists (S idx), cm. replace (n + S idx) with (S (n + idx)) by lia. auto.
      * destruct (This.hasInlineComment c l0).
        -- destruct (This.splitInlineComment c l0) as [code comment].
           specialize (IH (S i) (S n) j ln Hj).
           destruct (Base.extract_lines c (S i) (S n) lines) as [[cl cs] mp].
           simpl in *. rewrite Hne.
           destruct (comment_kind c ln); [|exact IH].
           destruct IH as (idx & cm & H1 & H2 & H3).
           exists (S idx), cm. replace (n + S idx) with (S (n + idx)) by lia. auto.
        -- specialize (IH (S i) n j ln Hj).
           destruct (Base.extract_lines c (S i) n lines) as [[cl cs] mp]. exact IH.
    + specialize (IH (S i) n j ln Hj).
      destruct (Base.extract_lines c (S i) n lines) as [[cl cs] mp]. exact IH.
Qed.

End Extraction.

Lemma one_line_trim (s : str) : one_line s -> one_line (Str.trim s).
Proof.
  intros H. destruct (trim_parts s) as (a & b & E). rewrite E in H.
  apply Forall_app in H as [_ H]. now apply Forall_app in H as [H _].
Qed.

Lemma one_line_firstn (n : nat) (s : str) : one_line s -> one_line (firstn n s).
Proof.
  intros H. rewrite <- (firstn_skipn n s) in H. now apply Forall_app in H as [H _].
Qed.

Lemma one_line_skipn (n : nat) (s : str) : one_line s -> one_line (skipn n s).
Proof.
  intros H. rewrite <- (firstn_skipn n s) in H. now apply Forall_app in H as [_ H].
Qed.

Lemma splitInlineComment_one_line (l : Lang) (ln : str) :
  l <> python -> one_line ln ->
  one_line (fst (This.splitInlineComment (converter_of l) ln)).
Proof.
  intros Hl H. destruct l; try exact H; [|congruence].
  cbn [converter_of JavaScript.converter This.splitInlineComment].
  unfold JavaScript.splitInlineComment.
  destruct (Str.indexOf ln (L "//")) as [k|]; [|exact H].
  cbn [fst]. apply one_line_trim. unfold Str.substring.
  now apply one_line_firstn, one_line_skipn.
Qed.

Lemma clean_line_one_line (l : Lang) (ln : str) :
  l <> python -> one_line ln -> one_line (clean_line (converter_of l) ln).
Proof.
  intros Hl H. unfold clean_line.
  destruct (comment_kind (converter_of l) ln) as [[|]|];
    [constructor | now apply splitInlineComment_one_line | exact H].
Qed.

(** The lines [createAST] reads are the clean lines, one for each line
    of the source. *)
Lemma cleanCode_lines (l : Lang) (sourceCode : str) :
  l <> python ->
  Str.lines (cleanCode (Base.extractCommentsWithContext (converter_of l) sourceCode))
  = map (clean_line (converter_of l)) (Str.lines sourceCode).
Proof.
  intros Hl. unfold Base.extractCommentsWithContext.
  destruct sourceCode as [|a s]; [reflexivity|].
  cbn [Str.truthy negb]. set (src := a :: s).
  pose proof (extract_lines_clean (converter_of l) (Str.lines src) 0 0) as E.
  destruct (Base.extract_lines (converter_of l) 0 0 (Str.lines src)) as [[cl cs] mp].
  cbn [fst cleanCode] in *. subst cl. apply lines_unlines.
  - pose proof (lines_nonempty src). destruct (Str.lines src); [congruence | discriminate].
  - pose proof (lines_one_line src) as H. induction H as [|x ls Hx _ IH]; constructor; auto.
    now apply clean_line_one_line.
Qed.


(** [restoreCommentsToAST] puts one Comment node in front of the node of
    each line recorded as a full-line comment, and adds no other node. *)
Lemma restore_loop_count (cs : list CommentRec) (mp : list (nat * nat))
      (kinds : list (option CommentKind)) :
  forall body i,
    map line body = seq (S i) (length kinds) ->
    (forall j kd, nth_error kinds j = Some kd ->
       match kd with
       | None => map_get (i + j) mp = None
       | Some k => exists idx cm,
           map_get (i + j) mp = Some idx /\ nth_error cs idx = Some cm /\ ckind cm = k
       end) ->
    Forall (fun nd => is_comment_node nd = false) body ->
    exists b,
      Base.restore_loop body cs mp = Ok b
      /\ length b = length body + length (filter is_full_kind kinds)
      /\ length (filter is_comment_node b) = length (filter is_full_kind kinds)
      /\ map type (filter (fun nd => negb (is_comment_node nd)) b) = map type body.
Proof.
  induction kinds as [|kd kinds IH]; intros body i Hl Hk Hc.
  - destruct body; [|discriminate]. exists []. repeat split; reflexivity.
  - destruct body as [|nd body]; [discriminate|].
    simpl in Hl. injection Hl as Hnd Hl.
    inversion Hc as [|? ? Hnc Hc']; subst.
    destruct (IH body (S i) Hl) as (b & Eb & Lb & Cb & Tb); [|exact Hc'|].
    { intros j k Hj. specialize (Hk (S j) k Hj).
      now replace (i + S j) with (S i + j) in Hk by lia. }
    pose proof (Hk 0 kd eq_refl) as H0. rewrite Nat.add_0_r in H0.
    cbn [Base.restore_loop]. rewrite Hnd.
    destruct kd as [[|]|].
    + destruct H0 as (idx & cm & E1 & E2 & E3). rewrite E1, E2, E3, Eb.
      cbv beta iota delta [bind].
      match goal with |- context [Ok (?c :: nd :: b)] => set (cn := c) end.
      assert (Hcn : is_comment_node cn = true) by reflexivity.
      eexists; split; [reflexivity|].
      cbn [length filter is_full_kind]. rewrite Hcn, Hnc. cbn [length negb map].
      rewrite Tb. repeat split; lia || reflexivity.
    + destruct H0 as (idx & cm & E1 & E2 & E3). rewrite E1, E2, E3, Eb.
      eexists; split; [reflexivity|].
      cbn [length filter is_full_kind].
      replace (is_comment_node (with_inlineComment nd (ccontent cm)))
        with (is_comment_node nd) by reflexivity.
      rewrite Hnc. cbn [negb map]. rewrite Tb. repeat split; lia || reflexivity.
    + rewrite H0, Eb. eexists; split; [reflexivity|].
      cbn [length filter is_full_kind]. rewrite Hnc. cbn [negb map]. rewrite Tb.
      repeat split; lia || reflexivity.
Qed.

Lemma nth_error_map_inv (A B : Type) (f : A -> B) (l : list A) (j : nat) (b : B) :
  nth_error (map f l) j = Some b -> exists a, nth_error l j = Some a /\ b = f a.
Proof.
  revert j; induction l as [|a l IH]; intros [|j] H; try discriminate.
  - injection H as H. exists a. auto.
  - exact (IH j H).
Qed.


(** What [extractCommentsWithContext] records for each line of a source. *)
Lemma extractCommentsWithContext_lookup (c : Converter) (sourceCode : str) (j : nat) (ln : str) :
  nth_error (Str.lines sourceCode) j = Some ln ->
  match comment_kind c ln with
  | None => map_get (0 + j) (commentMap (Base.extractCommentsWithContext c sourceCode)) = None
  | Some kd =>
      exists idx cm,
        map_get (0 + j) (commentMap (Base.extractCommentsWithContext c sourceCode)) = Some idx
        /\ nth_error (comments (Base.extractCommentsWithContext c sourceCode)) idx = Some cm
        /\ ckind cm = kd
  end.
Proof.
  intros Hj. unfold Base.extractCommentsWithContext.
  destruct sourceCode as [|a s].
  - destruct j as [|[|j]]; try discriminate. injection Hj as <-. reflexivity.
  - cbn [Str.truthy negb]. set (src := a :: s) in *.
    pose proof (@extract_lines_lookup c (Str.lines src) 0 0 j ln Hj) as H.
    destruct (Base.extract_lines c 0 0 (Str.lines src)) as [[cl cs] mp].
    exact H.
Qed.

(** ** Blank lines *)

Lemma trim_empty_ws (s : str) : Str.trim s = [] -> all_ws s = true.
Proof.
  intros H. unfold Str.trim in H.
  destruct (trimStart_split s) as (a & Ea & Ha).
  destruct (trimEnd_split (Str.trimStart s)) as (b & Eb & Hb).
  rewrite H in Eb. simpl in Eb. rewrite Eb in Ea. rewrite Ea, all_ws_app, Ha.
  exact Hb.
Qed.






(** ** One node for each line *)






(** * Further properties of the code *)

(** ** The catalogue of languages and the tags of [CONVERTERS] *)

Lemma tag_injective (a b : Lang) : tag a = tag b -> a = b.
Proof. destruct a, b; intros H; try reflexivity; vm_compute in H; discriminate. Qed.

Lemma tag_eqb (a b : Lang) : Str.eqb (tag a) (tag b) = true <-> a = b.
Proof.
  split.
  - intros H. apply tag_injective. now apply eqb_eq.
  - intros ->. apply eqb_refl.
Qed.

Lemma CONVERTERS_class (k : str) (l : Lang) : CONVERTERS k = Class l <-> k = tag l.
Proof.
  unfold CONVERTERS. split.
  - destruct (find _ all_langs) as [l'|] eqn:E.
    + intros H. injection H as ->. apply find_some in E as [_ E].
      symmetry. now apply eqb_eq.
    + destruct (existsb _ _); discriminate.
  - intros ->. destruct l; vm_compute; reflexivity.
Qed.

Lemma all_langs_complete (l : Lang) : In l all_langs.
Proof. destruct l; simpl; auto 11. Qed.

Lemma getSupportedConversions_pairs :
  getSupportedConversions
  = map (fun p => Supported.mkConversion (tag (fst p)) (tag (snd p))
                    (Supported.label (info_of (fst p)))
                    (Supported.label (info_of (snd p))))
        distinct_pairs.
Proof. vm_compute. reflexivity. Qed.

Lemma distinct_pairs_In (a b : Lang) : In (a, b) distinct_pairs <-> a <> b.
Proof.
  unfold distinct_pairs. rewrite filter_In. cbn [fst snd]. split.
  - intros [_ H] E. subst b. rewrite eqb_refl in H. discriminate.
  - intros H. split.
    + apply in_prod; apply all_langs_complete.
    + destruct (Str.eqb (tag a) (tag b)) eqn:E; [|reflexivity].
      apply tag_eqb in E. contradiction.
Qed.

(** X1.  [getSupportedConversions] lists the ninety ordered pairs of distinct
    supported languages and nothing else: an entry is in the list exactly
    when its tags are those of two different converter classes and its
    labels are the labels [SUPPORTED_LANGUAGES] gives these two. *)
Theorem getSupportedConversions_exact :
  length getSupportedConversions = 90
  /\ forall c : Supported.Conversion,
       In c getSupportedConversions
       <-> exists lf lt : Lang,
             lf <> lt
             /\ c = Supported.mkConversion (tag lf) (tag lt)
                      (Supported.label (info_of lf)) (Supported.label (info_of lt)).
Proof.
  split; [vm_compute; reflexivity|].
  intros c. rewrite getSupportedConversions_pairs, in_map_iff. split.
  - intros ([a b] & E & H). apply distinct_pairs_In in H.
    exists a, b. split; [exact H | now symmetry].
  - intros (lf & lt & H & ->). exists (lf, lt). split; [reflexivity|].
    now apply distinct_pairs_In.
Qed.

(** X2.  [getLanguageInfo] finds an entry exactly for the ten tags that have a
    class of their own in [CONVERTERS]; the entry found carries the tag
    asked for, and its label is the name the converter of that tag puts
    into its warnings. *)
Theorem getLanguageInfo_agrees (langCode : str) :
  match getLanguageInfo langCode with
  | Some info =>
      exists l : Lang,
        langCode = tag l /\ CONVERTERS langCode = Class l
        /\ info = info_of l /\ Supported.value info = langCode
        /\ Supported.label info = This.languageName (converter_of l)
  | None => forall l : Lang, langCode <> tag l /\ CONVERTERS langCode <> Class l
  end.
Proof.
  destruct (getLanguageInfo langCode) as [info|] eqn:E; unfold getLanguageInfo in E.
  - apply find_some in E as [Hin E]. apply eqb_eq in E.
    assert (H : exists l, info = info_of l /\ Supported.value info = tag l
                          /\ Supported.label info = This.languageName (converter_of l)).
    { simpl in Hin.
      repeat (destruct Hin as [Hin|Hin];
              [subst info;
               first [exists javascript; repeat split; reflexivity
                     |exists python; repeat split; reflexivity
                     |exists java; repeat split; reflexivity
                     |exists typescript; repeat split; reflexivity
                     |exists csharp; repeat split; reflexivity
                     |exists cpp; repeat split; reflexivity
                     |exists php; repeat split; reflexivity
                     |exists go; repeat split; reflexivity
                     |exists rust; repeat split; reflexivity
                     |exists kotlin; repeat split; reflexivity]|]).
      contradiction. }
    destruct H as (l & Hi & Hv & Hl). exists l.
    assert (Ek : langCode = tag l) by congruence.
    repeat split; auto. now apply CONVERTERS_class.
  - intros l.
    assert (Hne : langCode <> tag l).
    { intros ->. pose proof (find_none _ _ E (info_of l)) as H.
      assert (Hin : In (info_of l) SUPPORTED_LANGUAGES)
        by (destruct l; simpl; auto 11).
      specialize (H Hin). destruct l; vm_compute in H; discriminate. }
    split; [exact Hne|]. intros H. now apply CONVERTERS_class in H.
Qed.

(** ** The guard of [convertCode] *)

Lemma trim_truthy (s : str) : Str.truthy (Str.trim s) = false <-> Str.trim s = [].
Proof. destruct (Str.trim s); split; intros H; congruence || reflexivity || discriminate. Qed.

Lemma eqb_neq (a b : str) : Str.eqb a b = false <-> a <> b.
Proof.
  split.
  - intros H E. subst. rewrite eqb_refl in H. discriminate.
  - intros H. destruct (Str.eqb a b) eqn:E; [|reflexivity].
    apply eqb_eq in E. contradiction.
Qed.

(** X3.  The three checks of [convertCode] come in a fixed order and each has
    its own message: a blank source is reported whatever the tags are,
    equal tags are reported before the tags are looked up (so even for a
    tag that names no language), and a pair is reported as unsupported
    when one of the two lookups in [CONVERTERS] finds nothing.  In all
    three cases no stage has started.  The parse stage starts exactly when
    the source is not blank, the tags differ, the source tag is one of the
    ten and the lookup of the target tag finds something. *)
Theorem convertCode_guard_order (sourceCode fromLang toLang : str) :
  (Str.trim sourceCode = [] ->
   convertCode sourceCode fromLang toLang
   = mkRun (Raised (L "Please provide source code to convert")) [])
  /\ (Str.trim sourceCode <> [] -> fromLang = toLang ->
      convertCode sourceCode fromLang toLang
      = mkRun (Raised (L "Source and target languages must be different")) [])
  /\ (Str.trim sourceCode <> [] -> fromLang <> toLang ->
      CONVERTERS fromLang = Undefined \/ CONVERTERS toLang = Undefined ->
      convertCode sourceCode fromLang toLang
      = mkRun (Raised (L "Conversion between " ++ fromLang ++ L " and " ++ toLang
                       ++ L " is not supported")) [])
  /\ (In ParseStage (stages (convertCode sourceCode fromLang toLang))
      <-> Str.trim sourceCode <> [] /\ fromLang <> toLang
          /\ (exists l : Lang, fromLang = tag l)
          /\ CONVERTERS toLang <> Undefined).
Proof.
  unfold convertCode.
  destruct (Str.truthy (Str.trim sourceCode)) eqn:Et; cbn [negb].
  - assert (Hs : Str.trim sourceCode <> []).
    { intros E. rewrite E in Et. discriminate. }
    destruct (Str.eqb fromLang toLang) eqn:Ee.
    + apply eqb_eq in Ee.
      split; [intros H; contradiction|]. split; [reflexivity|].
      split; [intros _ H; contradiction|].
      split; [intros [] | intros (_ & H & _); contradiction].
    + apply eqb_neq in Ee.
      split; [intros H; contradiction|]. split; [intros _ H; contradiction|]. split.
      * intros _ _ [H|H]; rewrite H; [reflexivity|].
        destruct (CONVERTERS fromLang); reflexivity.
      * destruct (CONVERTERS fromLang) as [lf|mem|] eqn:Ef.
        -- apply CONVERTERS_class in Ef.
           destruct (CONVERTERS toLang) as [lt|mem|] eqn:Eto.
           ++ split.
              ** intros _. repeat split; eauto. discriminate.
              ** intros _. destruct (parseToAST lf sourceCode) as [[ast ws]|e];
                   [destruct (negb _)|]; simpl; auto.
           ++ split.
              ** intros _. repeat split; eauto. discriminate.
              ** intros _. destruct (parseToAST lf sourceCode) as [[ast ws]|e];
                   simpl; auto.
           ++ split; [intros [] | intros (_ & _ & _ & H); congruence].
        -- split.
           ++ destruct (CONVERTERS toLang); intros [].
           ++ intros (_ & _ & (l & H) & _). apply CONVERTERS_class in H. congruence.
        -- split; [intros [] | ].
           intros (_ & _ & (l & H) & _). apply CONVERTERS_class in H. congruence.
  - apply trim_truthy in Et.
    split; [reflexivity|]. split; [congruence|]. split; [congruence|].
    split; [intros [] | intros (H & _); congruence].
Qed.

(** ** The inherited [parseToAST] never throws *)

Lemma create_loop_complexity (l : Lang) :
  l <> python ->
  forall lines i ctx stack b cnt,
    Base.create_loop (converter_of l) i lines ctx stack = Ok (b, cnt) ->
    cnt = length (filter is_definition_node b).
Proof.
  intros Hl. assert (Hb : This.isBlockStart (converter_of l) = Base.isBlockStart).
  { destruct l; try reflexivity. congruence. }
  assert (He' : This.isBlockEnd (converter_of l) = Base.never_matches).
  { destruct l; reflexivity. }
  induction lines as [|ln lines IH]; intros i ctx stack b cnt E.
  - simpl in E. injection E as <- <-. reflexivity.
  - simpl Base.create_loop in E.
    destruct (Str.truthy (Str.trim ln)) eqn:Et; simpl negb in E; cbv iota in E.
    + destruct (Base.parseLineToNode (converter_of l) ln (i + 1) ctx) as [node|e];
        [|discriminate].
      simpl bind in E. rewrite Hb, He' in E.
      unfold Base.isBlockStart, Base.never_matches in E.
      simpl bind in E. cbv iota beta in E.
      match type of E with
      | context [Base.create_loop _ (S i) lines ?c ?s] =>
          destruct (Base.create_loop (converter_of l) (S i) lines c s)
            as [[b0 c0]|e] eqn:E0; [|discriminate]
      end.
      apply IH in E0. simpl in E. injection E as <- <-.
      cbn [filter]. unfold is_definition_node at 1.
      destruct (_ || _); simpl; lia.
    + destruct (Base.create_loop (converter_of l) (S i) lines ctx stack)
        as [[b0 c0]|e] eqn:E0; [|discriminate].
      apply IH in E0. simpl in E. injection E as <- <-. simpl. exact E0.
Qed.

Lemma filter_type_length (p : NodeType -> bool) (a b : list Node) :
  map type a = map type b ->
  length (filter (fun n => p (type n)) a) = length (filter (fun n => p (type n)) b).
Proof.
  revert b; induction a as [|x a IH]; intros [|y b] E; try discriminate; [reflexivity|].
  simpl in E. injection E as Ex E. simpl. rewrite Ex.
  destruct (p (type y)); simpl; now rewrite (IH b E).
Qed.

Lemma filter_filter_implied (A : Type) (p q : A -> bool) (l : list A) :
  (forall x, p x = true -> q x = true) -> filter p (filter q l) = filter p l.
Proof.
  intros H. induction l as [|x l IH]; [reflexivity|]. simpl.
  destruct (q x) eqn:Eq; simpl.
  - now rewrite IH.
  - destruct (p x) eqn:Ep; [|exact IH]. apply H in Ep. congruence.
Qed.

Lemma definitions_not_comments (b : list Node) :
  filter is_definition_node (filter (fun nd => negb (is_comment_node nd)) b)
  = filter is_definition_node b.
Proof.
  apply filter_filter_implied. intros n.
  unfold is_definition_node, is_comment_node. destruct (type n); simpl; congruence.
Qed.

(** What the inherited [parseToAST] returns, for every source. *)
Lemma base_parseToAST_returns (l : Lang) (sourceCode : str) :
  l <> python ->
  exists body : list Node,
    parseToAST l sourceCode
    = Ok (mkProgram body (This.languageName (converter_of l))
            (cleanCode (Base.extractCommentsWithContext (converter_of l) sourceCode))
            (Some (mkMetadata (length (Str.lines sourceCode))
                              (length (filter is_definition_node body)))),
          This.validateSyntax (converter_of l) sourceCode).
Proof.
  intros Hl. set (c := converter_of l).
  set (ex := Base.extractCommentsWithContext c sourceCode).
  destruct (@create_loop_nodes l Hl (Str.lines (cleanCode ex)) 0 None [])
    as (b & cnt & Ec & Hline & Hnc & _).
  pose proof (@create_loop_complexity l Hl _ _ _ _ _ _ Ec) as Hcnt.
  fold c in Ec.
  assert (Hlines : Str.lines (cleanCode ex) = map (clean_line c) (Str.lines sourceCode))
    by exact (@cleanCode_lines l sourceCode Hl).
  rewrite Hlines, length_map in Hline.
  destruct (@restore_loop_count (comments ex) (commentMap ex)
              (map (comment_kind c) (Str.lines sourceCode)) b 0)
    as (b' & Er & _ & _ & Tb).
  { now rewrite length_map. }
  { intros j kd Hj. apply nth_error_map_inv in Hj as (ln & Hj & ->).
    exact (@extractCommentsWithContext_lookup c sourceCode j ln Hj). }
  { exact Hnc. }
  exists b'.
  replace (parseToAST l sourceCode) with (Base.parseToAST c sourceCode)
    by (destruct l; try reflexivity; congruence).
  unfold Base.parseToAST. fold ex.
  unfold Base.parseCode, Base.createAST. rewrite Ec.
  cbv beta iota delta [bind]. unfold Base.restoreCommentsToAST.
  cbn [prog_body sourceLanguage originalCode metadata]. rewrite Er.
  rewrite Hlines, length_map.
  replace (length (filter is_definition_node b')) with cnt; [reflexivity|].
  rewrite Hcnt, <- (definitions_not_comments b').
  symmetry.
  exact (filter_type_length
           (fun t => NodeType_eqb t FunctionDefinition || NodeType_eqb t ClassDefinition)
           _ _ Tb).
Qed.

(** X4.  Every converter: [parseToAST] returns a tree.  For the nine converters
    that inherit the method the warnings are those of [validateSyntax] on
    the source, the tree is tagged with the converter's language, keeps
    the comment-free text as [originalCode], and its metadata hold the
    number of source lines and, as complexity, the number of function and
    class definition nodes of the body. *)
Theorem parseToAST_returns (l : Lang) (sourceCode : str) :
  exists (ast : Program) (ws : list Warning),
    parseToAST l sourceCode = Ok (ast, ws)
    /\ ws = match l with
            | python => []
            | _ => This.validateSyntax (converter_of l) sourceCode
            end
    /\ (l <> python ->
        sourceLanguage ast = This.languageName (converter_of l)
        /\ originalCode ast
           = cleanCode (Base.extractCommentsWithContext (converter_of l) sourceCode)
        /\ metadata ast
           = Some (mkMetadata (length (Str.lines sourceCode))
                              (length (filter is_definition_node (prog_body ast))))).
Proof.
  assert (Hp : l = python \/ l <> python) by (destruct l; auto; right; discriminate).
  destruct Hp as [-> | Hl].
  - eexists. eexists. split; [reflexivity|]. split; [reflexivity|]. congruence.
  - destruct (base_parseToAST_returns sourceCode Hl) as (body & E).
    eexists. eexists. split; [exact E|]. split.
    + destruct l; try reflexivity. congruence.
    + intros _. repeat split.
Qed.

(** ** The pipeline on a supported pair *)

Lemma laid_out_nonempty (s : str) : laid_out s -> s <> [].
Proof. intros (b & -> & _) E. destruct b; discriminate. Qed.

Lemma formatCode_empty (l : Lang) : formatCode l [] = [].
Proof. destruct l; reflexivity. Qed.

Lemma formatCode_nonempty (l : Lang) (code : str) :
  l <> javascript -> code <> [] -> formatCode l code <> [].
Proof.
  intros Hl Hc. pose proof (truthy_nonempty Hc) as Ht.
  apply laid_out_nonempty.
  destruct l; try congruence; unfold formatCode; simpl This.formatCode;
    match goal with
    | |- laid_out (?f code) => unfold f
    end; rewrite Ht; simpl negb; cbv iota;
    try apply layout_laid_out.
  apply rust_restore_laid_out, layout_laid_out.
Qed.

Lemma parseToAST_ok (l : Lang) (sourceCode : str) :
  exists ast,
    parseToAST l sourceCode
    = Ok (ast, match l with
               | python => []
               | _ => This.validateSyntax (converter_of l) sourceCode
               end).
Proof.
  assert (Hp : l = python \/ l <> python) by (destruct l; auto; right; discriminate).
  destruct Hp as [-> | Hl].
  - eexists. reflexivity.
  - destruct (base_parseToAST_returns sourceCode Hl) as (body & E).
    eexists. rewrite E. destruct l; try reflexivity. congruence.
Qed.

(** X5.  For a source that is not blank and two different supported languages
    the three stages always run: parsing does not fail, and the call
    returns the twice formatted text with the warnings of the source
    converter and none of the target's, unless that text is empty, the one
    failure left.  For a target other than JavaScript the text is empty
    only when the generated code is. *)
Theorem convertCode_supported_pair (sourceCode : str) (lf lt : Lang) :
  Str.trim sourceCode <> [] -> lf <> lt ->
  exists ast : Program,
    let ws := match lf with
              | python => []
              | _ => This.validateSyntax (converter_of lf) sourceCode
              end in
    let code := formatCode lt (generateFromAST lt ast) in
    parseToAST lf sourceCode = Ok (ast, ws)
    /\ convertCode sourceCode (tag lf) (tag lt)
       = mkRun (if Str.truthy code then Returned code ws
                else Raised (L "Conversion failed: Code formatting failed - invalid output"))
               [ParseStage; GenerateStage; FormatStage]
    /\ (lt <> javascript -> (code = [] <-> generateFromAST lt ast = [])).
Proof.
  intros Hs Hne. destruct (parseToAST_ok lf sourceCode) as (ast & E).
  exists ast. cbv zeta. split; [exact E|]. split.
  - unfold convertCode.
    destruct (Str.truthy (Str.trim sourceCode)) eqn:Et;
      [|apply trim_truthy in Et; contradiction].
    cbn [negb].
    assert (Ee : Str.eqb (tag lf) (tag lt) = false).
    { apply eqb_neq. intros H. apply tag_injective in H. contradiction. }
    rewrite Ee.
    rewrite (proj2 (CONVERTERS_class (tag lf) lf) eq_refl).
    rewrite (proj2 (CONVERTERS_class (tag lt) lt) eq_refl).
    rewrite E. rewrite app_nil_r.
    destruct (Str.truthy (formatCode lt (generateFromAST lt ast))); reflexivity.
  - intros Hl. split.
    + intros H. destruct (generateFromAST lt ast) as [|a g] eqn:Eg; [reflexivity|].
      exfalso. apply (@formatCode_nonempty lt (a :: g) Hl); [discriminate | exact H].
    + intros ->. apply formatCode_empty.
Qed.

(** The theorem at a one-line JavaScript source converted to Kotlin. *)
Lemma convertCode_supported_pair_witness :
  exists ast : Program,
    let ws := This.validateSyntax (converter_of javascript) (L "let a = 1;") in
    let code := formatCode kotlin (generateFromAST kotlin ast) in
    parseToAST javascript (L "let a = 1;") = Ok (ast, ws)
    /\ convertCode (L "let a = 1;") (tag javascript) (tag kotlin)
       = mkRun (if Str.truthy code then Returned code ws
                else Raised (L "Conversion failed: Code formatting failed - invalid output"))
               [ParseStage; GenerateStage; FormatStage]
    /\ (kotlin <> javascript -> (code = [] <-> generateFromAST kotlin ast = [])).
Proof.
  apply (@convertCode_supported_pair (L "let a = 1;") javascript kotlin).
  - vm_compute. discriminate.
  - discriminate.
Defined.

(** The parts of a returned result. *)
Lemma convertCode_returned_parts (sourceCode fromLang toLang code : str)
        (ws : list Warning) (st : list Stage) :
  convertCode sourceCode fromLang toLang = mkRun (Returned code ws) st ->
  code <> []
  /\ st = [ParseStage; GenerateStage; FormatStage]
  /\ Str.trim sourceCode <> []
  /\ exists lf lt : Lang,
       lf <> lt /\ fromLang = tag lf /\ toLang = tag lt
       /\ ws = match lf with
               | python => []
               | _ => This.validateSyntax (converter_of lf) sourceCode
               end.
Proof.
  unfold convertCode. intros H.
  destruct (Str.truthy (Str.trim sourceCode)) eqn:Et; cbn [negb] in H; [|discriminate].
  destruct (Str.eqb fromLang toLang) eqn:Ee; [discriminate|].
  destruct (CONVERTERS fromLang) as [lf|mem|] eqn:Ef;
    [|destruct (CONVERTERS toLang); discriminate|discriminate].
  destruct (CONVERTERS toLang) as [lt|mem|] eqn:Eto; [| |discriminate].
  - apply CONVERTERS_class in Ef. apply CONVERTERS_class in Eto.
    destruct (parseToAST_ok lf sourceCode) as (ast & E). rewrite E in H.
    destruct (Str.truthy (formatCode lt (generateFromAST lt ast))) eqn:Ec;
      cbn [negb] in H; [|discriminate].
    injection H as <- <- <-. rewrite app_nil_r.
    split; [intros E0; rewrite E0 in Ec; discriminate|].
    split; [reflexivity|].
    split; [intros E0; rewrite E0 in Et; discriminate|].
    exists lf, lt. repeat split; auto.
    apply eqb_neq in Ee. congruence.
  - destruct (parseToAST lf sourceCode) as [[ast ws']|e]; discriminate.
Qed.

(** X6.  When [convertCode] returns, the code it returns is not empty, all
    three stages have run, the source was not blank, the two tags are
    tags of different converter classes, and the warnings are those the
    source converter recorded while parsing: the target converter adds
    none. *)
Theorem convertCode_returned (sourceCode fromLang toLang code : str)
        (ws : list Warning) (st : list Stage) :
  convertCode sourceCode fromLang toLang = mkRun (Returned code ws) st ->
  code <> []
  /\ st = [ParseStage; GenerateStage; FormatStage]
  /\ Str.trim sourceCode <> []
  /\ exists lf lt : Lang,
       lf <> lt /\ fromLang = tag lf /\ toLang = tag lt
       /\ ws = match lf with
               | python => []
               | _ => This.validateSyntax (converter_of lf) sourceCode
               end.
Proof. apply convertCode_returned_parts. Qed.

(** The theorem at a one-line JavaScript source converted to Kotlin. *)
Lemma convertCode_returned_witness :
  L "val a = 1;" ++ NL <> []
  /\ [ParseStage; GenerateStage; FormatStage] = [ParseStage; GenerateStage; FormatStage]
  /\ Str.trim (L "let a = 1;") <> []
  /\ exists lf lt : Lang,
       lf <> lt /\ L "javascript" = tag lf /\ L "kotlin" = tag lt
       /\ [] = match lf with
               | python => []
               | _ => This.validateSyntax (converter_of lf) (L "let a = 1;")
               end.
Proof.
  apply (@convertCode_returned (L "let a = 1;") (L "javascript") (L "kotlin")).
  vm_compute. reflexivity.
Defined.

(** ** [isConversionSupported] and the guard *)

(** X7.  [isConversionSupported] answers yes for every pair that
    [getSupportedConversions] lists; its answer is truthy exactly when the
    tags differ and both lookups in [CONVERTERS] find something; and for a
    source that is not blank it is falsy exactly when [convertCode] stops
    at its guard, with the message for equal tags or the message for an
    unsupported pair. *)
Theorem isConversionSupported_agrees (sourceCode fromLang toLang : str) :
  (forall c : Supported.Conversion,
     In c getSupportedConversions ->
     isConversionSupported (Supported.from c) (Supported.to c) = Some true)
  /\ (truthy_answer (isConversionSupported fromLang toLang) = true
      <-> fromLang <> toLang
          /\ CONVERTERS fromLang <> Undefined /\ CONVERTERS toLang <> Undefined)
  /\ (Str.trim sourceCode <> [] ->
      (truthy_answer (isConversionSupported fromLang toLang) = false
          <-> convertCode sourceCode fromLang toLang
              = mkRun (Raised (L "Source and target languages must be different")) []
              \/ convertCode sourceCode fromLang toLang
                 = mkRun (Raised (L "Conversion between " ++ fromLang ++ L " and "
                                  ++ toLang ++ L " is not supported")) [])).
Proof.
  split; [|split].
  - intros c Hc. rewrite getSupportedConversions_pairs in Hc.
    apply in_map_iff in Hc as ([a b] & <- & H). apply distinct_pairs_In in H.
    cbn [fst snd Supported.from Supported.to]. unfold isConversionSupported.
    rewrite (proj2 (CONVERTERS_class (tag a) a) eq_refl).
    rewrite (proj2 (CONVERTERS_class (tag b) b) eq_refl).
    replace (Str.eqb (tag a) (tag b)) with false; [reflexivity|].
    symmetry. apply eqb_neq. intros E. apply tag_injective in E. contradiction.
  - unfold isConversionSupported.
    destruct (CONVERTERS fromLang), (CONVERTERS toLang); cbn [truthy_answer];
      try (split; [discriminate | intros (_ & H1 & H2); congruence]);
      (split;
       [intros H; split; [apply eqb_neq; now destruct (Str.eqb fromLang toLang)
                         | split; discriminate]
       |intros (H & _); apply eqb_neq in H; now rewrite H]).
  - intros Hs. destruct (Str.truthy (Str.trim sourceCode)) eqn:Et;
      [|apply trim_truthy in Et; contradiction].
    unfold isConversionSupported, convertCode. rewrite Et. cbn [negb].
    destruct (Str.eqb fromLang toLang) eqn:Ee.
    + split; [auto|]. intros _.
      destruct (CONVERTERS fromLang), (CONVERTERS toLang); reflexivity.
    + destruct (CONVERTERS fromLang) as [lf|mem|], (CONVERTERS toLang) as [lt|mem'|];
        cbn [truthy_answer negb];
        try (split; [discriminate|]);
        try (split; [auto|reflexivity]).
      * destruct (parseToAST lf sourceCode) as [[ast ws]|e];
          [destruct (negb _)|]; intros [H|H]; discriminate.
      * destruct (parseToAST lf sourceCode) as [[ast ws]|e];
          intros [H|H]; discriminate.
      * intros [H|H]; unfold conversion_failed, misuse in H;
          destruct (Str.eqb mem (L "constructor")); simpl in H; discriminate.
      * intros [H|H]; unfold conversion_failed, misuse in H;
          destruct (Str.eqb mem (L "constructor")); simpl in H; discriminate.
Qed.

(** ** What the emitter does with comments *)

Lemma nodeToCode_forget (l : Lang) (n : Node) :
  Base.nodeToCode (converter_of l) (forget_comment_text n)
  = Base.nodeToCode (converter_of l) n.
Proof. destruct l, n as [t]; destruct t; reflexivity. Qed.

Lemma nodeToCode_comment (l : Lang) (n : Node) :
  type n = Comment -> Base.nodeToCode (converter_of l) n = [].
Proof. intros H. unfold Base.nodeToCode. rewrite H. destruct l; reflexivity. Qed.

Lemma emit_nodes_forget (l : Lang) (nodes : list Node) :
  Base.emit_nodes (converter_of l) (map forget_comment_text nodes)
  = Base.emit_nodes (converter_of l) nodes.
Proof.
  induction nodes as [|n rest IH]; [reflexivity|].
  cbn [map Base.emit_nodes]. rewrite nodeToCode_forget, IH.
  destruct rest; reflexivity.
Qed.

Lemma extract_lines_no_hooks (c : Converter) (lines : list str) :
  (forall t, This.isFullLineComment c t = false) ->
  (forall t, This.hasInlineComment c t = false) ->
  forall i n, Base.extract_lines c i n lines = (lines, [], []).
Proof.
  intros Hf Hi. induction lines as [|ln rest IH]; intros i n; [reflexivity|].
  cbn [Base.extract_lines]. destruct ln as [|ch ln].
  - simpl. now rewrite IH.
  - simpl negb. cbv iota. rewrite Hf, Hi. now rewrite IH.
Qed.

Lemma no_comments_recorded (l : Lang) (sourceCode : str) :
  l <> javascript -> l <> python ->
  let ex := Base.extractCommentsWithContext (converter_of l) sourceCode in
  comments ex = [] /\ commentMap ex = [] /\ cleanCode ex = sourceCode.
Proof.
  intros Hj Hp. cbv zeta. unfold Base.extractCommentsWithContext.
  destruct sourceCode as [|ch s]; [repeat split|].
  simpl negb. cbv iota.
  rewrite extract_lines_no_hooks.
  - cbn [comments commentMap cleanCode]. repeat split. apply unlines_lines.
  - intros t. destruct l; try reflexivity; congruence.
  - intros t. destruct l; try reflexivity; congruence.
Qed.

(** X8.  What the tree stores of a comment is not emitted.  Every
    converter declares [formatComment] for a string and is handed the
    node, so a Comment node is emitted as the empty text; and no formatter
    reads the inline comment attached to a node.  The code generated from
    a tree is therefore the code generated from the tree with all stored
    comment text removed, for every target converter.  This is about the
    comments the source converter has taken out of the text, and only the
    JavaScript and the Python converter know comments: each of the eight
    others records none and hands the whole source text, comment lines
    included, to the parser as code. *)
Theorem stored_comments_not_emitted (l : Lang) (ast : Program) (sourceCode : str) :
  (forall n : Node, type n = Comment -> Base.nodeToCode (converter_of l) n = [])
  /\ generateFromAST l (forget_comments ast) = generateFromAST l ast
  /\ (l <> javascript -> l <> python ->
      let ex := Base.extractCommentsWithContext (converter_of l) sourceCode in
      comments ex = [] /\ commentMap ex = [] /\ cleanCode ex = sourceCode).
Proof.
  split; [intros n; apply nodeToCode_comment|].
  split; [|apply no_comments_recorded].
  assert (H : Base.generateFromAST (converter_of l) (forget_comments ast)
              = Base.generateFromAST (converter_of l) ast).
  { unfold Base.generateFromAST, Base.generateCode, Base.astToCode, forget_comments.
    cbn [prog_body]. now rewrite emit_nodes_forget. }
  destruct l; try exact H. reflexivity.
Qed.

(** ** The replacement of newline runs

    [.replace(/\n{3,}/g, '\n\n')] as the matcher computes it from the
    source pattern is the function [Fmt.collapse]. *)

Lemma newline_run (s : str) :
  exists j tl, s = List.repeat Str.nl j ++ tl /\ solid_start tl.
Proof.
  induction s as [|c s (j & tl & E & H)].
  - exists 0, []. split; [reflexivity | now left].
  - destruct (Str.ceq c Str.nl) eqn:Ec.
    + apply ceq_eq in Ec. subst c. exists (S j), tl. split; [now rewrite E | exact H].
    + exists 0, (c :: s). split; [reflexivity|]. right. eauto.
Qed.

Lemma repeat_shift (A : Type) (a : A) (n : nat) (l : list A) :
  List.repeat a n ++ a :: l = a :: List.repeat a n ++ l.
Proof. induction n as [|n IH]; [reflexivity|]. simpl. now rewrite IH. Qed.

Lemma quant_newlines (j : nat) :
  forall fuel cnt p tl caps,
    solid_start tl -> j <= fuel ->
    Regex.quant_loop (Regex.m (Regex.RSet false [Regex.IChar Str.nl])) true 3 None
      (fun s => Some s) fuel cnt (Regex.mkSt p (List.repeat Str.nl j ++ tl) caps)
    = if 3 <=? cnt + j then Some (Regex.mkSt (List.repeat Str.nl j ++ p) tl caps)
      else None.
Proof.
  induction j as [|j IH]; intros fuel cnt p tl caps Htl Hf.
  - rewrite Nat.add_0_r. cbn [List.repeat app].
    assert (Hiter : forall k,
               Regex.m (Regex.RSet false [Regex.IChar Str.nl]) k (Regex.mkSt p tl caps) = None).
    { intros k. destruct Htl as [-> | (c & tl' & -> & Hc)]; [reflexivity|].
      cbn [Regex.m Regex.step1 Regex.rest Regex.in_set Regex.in_item existsb xorb].
      rewrite Hc. reflexivity. }
    destruct fuel; cbn [Regex.quant_loop Regex.below]; rewrite Hiter; reflexivity.
  - destruct fuel as [|fuel]; [lia|].
    assert (Hstep : forall k,
               Regex.m (Regex.RSet false [Regex.IChar Str.nl]) k
                 (Regex.mkSt p (List.repeat Str.nl (S j) ++ tl) caps)
               = k (Regex.mkSt (Str.nl :: p) (List.repeat Str.nl j ++ tl) caps)).
    { intros k. cbn [List.repeat app Regex.m Regex.step1 Regex.rest Regex.pre Regex.caps
                       Regex.in_set Regex.in_item existsb xorb].
      now rewrite ceq_refl. }
    specialize (IH fuel (S cnt) (Str.nl :: p) tl caps Htl ltac:(lia)).
    set (ma := Regex.m (Regex.RSet false [Regex.IChar Str.nl])) in *.
    cbn [Regex.quant_loop Regex.below]. rewrite Hstep.
    cbn [Regex.rest].
    replace (length (List.repeat Str.nl j ++ tl)
             =? length (List.repeat Str.nl (S j) ++ tl)) with false
      by (symmetry; apply Nat.eqb_neq; simpl; lia).
    rewrite andb_false_r, IH.
    replace (cnt + S j) with (S cnt + j) by lia.
    destruct (3 <=? S cnt + j) eqn:E3.
    + cbn [Regex.orelse List.repeat app]. now rewrite repeat_shift.
    + cbn [Regex.orelse]. apply Nat.leb_gt in E3.
      replace (3 <=? cnt) with false by (symmetry; apply Nat.leb_gt; lia).
      reflexivity.
Qed.

Lemma re_blank_run_pattern :
  Base.re_blank_run = Regex.RQuant true 3 None (Regex.RSet false [Regex.IChar Str.nl]).
Proof. vm_compute. reflexivity. Qed.

Lemma blank_run_here (p tl : str) (j : nat) :
  solid_start tl ->
  Regex.match_here Base.re_blank_run p (List.repeat Str.nl j ++ tl)
  = if 3 <=? j then Some (Regex.mkSt (List.repeat Str.nl j ++ p) tl []) else None.
Proof.
  intros H. unfold Regex.match_here. rewrite re_blank_run_pattern.
  cbn [Regex.m Regex.rest]. rewrite quant_newlines; [reflexivity | exact H |].
  rewrite length_app, repeat_length. lia.
Qed.

Lemma skipped_step (r : Regex.re) (c : ascii) (p rst : str) (f : Regex.found) :
  Regex.search r (c :: p) rst = Some f ->
  Regex.skipped p f = c :: Regex.skipped (c :: p) f.
Proof.
  intros E. destruct (search_sound _ _ _ E) as (sk & s1 & _ & Eb & Es & _).
  rewrite Es. unfold Regex.skipped. rewrite Eb.
  replace (rev sk ++ c :: p) with ((rev sk ++ [c]) ++ p) by now rewrite <- app_assoc.
  rewrite length_app.
  replace (length (rev sk ++ [c]) + length p - length p) with (length (rev sk ++ [c]) + 0)
    by lia.
  rewrite firstn_app_2. cbn [firstn]. rewrite app_nil_r, rev_app_distr, rev_involutive.
  reflexivity.
Qed.

(** Where the pattern does not match at the current position, the
    replacement copies the character and goes on behind it. *)
Lemma replace_loop_skip (r : Regex.re) (fn : Regex.found -> str) (fuel : nat)
      (c : ascii) (p rst : str) :
  Regex.match_here r p (c :: rst) = None ->
  Regex.replace_loop r fn (S fuel) p (c :: rst)
  = c :: Regex.replace_loop r fn (S fuel) (c :: p) rst.
Proof.
  intros H. cbn [Regex.replace_loop Regex.search]. rewrite H.
  destruct (Regex.search r (c :: p) rst) as [f|] eqn:E; [|reflexivity].
  now rewrite (skipped_step _ _ _ _ E).
Qed.

Lemma collapse_from_solid (run : nat) (tl : str) :
  solid_start tl -> Fmt.collapse_from run tl = Fmt.collapse_from 0 tl.
Proof.
  intros [-> | (c & tl' & -> & Hc)]; [reflexivity|]. simpl. now rewrite Hc.
Qed.

Lemma collapse_from_run (j : nat) :
  forall run tl,
    solid_start tl ->
    Fmt.collapse_from run (List.repeat Str.nl j ++ tl)
    = List.repeat Str.nl (Nat.min j (2 - run)) ++ Fmt.collapse_from 0 tl.
Proof.
  induction j as [|j IH]; intros run tl H.
  - simpl. now apply collapse_from_solid.
  - cbn [List.repeat app Fmt.collapse_from]. rewrite ceq_refl.
    rewrite (IH (S run) tl H).
    destruct (run <? 2) eqn:E.
    + apply Nat.ltb_lt in E.
      replace (Nat.min (S j) (2 - run)) with (S (Nat.min j (2 - S run))) by lia.
      reflexivity.
    + apply Nat.ltb_ge in E.
      replace (Nat.min (S j) (2 - run)) with 0 by lia.
      replace (Nat.min j (2 - S run)) with 0 by lia. reflexivity.
Qed.

Lemma blank_run_not_here (p tl : str) :
  solid_start tl -> Regex.match_here Base.re_blank_run p tl = None.
Proof. intros H. exact (@blank_run_here p tl 0 H). Qed.

Lemma replace_blank_runs (fn : Regex.found -> str) :
  (forall f, fn f = [Str.nl; Str.nl]) ->
  forall n rst, length rst <= n ->
  forall p fuel, length rst < fuel ->
    Regex.replace_loop Base.re_blank_run fn fuel p rst = Fmt.collapse_from 0 rst.
Proof.
  intros Hfn. induction n as [|n IH]; intros rst Hn p fuel Hf.
  - destruct rst; [|simpl in Hn; lia].
    destruct fuel; [lia|]. cbn [Regex.replace_loop Regex.search].
    rewrite (@blank_run_not_here p []) by now left. reflexivity.
  - destruct (newline_run rst) as (j & tl & E & Htl).
    destruct fuel as [|fuel]; [lia|].
    destruct j as [|j].
    + simpl in E. subst rst.
      destruct Htl as [-> | (c & tl' & -> & Hc)].
      * cbn [Regex.replace_loop Regex.search].
        rewrite (@blank_run_not_here p []) by now left. reflexivity.
      * rewrite replace_loop_skip
          by (apply blank_run_not_here; right; eauto).
        rewrite (IH tl') by (simpl in *; lia).
        simpl. now rewrite Hc.
    + destruct (3 <=? S j) eqn:E3.
      * (* a run of three or more: one match, replaced by two newlines *)
        subst rst. cbn [List.repeat app]. cbn [Regex.replace_loop Regex.search].
        change (Str.nl :: List.repeat Str.nl j ++ tl)
          with (List.repeat Str.nl (S j) ++ tl).
        rewrite (@blank_run_here p tl (S j) Htl), E3.
        unfold Regex.mk_found. cbn [Regex.pre Regex.rest Regex.caps].
        assert (Hm : rev (firstn (length (List.repeat Str.nl (S j) ++ p) - length p)
                            (List.repeat Str.nl (S j) ++ p))
                     = Str.nl :: List.repeat Str.nl j).
        { rewrite length_app.
          replace (length (List.repeat Str.nl (S j)) + length p - length p)
            with (length (List.repeat Str.nl (S j)) + 0) by lia.
          rewrite firstn_app_2. cbn [firstn]. rewrite app_nil_r, rev_repeat.
          reflexivity. }
        rewrite Hm.
        unfold Regex.skipped. cbn [Regex.before_rev Regex.matched Regex.after].
        rewrite Nat.sub_diag. cbn [firstn rev app].
        rewrite Hfn.
        rewrite (IH tl) by (rewrite length_app, repeat_length in *; simpl in *; lia).
        rewrite (@collapse_from_run (S j) 0 tl Htl).
        apply Nat.leb_le in E3.
        replace (Nat.min (S j) (2 - 0)) with 2 by lia. reflexivity.
      * (* a run of one or two: copied *)
        apply Nat.leb_gt in E3. subst rst.
        cbn [List.repeat app].
        rewrite replace_loop_skip.
        2:{ change (Str.nl :: List.repeat Str.nl j ++ tl)
              with (List.repeat Str.nl (S j) ++ tl).
            rewrite (@blank_run_here p tl (S j) Htl).
            replace (3 <=? S j) with false by (symmetry; apply Nat.leb_gt; lia).
            reflexivity. }
        rewrite (IH (List.repeat Str.nl j ++ tl)) by (simpl in *; lia).
        cbn [Fmt.collapse_from]. rewrite ceq_refl. cbn [Nat.ltb Nat.leb].
        rewrite (@collapse_from_run j 0 tl Htl), (@collapse_from_run j 1 tl Htl).
        replace (Nat.min j (2 - 0)) with j by lia.
        replace (Nat.min j (2 - 1)) with j by lia. reflexivity.
Qed.

(** [text.replace(/\n{3,}/g, '\n\n')], computed by the matcher from the
    source pattern, keeps of every run of newlines its first two. *)
Lemma replace_all_blank_runs (s : str) :
  Regex.replace_all Base.re_blank_run [Str.nl; Str.nl] s = Fmt.collapse s.
Proof.
  unfold Regex.replace_all, Regex.replace_all_fn, Fmt.collapse.
  apply (@replace_blank_runs _ (fun f => eq_refl) (length s)); lia.
Qed.

(** ** The emitter *)

(** X9.  [astToCode] never returns three newlines in a row, whatever the nodes
    emit, and for a tree without nodes it returns the empty text. *)
Theorem astToCode_no_blank_runs (c : Converter) (ast : Program) :
  has_triple_newline (Base.astToCode c ast) = false
  /\ Base.astToCode c ast = Fmt.collapse (Base.emit_nodes c (prog_body ast))
  /\ Base.astToCode c (mkProgram [] (sourceLanguage ast) (originalCode ast) (metadata ast))
     = [].
Proof.
  unfold Base.astToCode. rewrite !replace_all_blank_runs.
  split; [apply collapse_no_triple|]. split; reflexivity.
Qed.

Lemma emit_nodes_concat (c : Converter) (nodes : list Node) :
  Forall (fun n => is_definition_node n = false) (tl nodes) ->
  Base.emit_nodes c nodes = concat (map (Base.nodeToCode c) nodes).
Proof.
  induction nodes as [|n rest IH]; intros H; [reflexivity|].
  cbn [Base.emit_nodes map concat tl] in *.
  destruct rest as [|n' rest].
  - cbn [hd_error Base.needsLineBreak]. rewrite andb_false_r. reflexivity.
  - inversion H as [|? ? Hn' Hrest]; subst.
    cbn [hd_error Base.needsLineBreak].
    unfold is_definition_node in Hn'. rewrite Hn', andb_false_r.
    rewrite IH; [reflexivity|].
    destruct rest; [constructor | exact Hrest].
Qed.

(** X10.  [astToCode] puts a line break between two nodes only in front of a
    function or class definition.  Where no node after the first is one,
    the texts of the nodes follow each other with nothing in between:
    the statements of two source lines are emitted on one line. *)
Theorem astToCode_joins_nodes (c : Converter) (ast : Program) :
  Forall (fun n => is_definition_node n = false) (tl (prog_body ast)) ->
  Base.astToCode c ast
  = Fmt.collapse (concat (map (Base.nodeToCode c) (prog_body ast))).
Proof.
  intros H. unfold Base.astToCode.
  now rewrite replace_all_blank_runs, emit_nodes_concat.
Qed.

(** The theorem at two call statements emitted by the Kotlin converter. *)
Lemma astToCode_joins_nodes_witness :
  Base.astToCode (converter_of kotlin) two_statements = L "foo()bar()".
Proof.
  rewrite (@astToCode_joins_nodes (converter_of kotlin) two_statements).
  - vm_compute. reflexivity.
  - repeat constructor.
Defined.

(** ** Conversions into Python *)

(** X11.  With Python as the target the tree is not used.  For a source that is
    not blank in any other language, the call returns the text that the
    Python-to-JavaScript line translator makes of the comment-free source,
    formatted once more by the Python converter, with the warnings of the
    source converter; it fails only if that text is empty. *)
Theorem convertCode_to_python (sourceCode : str) (lf : Lang) :
  Str.trim sourceCode <> [] -> lf <> python ->
  let clean := cleanCode (Base.extractCommentsWithContext (converter_of lf) sourceCode) in
  let code := Python.formatCode (Python.convertPythonToJS clean) in
  convertCode sourceCode (tag lf) (L "python")
  = mkRun (if Str.truthy code
           then Returned code (This.validateSyntax (converter_of lf) sourceCode)
           else Raised (L "Conversion failed: Code formatting failed - invalid output"))
          [ParseStage; GenerateStage; FormatStage].
Proof.
  intros Hs Hl. cbv zeta.
  destruct (base_parseToAST_returns sourceCode Hl) as (body & E).
  unfold convertCode.
  destruct (Str.truthy (Str.trim sourceCode)) eqn:Et;
    [|apply trim_truthy in Et; contradiction].
  cbn [negb].
  assert (Ee : Str.eqb (tag lf) (L "python") = false).
  { apply eqb_neq. intros H. apply (@tag_injective lf python) in H. contradiction. }
  rewrite Ee.
  rewrite (proj2 (CONVERTERS_class (tag lf) lf) eq_refl).
  rewrite (proj2 (CONVERTERS_class (L "python") python) eq_refl).
  rewrite E, app_nil_r.
  cbn [generateFromAST]. unfold Python.generateFromAST. cbn [originalCode].
  change (formatCode python) with Python.formatCode.
  destruct (Str.truthy (Python.formatCode _)); reflexivity.
Qed.

(** The theorem at a JavaScript line with a comment. *)
Lemma convertCode_to_python_witness :
  let clean := cleanCode (Base.extractCommentsWithContext (converter_of javascript)
                            (L "let a = 1; // one")) in
  let code := Python.formatCode (Python.convertPythonToJS clean) in
  convertCode (L "let a = 1; // one") (tag javascript) (L "python")
  = mkRun (if Str.truthy code
           then Returned code
                  (This.validateSyntax (converter_of javascript) (L "let a = 1; // one"))
           else Raised (L "Conversion failed: Code formatting failed - invalid output"))
          [ParseStage; GenerateStage; FormatStage].
Proof.
  apply (@convertCode_to_python (L "let a = 1; // one") javascript).
  - vm_compute. discriminate.
  - discriminate.
Defined.

(** ** [normalizeIndentation] *)

Lemma fold_min_le (xs : list nat) :
  forall x, fold_left Nat.min xs x <= x
            /\ (forall y, In y xs -> fold_left Nat.min xs x <= y)
            /\ (fold_left Nat.min xs x = x \/ In (fold_left Nat.min xs x) xs).
Proof.
  induction xs as [|a xs IH]; intros x; simpl.
  - repeat split; auto. intros y [].
  - destruct (IH (Nat.min x a)) as (H1 & H2 & H3). repeat split.
    + lia.
    + intros y [<- | Hy]; [lia | now apply H2].
    + destruct H3 as [H3 | H3]; [|auto].
      rewrite H3. destruct (Nat.min_spec x a) as [[_ ->] | [_ ->]]; auto.
Qed.

Lemma least_spec (xs : list nat) (m : nat) :
  Utility.least xs = Some m -> In m xs /\ forall y, In y xs -> m <= y.
Proof.
  destruct xs as [|x xs]; [discriminate|]. simpl. intros H. injection H as <-.
  destruct (fold_min_le xs x) as (H1 & H2 & H3). split.
  - destruct H3 as [-> | H3]; auto.
  - intros y [<- | Hy]; auto.
Qed.

Lemma least_zero (xs : list nat) : In 0 xs -> Utility.least xs = Some 0.
Proof.
  intros H. destruct (Utility.least xs) as [m|] eqn:E.
  - apply least_spec in E as [_ E]. specialize (E 0 H). f_equal. lia.
  - destruct xs; [destruct H | discriminate].
Qed.

Lemma leading_split (l : str) :
  exists w, l = w ++ Str.trimStart l /\ all_ws w = true /\ leading l = length w.
Proof.
  destruct (trimStart_split l) as (w & E & H). exists w. repeat split; auto.
  unfold leading. rewrite E at 1. rewrite length_app. lia.
Qed.

Lemma all_ws_skipn (k : nat) (w : str) : all_ws w = true -> all_ws (skipn k w) = true.
Proof.
  intros H. rewrite <- (firstn_skipn k w) in H. rewrite all_ws_app in H.
  now apply andb_prop in H as [_ H].
Qed.

Lemma trim_all_ws (w : str) : all_ws w = true -> Str.trim w = [].
Proof. intros H. unfold Str.trim. now rewrite (trimStart_ws _ H). Qed.

Lemma trimStart_idem (l : str) : Str.trimStart (Str.trimStart l) = Str.trimStart l.
Proof.
  induction l as [|c l IH]; [reflexivity|]. simpl.
  destruct (Str.is_ws c) eqn:E; [exact IH|]. simpl. now rewrite E.
Qed.

Lemma trim_trimStart (l : str) : Str.trim (Str.trimStart l) = Str.trim l.
Proof. unfold Str.trim. now rewrite trimStart_idem. Qed.

(** Cutting no more than the leading white space keeps the trimmed text
    and shortens the leading white space by what was cut. *)
Lemma skipn_leading (k : nat) (l : str) :
  k <= leading l ->
  Str.trim (skipn k l) = Str.trim l
  /\ (Str.trim l <> [] -> leading (skipn k l) = leading l - k).
Proof.
  intros Hk. destruct (leading_split l) as (w & E & Hw & Hl).
  rewrite Hl in *.
  assert (Es : skipn k l = skipn k w ++ Str.trimStart l).
  { rewrite E at 1. rewrite skipn_app.
    replace (k - length w) with 0 by lia. reflexivity. }
  assert (Hw' : all_ws (skipn k w) = true) by now apply all_ws_skipn.
  split.
  - rewrite Es.
    rewrite <- (app_nil_r (Str.trimStart l)) at 1.
    rewrite (@trim_ws_around (skipn k w) (Str.trimStart l) [] Hw' eq_refl).
    apply trim_trimStart.
  - intros Hn. unfold leading at 1. rewrite Es, trimStart_app, Hw', trimStart_idem.
    rewrite length_app, length_skipn. lia.
Qed.

Lemma blank_lines_filter (ls : list str) :
  Utility.with_text ls = [] -> forall l, In l ls -> Str.trim l = [].
Proof.
  unfold Utility.with_text. intros H l Hl. destruct (Str.truthy (Str.trim l)) eqn:E.
  - assert (Hin : In l (filter (fun l => Str.truthy (Str.trim l)) ls))
      by (apply filter_In; auto).
    rewrite H in Hin. destruct Hin.
  - now apply trim_truthy.
Qed.

(** The least indentation of the lines with text, as [minIndent] has it
    when the call returns. *)
Lemma least_None (ls : list str) :
  Utility.least (map leading (Utility.with_text ls)) = None ->
  forall l, In l ls -> Str.trim l = [].
Proof.
  intros H. apply blank_lines_filter.
  destruct (Utility.with_text ls); [reflexivity | discriminate].
Qed.

Lemma least_Some (ls : list str) (k : nat) :
  Utility.least (map leading (Utility.with_text ls)) = Some k ->
  (exists l, In l ls /\ Str.trim l <> [] /\ leading l = k)
  /\ forall l, In l ls -> Str.trim l <> [] -> k <= leading l.
Proof.
  intros H. apply least_spec in H as [Hin Hle]. split.
  - apply in_map_iff in Hin as (l & El & Hl). apply filter_In in Hl as [Hl Ht].
    exists l. repeat split; auto. intros E. rewrite E in Ht. discriminate.
  - intros l Hl Ht. apply Hle. apply in_map. apply filter_In. split; [exact Hl|].
    now apply truthy_nonempty.
Qed.

(** What a line becomes: its trimmed text stays. *)
Lemma slice_from_trim (ls : list str) (l : str) :
  In l ls ->
  Str.trim (Utility.slice_from (Utility.least (map leading (Utility.with_text ls))) l)
  = Str.trim l.
Proof.
  intros Hl. destruct (Utility.least _) as [k|] eqn:E; simpl.
  - destruct (Str.trim l) as [|c t] eqn:Et.
    + apply trim_empty_ws in Et. apply trim_all_ws. now apply all_ws_skipn.
    + rewrite <- Et. apply skipn_leading.
      apply (proj2 (least_Some _ E) l Hl). rewrite Et. discriminate.
  - symmetry. exact (least_None _ E l Hl).
Qed.

(** [normalizeIndentation] throws exactly when the lines with text are
    more than a call may have arguments, and returns the sliced lines
    otherwise. *)
Lemma normalizeIndentation_cases (maxArguments : nat) (code : str) :
  let ls := Str.lines code in
  if maxArguments <? length (Utility.with_text ls)
  then Utility.normalizeIndentation maxArguments code = Utility.RangeError
  else Utility.normalizeIndentation maxArguments code
       = Utility.Value
           (Str.unlines
              (map (Utility.slice_from (Utility.least (map leading (Utility.with_text ls))))
                   ls)).
Proof.
  cbv zeta. unfold Utility.normalizeIndentation, Utility.minIndent, Utility.min_of.
  pose proof (lines_nonempty code) as Hn. rewrite length_map.
  destruct (Str.lines code) as [|l0 ls] eqn:E; [congruence|].
  destruct (maxArguments <? _); reflexivity.
Qed.

Lemma sliced_lines (code : str) :
  let ls := Str.lines code in
  let sliced :=
    map (Utility.slice_from (Utility.least (map leading (Utility.with_text ls)))) ls in
  Str.lines (Str.unlines sliced) = sliced.
Proof.
  cbv zeta.
  pose proof (lines_nonempty code) as Hn. pose proof (lines_one_line code) as H1.
  destruct (Str.lines code) as [|l0 ls] eqn:E; [congruence|].
  apply lines_unlines; [discriminate|].
  apply Forall_forall. intros x Hx. apply in_map_iff in Hx as (l & <- & Hl).
  assert (Hol : one_line l) by (eapply Forall_forall in H1; eauto).
  destruct (Utility.least _); simpl; [now apply one_line_skipn | constructor].
Qed.

Lemma with_text_trim (xs ys : list str) :
  map Str.trim xs = map Str.trim ys ->
  length (Utility.with_text xs) = length (Utility.with_text ys).
Proof.
  revert ys; induction xs as [|x xs IH]; intros [|y ys] H; simpl in *;
    try discriminate; [reflexivity|].
  injection H as Hx Hr. rewrite Hx. destruct (Str.truthy (Str.trim y)); simpl;
    [f_equal|]; now apply IH.
Qed.

(** X12.  [normalizeIndentation] throws the [RangeError] of its spread
    call exactly when the source has more lines with text than a call may
    have arguments.  When it returns, the result has the lines of the
    source in number and, line by line, in trimmed text: only white space
    at the front of lines is taken away. *)
Theorem normalizeIndentation_keeps_text (maxArguments : nat) (code : str) :
  match Utility.normalizeIndentation maxArguments code with
  | Utility.RangeError =>
      maxArguments < length (Utility.with_text (Str.lines code))
  | Utility.Value out =>
      length (Utility.with_text (Str.lines code)) <= maxArguments
      /\ map Str.trim (Str.lines out) = map Str.trim (Str.lines code)
      /\ length (Str.lines out) = length (Str.lines code)
  end.
Proof.
  pose proof (normalizeIndentation_cases maxArguments code) as H. cbv zeta in H.
  destruct (maxArguments <? _) eqn:E; rewrite H.
  - now apply Nat.ltb_lt in E.
  - apply Nat.ltb_ge in E. split; [exact E|].
    rewrite (sliced_lines code). split; [|apply length_map].
    rewrite map_map. apply map_ext_in. intros l Hl. now apply slice_from_trim.
Qed.

Lemma slice_from_fixed (ls : list str) :
  let n1 := map (Utility.slice_from (Utility.least (map leading (Utility.with_text ls)))) ls in
  map (Utility.slice_from (Utility.least (map leading (Utility.with_text n1)))) n1 = n1.
Proof.
  cbv zeta. destruct (Utility.least (map leading (Utility.with_text ls))) as [k|] eqn:E.
  - destruct (least_Some _ E) as ((l0 & Hl0 & Ht0 & Hk0) & Hle).
    assert (H0 : Utility.least
                   (map leading (Utility.with_text (map (Utility.slice_from (Some k)) ls)))
                 = Some 0).
    { apply least_zero.
      apply in_map_iff. exists (skipn k l0).
      destruct (@skipn_leading k l0 ltac:(lia)) as [Ht Hl].
      split; [rewrite (Hl Ht0); lia|].
      apply filter_In. split.
      - apply in_map_iff. exists l0. auto.
      - rewrite Ht. now apply truthy_nonempty. }
    rewrite H0. rewrite <- (map_id (map _ ls)) at 2.
    apply map_ext. reflexivity.
  - rewrite map_map. apply map_ext. intros l. cbn [Utility.slice_from].
    match goal with
    | |- Utility.slice_from ?o [] = [] => destruct o
    end; simpl; [apply skipn_nil | reflexivity].
Qed.

(** X13.  [normalizeIndentation] is idempotent where it returns: applied
    to a text it returned, it returns that text again (it does not throw,
    the lines with text being as many as before, and it finds nothing
    left to take away). *)
Theorem normalizeIndentation_idempotent (maxArguments : nat) (code out : str) :
  Utility.normalizeIndentation maxArguments code = Utility.Value out ->
  Utility.normalizeIndentation maxArguments out = Utility.Value out.
Proof.
  intros H.
  pose proof (normalizeIndentation_cases maxArguments code) as Hc. cbv zeta in Hc.
  destruct (maxArguments <? length (Utility.with_text (Str.lines code))) eqn:E;
    rewrite Hc in H; [discriminate|].
  injection H as <-.
  pose proof (sliced_lines code) as Hs. cbv zeta in Hs.
  pose proof (normalizeIndentation_cases maxArguments
                (Str.unlines
                   (map (Utility.slice_from
                           (Utility.least (map leading (Utility.with_text (Str.lines code)))))
                        (Str.lines code)))) as Hc2.
  cbv zeta in Hc2. rewrite Hs in Hc2.
  assert (Hn : length (Utility.with_text
                         (map (Utility.slice_from
                                 (Utility.least
                                    (map leading (Utility.with_text (Str.lines code)))))
                              (Str.lines code)))
               = length (Utility.with_text (Str.lines code))).
  { apply with_text_trim. rewrite map_map. apply map_ext_in.
    intros l Hl. now apply slice_from_trim. }
  rewrite Hn, E in Hc2. rewrite Hc2.
  now rewrite (slice_from_fixed (Str.lines code)).
Qed.

(** X13 on two indented lines, for an engine that takes a thousand
    arguments. *)
Lemma normalizeIndentation_idempotent_witness :
  Utility.normalizeIndentation 1000 (L "  a" ++ NL ++ L "    b")
  = Utility.Value (L "a" ++ NL ++ L "  b")
  /\ Utility.normalizeIndentation 1000 (L "a" ++ NL ++ L "  b")
     = Utility.Value (L "a" ++ NL ++ L "  b").
Proof.
  assert (H : Utility.normalizeIndentation 1000 (L "  a" ++ NL ++ L "    b")
              = Utility.Value (L "a" ++ NL ++ L "  b")) by (vm_compute; reflexivity).
  split; [exact H|].
  exact (@normalizeIndentation_idempotent 1000 _ _ H).
Defined.

(** ** The lines of formatted code *)

Lemma lines_after_newlines (k : nat) (u x : str) :
  In x (Str.lines u) -> In x (Str.lines (List.repeat Str.nl k ++ u)).
Proof.
  intros H. induction k as [|k IH]; [exact H|].
  cbn [List.repeat app]. rewrite lines_cons_nl. now right.
Qed.

Lemma lines_before_newlines (k : nat) (b x : str) :
  In x (Str.lines b) -> In x (Str.lines (b ++ List.repeat Str.nl k)).
Proof.
  intros H. destruct k as [|k]; [now rewrite app_nil_r|].
  cbn [List.repeat]. rewrite lines_app_nl. apply in_or_app. now left.
Qed.

(** The closing replacements of [formatCode] make no new line of text:
    a line of the result is empty or a line of what went in. *)
Lemma finish_lines_in (s x : str) :
  In x (Str.lines (Fmt.finish s)) -> x = [] \/ In x (Str.lines s).
Proof.
  unfold Fmt.finish, Fmt.one_trailing.
  set (u := Fmt.strip_leading (Fmt.collapse s)).
  set (b := rev (Fmt.strip_leading (rev u))).
  rewrite lines_app_nl. intros H. apply in_app_or in H as [H | H].
  - right.
    assert (Hu : In x (Str.lines u)).
    { destruct (strip_leading_split (rev u)) as [k E].
      assert (Eu : u = b ++ List.repeat Str.nl k).
      { rewrite <- (rev_involutive u), E, rev_app_distr, rev_repeat. reflexivity. }
      rewrite Eu. now apply lines_before_newlines. }
    assert (Hv : In x (Str.lines (Fmt.collapse s))).
    { destruct (strip_leading_split (Fmt.collapse s)) as [k E].
      rewrite E. now apply lines_after_newlines. }
    apply (@collapse_lines_in s 0 [] x); [lia | exact Hv].
  - left. destruct H as [H | []]. now symmetry.
Qed.

Lemma one_line_repeat (u : str) (k : nat) : one_line u -> one_line (Str.repeat u k).
Proof.
  intros H. induction k as [|k IH]; [constructor|]. simpl. now apply one_line_app.
Qed.

Lemma step_shape (r : Fmt.Rules) (st : Fmt.State) (ln : str) :
  one_line (Fmt.unit r) -> one_line ln ->
  Forall (fun x => one_line x /\ line_shape r x) (Fmt.formatted st) ->
  Forall (fun x => one_line x /\ line_shape r x) (Fmt.formatted (Fmt.step r st ln)).
Proof.
  intros Hu Hl H. unfold Fmt.step.
  destruct (Str.truthy (Str.trim ln)) eqn:Et; cbn [negb].
  - destruct (Fmt.skips r (Str.trim ln)) eqn:Es; [exact H|].
    cbn [Fmt.formatted]. constructor; [|exact H]. split.
    + apply one_line_app; [now apply one_line_repeat | now apply one_line_trim].
    + right. eexists; eexists. split; [reflexivity|].
      repeat split; auto using trim_idempotent.
      intros E. rewrite E in Et. discriminate.
  - destruct (Fmt.last_nonblank (Fmt.formatted st)); [|exact H].
    cbn [Fmt.formatted]. constructor; [|exact H]. split; [constructor | now left].
Qed.

Lemma run_shape (r : Fmt.Rules) (lines : list str) :
  one_line (Fmt.unit r) -> Forall one_line lines ->
  Forall (fun x => one_line x /\ line_shape r x) (Fmt.formatted (Fmt.run r lines)).
Proof.
  intros Hu Hl. unfold Fmt.run.
  assert (H0 : Forall (fun x => one_line x /\ line_shape r x) (Fmt.formatted Fmt.init))
    by constructor.
  revert H0. generalize Fmt.init.
  induction Hl as [|ln lines Hln _ IH]; intros st H0; [exact H0|].
  simpl. apply IH. now apply step_shape.
Qed.

Lemma layout_line_shape (r : Fmt.Rules) (pre x : str) :
  one_line (Fmt.unit r) -> In x (Str.lines (Fmt.layout r pre)) -> line_shape r x.
Proof.
  intros Hu H. unfold Fmt.layout in H.
  apply finish_lines_in in H as [-> | H]; [now left|].
  pose proof (@run_shape r (Str.lines pre) Hu (lines_one_line pre)) as Hs.
  set (f := Fmt.formatted (Fmt.run r (Str.lines pre))) in *.
  destruct (rev f) as [|y ys] eqn:Er.
  - simpl in H. destruct H as [<- | []]. now left.
  - rewrite <- Er in H. rewrite lines_unlines in H.
    + apply in_rev in H. eapply Forall_forall in Hs; eauto. apply Hs.
    + rewrite Er. discriminate.
    + apply Forall_rev. eapply Forall_impl; [|exact Hs]. intros a [Ha _]. exact Ha.
Qed.

(** X14.  Every line of the output of a [formatCode] that ends with the
    indentation loop (all but JavaScript's, and Rust's, which goes on to
    restore its placeholders) is empty or consists of a whole number of
    indentation units followed by a text without white space at either
    end; no line is one the loop skips, such as a lone semicolon.  The
    unit is two spaces for TypeScript, a tab for Go and four spaces for
    the others. *)
Theorem formatCode_line_shape (l : Lang) (r : Fmt.Rules) (code x : str) :
  rules_of l = Some r -> l <> rust ->
  In x (Str.lines (formatCode l code)) ->
  Fmt.unit r = match l with
               | typescript => L "  "
               | go => [Str.ch 9]
               | _ => L "    "
               end
  /\ (x = []
      \/ exists k t, x = Str.repeat (Fmt.unit r) k ++ t
                     /\ t <> [] /\ Str.trim t = t /\ Fmt.skips r t = false).
Proof.
  intros Hr Hl Hx.
  assert (Hu : Fmt.unit r = match l with
                            | typescript => L "  "
                            | go => [Str.ch 9]
                            | _ => L "    "
                            end)
    by (destruct l; inversion Hr; reflexivity).
  split; [exact Hu|].
  destruct code as [|c code].
  - replace (formatCode l []) with (@nil ascii) in Hx by (destruct l; reflexivity).
    destruct Hx as [<- | []]. now left.
  - assert (E : formatCode l (c :: code) = Fmt.layout r (preprocess_of l (c :: code))).
    { destruct l; try discriminate Hr; try (exfalso; apply Hl; reflexivity);
        injection Hr as <-; reflexivity. }
    rewrite E in Hx. apply layout_line_shape in Hx; [exact Hx|].
    rewrite Hu. destruct l; repeat constructor.
Qed.

(** The theorem at a line of the Kotlin formatter's output. *)
Lemma formatCode_line_shape_witness :
  Fmt.unit Kotlin.rules = L "    "
  /\ (L "    g()" = []
      \/ exists k t, L "    g()" = Str.repeat (Fmt.unit Kotlin.rules) k ++ t
                     /\ t <> [] /\ Str.trim t = t /\ Fmt.skips Kotlin.rules t = false).
Proof.
  apply (@formatCode_line_shape kotlin Kotlin.rules small_block (L "    g()")).
  - reflexivity.
  - discriminate.
  - vm_compute. auto.
Defined.

(** ** The line translator of the Python converter *)

Lemma endsWith_true (s : str) (c : ascii) :
  Str.endsWith s [c] = true -> exists s', s = s' ++ [c].
Proof.
  unfold Str.endsWith. simpl rev. intros H.
  destruct (rev s) as [|d r] eqn:E; [discriminate|].
  rewrite startsWith_one in H. apply ceq_eq in H. subst d.
  exists (rev r). rewrite <- (rev_involutive s), E. reflexivity.
Qed.

(** A text that ends with a character other than white space and the
    closing brace is no closing line, whatever stands before it. *)
Lemma not_closer (s' : str) (c : ascii) :
  Str.is_ws c = false -> c <> "}"%char -> is_closer (s' ++ [c]) = false.
Proof.
  intros Hw Hc. unfold is_closer. apply eqb_neq. intros E.
  destruct (trimStart_split (s' ++ [c])) as (a & Ea & _).
  destruct (trimEnd_split (Str.trimStart (s' ++ [c]))) as (b & Eb & Hb).
  fold (Str.trim (s' ++ [c])) in Eb. rewrite E in Eb. rewrite Eb in Ea.
  destruct (rev b) as [|z rb] eqn:Er.
  - assert (b = []) by (rewrite <- (rev_involutive b), Er; reflexivity). subst b.
    rewrite app_nil_r in Ea.
    apply app_inj_tail in Ea as [_ Ea]. contradiction.
  - assert (Eb' : b = rev rb ++ [z])
      by (rewrite <- (rev_involutive b), Er; reflexivity).
    rewrite Eb' in Ea, Hb.
    rewrite all_ws_app in Hb. apply andb_prop in Hb as [_ Hz].
    simpl in Hz. rewrite andb_true_r in Hz.
    replace (a ++ L "}" ++ rev rb ++ [z]) with ((a ++ L "}" ++ rev rb) ++ [z]) in Ea
      by (now rewrite <- !app_assoc).
    apply app_inj_tail in Ea as [_ Ea]. congruence.
Qed.

Lemma convertPythonLineToJS_ends (l : str) :
  l <> [] ->
  exists s', Python.convertPythonLineToJS l = s' ++ L "{"
             \/ Python.convertPythonLineToJS l = s' ++ L ";".
Proof.
  intros Hl.
  assert (Hd : exists s', Python.default_line l = s' ++ L ";").
  { unfold Python.default_line.
    destruct (Str.endsWith (Python.convertPythonExpression l) (L ";")) eqn:E;
      [apply endsWith_true in E; exact E | eauto]. }
  assert (Hp : exists s', Python.from_print l = s' ++ L ";").
  { unfold Python.from_print. destruct (Str.startsWith l (L "print(")); [|exact Hd].
    destruct (Regex.exec Python.re_print l); [|exact Hd].
    eexists. change (L ");") with (L ")" ++ L ";"). rewrite !app_assoc. reflexivity. }
  assert (Hr : exists s', Python.from_return l = s' ++ L ";").
  { unfold Python.from_return. destruct (Str.startsWith l (L "return ")); [|exact Hp].
    eexists. rewrite !app_assoc. reflexivity. }
  assert (Hf : exists s', Python.from_for l = s' ++ L "{" \/ Python.from_for l = s' ++ L ";").
  { unfold Python.from_for.
    destruct (_ && _); [|destruct Hr as [s' Hr]; eauto].
    destruct (Regex.exec Python.re_for_range l); [|destruct Hr as [s' Hr]; eauto].
    eexists. left.
    change (L "++) {") with (L "++) " ++ L "{"). rewrite !app_assoc. reflexivity. }
  assert (Hi : exists s', Python.from_if l = s' ++ L "{" \/ Python.from_if l = s' ++ L ";").
  { unfold Python.from_if. destruct (_ && _); [|exact Hf].
    eexists. left.
    change (L ") {") with (L ") " ++ L "{"). rewrite !app_assoc. reflexivity. }
  unfold Python.convertPythonLineToJS.
  rewrite (truthy_nonempty Hl). cbn [negb].
  destruct (_ && _); [|exact Hi].
  destruct (Regex.exec Python.p_function l); [|exact Hi].
  eexists. left.
  change (L ") {") with (L ") " ++ L "{"). rewrite !app_assoc. reflexivity.
Qed.

(** X15.  Every line [convertPythonLineToJS] makes of a line with text ends
    with an opening brace or with a semicolon. *)
Theorem convertPythonLineToJS_terminated (l : str) :
  l <> [] ->
  exists s', Python.convertPythonLineToJS l = s' ++ L "{"
             \/ Python.convertPythonLineToJS l = s' ++ L ";".
Proof. apply convertPythonLineToJS_ends. Qed.

(** The theorem at a [return] statement. *)
Lemma convertPythonLineToJS_terminated_witness :
  exists s', Python.convertPythonLineToJS (L "return None") = s' ++ L "{"
             \/ Python.convertPythonLineToJS (L "return None") = s' ++ L ";".
Proof. apply convertPythonLineToJS_terminated. discriminate. Defined.

Lemma all_ws_spaces (n : nat) : all_ws (Str.repeat (L " ") n) = true.
Proof. induction n as [|n IH]; [reflexivity|]. simpl. exact IH. Qed.

Lemma closing_line_closer (ind : nat) : is_closer (Python.addIndent (L "}") ind) = true.
Proof.
  unfold is_closer, Python.addIndent.
  change (negb (Str.truthy (Str.trim (L "}")))) with false. cbv iota.
  rewrite <- (app_nil_r (L "}")).
  rewrite (@trim_ws_around (Str.repeat (L " ") ind) (L "}") [] (all_ws_spaces ind) eq_refl).
  reflexivity.
Qed.

Lemma closeBlocksIfNeeded_count (stack : list Python.OpenBlock) (ind : nat) :
  length (fst (Python.closeBlocksIfNeeded stack ind))
  + length (snd (Python.closeBlocksIfNeeded stack ind)) = length stack
  /\ Forall (fun x => is_closer x = true) (fst (Python.closeBlocksIfNeeded stack ind)).
Proof.
  induction stack as [|[ty i] below [IH1 IH2]]; [split; [reflexivity | constructor]|].
  cbn [Python.closeBlocksIfNeeded].
  destruct (ind <=? i).
  - destruct (Python.closeBlocksIfNeeded below ind) as [closed remaining].
    cbn [fst snd length] in *. split; [lia|].
    constructor; [apply closing_line_closer | exact IH2].
  - cbn [fst snd length]. split; [reflexivity | constructor].
Qed.

Lemma converted_line_no_closer (t : str) (ind : nat) :
  t <> [] -> is_closer (Python.addIndent (Python.convertPythonLineToJS t) ind) = false.
Proof.
  intros Ht. unfold Python.addIndent.
  assert (H : forall w, is_closer (w ++ Python.convertPythonLineToJS t) = false).
  { intros w. destruct (@convertPythonLineToJS_ends t Ht) as (s' & [E | E]);
      rewrite E, app_assoc; apply not_closer; (reflexivity || discriminate). }
  destruct (negb _); [exact (H []) | apply H].
Qed.

Lemma count_lines_app (p : str -> bool) (a b : list str) :
  count_lines p (a ++ b) = count_lines p a + count_lines p b.
Proof. unfold count_lines. now rewrite filter_app, length_app. Qed.

Lemma count_lines_all (p : str -> bool) (a : list str) :
  Forall (fun x => p x = true) a -> count_lines p a = length a.
Proof.
  unfold count_lines. induction 1 as [|x a Hx _ IH]; [reflexivity|].
  simpl. rewrite Hx. simpl. now rewrite IH.
Qed.

Lemma count_lines_cons (p : str -> bool) (x : str) (xs : list str) :
  count_lines p (x :: xs) = (if p x then 1 else 0) + count_lines p xs.
Proof. unfold count_lines. simpl. destruct (p x); reflexivity. Qed.

Lemma convert_lines_count (lines : list str) :
  forall stack : list (str * nat),
    length (Python.convert_lines lines stack)
    = length lines + length stack + count_lines opens_block lines
    /\ count_lines is_closer (Python.convert_lines lines stack)
       = length stack + count_lines opens_block lines.
Proof.
  induction lines as [|l rest IH]; intros stack.
  - cbn [Python.convert_lines]. rewrite length_map.
    change (count_lines opens_block []) with 0. cbn [length].
    split; [lia|].
    rewrite count_lines_all; [rewrite length_map; lia|].
    apply Forall_map. apply Forall_forall. intros b _. apply closing_line_closer.
  - cbn [Python.convert_lines]. rewrite (count_lines_cons opens_block l rest).
    cbn [length].
    destruct (Str.truthy (Str.trim l)) eqn:Et; cbn [negb orb].
    + destruct (Str.startsWith (Str.trim l) (L "#")) eqn:Eh.
      * assert (Ho : opens_block l = false)
          by (unfold opens_block; rewrite Et, Eh; reflexivity).
        rewrite Ho. destruct (IH stack) as [IH1 IH2].
        rewrite count_lines_cons. cbn [length].
        replace (is_closer l) with false; [split; lia|].
        symmetry. unfold is_closer. apply eqb_neq. intros E. rewrite E in Eh.
        vm_compute in Eh. discriminate.
      * assert (Ho : opens_block l
                     = Str.endsWith (Str.trim l) (L ":")
                       && match Python.getBlockType (Str.trim l) with
                          | Some _ => true
                          | None => false
                          end)
          by (unfold opens_block; rewrite Et, Eh; reflexivity).
        rewrite Ho.
        pose proof (closeBlocksIfNeeded_count stack (Python.getIndentLevel l)) as [Hc1 Hc2].
        unfold Python.OpenBlock in *.
        destruct (Python.closeBlocksIfNeeded stack (Python.getIndentLevel l))
          as [closed stack1].
        cbn [fst snd] in Hc1, Hc2. cbv beta iota zeta.
        unfold Python.OpenBlock in *.
        assert (Hne : Str.trim l <> []) by (intros E; rewrite E in Et; discriminate).
        match goal with
        | |- context [Python.convert_lines rest ?s] => set (stack2 := s)
        end.
        assert (Hs2 : length stack2
                      = length stack1
                        + (if Str.endsWith (Str.trim l) (L ":")
                              && match Python.getBlockType (Str.trim l) with
                                 | Some _ => true
                                 | None => false
                                 end
                           then 1 else 0)).
        { subst stack2. destruct (Str.endsWith (Str.trim l) (L ":"));
            [|cbn [andb]; lia].
          destruct (Python.getBlockType (Str.trim l)); cbn [andb length]; lia. }
        destruct (IH stack2) as [IH1 IH2].
        rewrite length_app. cbn [length]. rewrite IH1.
        rewrite count_lines_app, count_lines_cons.
        rewrite (converted_line_no_closer _ Hne).
        rewrite IH2, (count_lines_all _ Hc2).
        split; lia.
    + assert (Ho : opens_block l = false)
        by (unfold opens_block; rewrite Et; reflexivity).
      rewrite Ho. destruct (IH stack) as [IH1 IH2].
      rewrite count_lines_cons. cbn [length].
      replace (is_closer l) with false; [split; lia|].
      symmetry. unfold is_closer. apply trim_truthy in Et. now rewrite Et.
Qed.

(** X16.  The loop of [convertPythonToJS] pushes one line for every source line
    and one closing brace for every block it opens: each block on its
    stack is closed once, at the latest when the input ends, and a lone
    closing brace is pushed for no other reason. *)
Theorem convertPythonToJS_closes_blocks (pythonCode : str) :
  let pushed := Python.convert_lines (Str.lines pythonCode) [] in
  length pushed
  = length (Str.lines pythonCode) + count_lines opens_block (Str.lines pythonCode)
  /\ count_lines is_closer pushed = count_lines opens_block (Str.lines pythonCode)
  /\ Python.convertPythonToJS pythonCode = Python.formatCode (Str.unlines pushed).
Proof.
  cbv zeta. destruct (convert_lines_count (Str.lines pythonCode) []) as [H1 H2].
  cbn [length] in H1, H2. rewrite Nat.add_0_r in H1.
  split; [exact H1|]. split; [exact H2 | reflexivity].
Qed.

(** ** Python's own tree *)

Lemma filter_closers (xs : list str) :
  Forall (fun x => is_closer x = true) xs -> filter not_closer_line xs = [].
Proof.
  induction 1 as [|x xs Hx _ IH]; [reflexivity|].
  simpl. unfold not_closer_line at 1. now rewrite Hx.
Qed.

Lemma translated_line_no_closer (ln : str) : is_closer (translated_line ln) = false.
Proof.
  unfold translated_line, python_code_line.
  destruct (Str.truthy (Str.trim ln)) eqn:Et; cbn [andb].
  - destruct (Str.startsWith (Str.trim ln) (L "#")) eqn:Eh; cbn [negb].
    + unfold is_closer. apply eqb_neq. intros E. rewrite E in Eh.
      vm_compute in Eh. discriminate.
    + apply converted_line_no_closer. intros E. rewrite E in Et. discriminate.
  - unfold is_closer. apply trim_truthy in Et. now rewrite Et.
Qed.

Lemma convert_lines_translated (lines : list str) :
  forall stack : list (str * nat),
    filter not_closer_line (Python.convert_lines lines stack) = map translated_line lines.
Proof.
  induction lines as [|l rest IH]; intros stack.
  - cbn [Python.convert_lines map]. apply filter_closers.
    apply Forall_map. apply Forall_forall. intros b _. apply closing_line_closer.
  - cbn [Python.convert_lines map].
    pose proof (translated_line_no_closer l) as Hn.
    unfold translated_line, python_code_line in *.
    destruct (Str.truthy (Str.trim l)) eqn:Et; cbn [negb orb andb] in *.
    + destruct (Str.startsWith (Str.trim l) (L "#")) eqn:Eh; cbn [negb] in *.
      * cbn [filter]. unfold not_closer_line at 1. rewrite Hn. cbn [negb].
        now rewrite IH.
      * pose proof (closeBlocksIfNeeded_count stack (Python.getIndentLevel l)) as [_ Hc].
        unfold Python.OpenBlock in *.
        destruct (Python.closeBlocksIfNeeded stack (Python.getIndentLevel l))
          as [closed stack1].
        cbn [fst] in Hc. cbv beta iota zeta.
        rewrite filter_app, (filter_closers Hc). cbn [app filter].
        unfold not_closer_line at 1. rewrite Hn. cbn [negb].
        now rewrite IH.
    + cbn [filter]. unfold not_closer_line at 1. rewrite Hn. cbn [negb].
      now rewrite IH.
Qed.

(** C9.  For every source text the Python converter's [parseToAST] returns
    a program of exactly one node, an Expression, tagged as JavaScript,
    and records no warning.  The text of the node is the whole input
    translated: the lines the loop of [convertPythonToJS] pushes, joined
    and passed through the Python converter's [formatCode].  The pushed
    lines are, in the order of the source, one for each source line, a
    line of code as [convertPythonLineToJS] translates its trimmed text
    and a blank or comment line as it is, and between them one lone
    closing brace for each block the source opens.  A target converter
    therefore emits from that one text, through its [formatExpression],
    and not from nodes of the Python lines; with Python as the target the
    text is translated once more. *)
Theorem python_parseToAST_single_expression (sourceCode : str) :
  let pushed := Python.convert_lines (Str.lines sourceCode) [] in
  exists (node : Node) (ast : Program),
    parseToAST python sourceCode = Ok (ast, [])
    /\ prog_body ast = [node]
    /\ type node = Expression
    /\ line node = 1
    /\ sourceLanguage ast = L "JavaScript"
    /\ originalLine node = Some (originalCode ast)
    /\ originalCode ast = Python.formatCode (Str.unlines pushed)
    /\ filter not_closer_line pushed = map translated_line (Str.lines sourceCode)
    /\ count_lines is_closer pushed = count_lines opens_block (Str.lines sourceCode)
    /\ forall lt : Lang,
         generateFromAST lt ast =
         match lt with
         | python => Python.convertPythonToJS (originalCode ast)
         | _ => formatCode lt
                  (Fmt.collapse (or_empty (This.formatExpression (converter_of lt) node)))
         end.
Proof.
  cbv zeta.
  exists (Python.whole_program (Python.convertPythonToJS sourceCode)).
  eexists. split; [reflexivity|]. cbn [prog_body sourceLanguage originalCode].
  split; [reflexivity|]. split; [reflexivity|]. split; [reflexivity|].
  split; [reflexivity|]. split; [reflexivity|]. split; [reflexivity|].
  split; [apply convert_lines_translated|].
  split; [apply (convert_lines_count (Str.lines sourceCode) [])|].
  intros lt.
  assert (H : forall c : Converter,
            Base.generateFromAST c
              (mkProgram [Python.whole_program (Python.convertPythonToJS sourceCode)]
                 (L "JavaScript") (Python.convertPythonToJS sourceCode) None)
            = This.formatCode c
                (Fmt.collapse
                   (or_empty (This.formatExpression c
                                (Python.whole_program (Python.convertPythonToJS sourceCode)))))).
  { intros c. unfold Base.generateFromAST, Base.generateCode, Base.astToCode.
    rewrite replace_all_blank_runs. cbn [prog_body Base.emit_nodes].
    rewrite app_nil_r. reflexivity. }
  destruct lt; try exact (H _). reflexivity.
Qed.

(** C9 at a function and a call of it: the one node holds the JavaScript
    function, its closing brace and the call. *)
Lemma python_parseToAST_single_expression_witness :
  exists (node : Node) (ast : Program),
    parseToAST python def_and_call = Ok (ast, [])
    /\ prog_body ast = [node]
    /\ originalLine node
       = Some (L "function f(x) {" ++ NL ++ L "return x;" ++ NL ++ L "}" ++ NL
               ++ L "console.log(f(1));" ++ NL)
    /\ Python.convert_lines (Str.lines def_and_call) []
       = [L "function f(x) {"; L "    return x;"; L "}"; L "console.log(f(1));"].
Proof.
  destruct (python_parseToAST_single_expression def_and_call)
    as (node & ast & E & Hb & _ & _ & _ & Ho & Hc & _).
  exists node, ast. split; [exact E|]. split; [exact Hb|].
  split; [|vm_compute; reflexivity].
  rewrite Ho, Hc. vm_compute. reflexivity.
Defined.

(** ** The handlers of the application *)

Lemma convertCode_message (sourceCode fromLang toLang msg : str) (st : list Stage) :
  convertCode sourceCode fromLang toLang = mkRun (Raised msg) st -> msg <> [].
Proof.
  unfold convertCode. intros H.
  repeat match type of H with
    | (if ?b then _ else _) = _ => destruct b
    | match ?x with _ => _ end = _ => destruct x
    end;
    try discriminate;
    try (injection H as <- _; unfold misuse;
         try match goal with |- context [if ?b then _ else _] => destruct b end;
         discriminate).
Qed.

(** X17.  What [handleConvert] leaves behind.  When the button is enabled (no
    conversion running, a source that is not blank, two different
    languages) the handler ends in one of two states: the converted code,
    not empty, with the warnings and the success message and no error; or
    an error message, not empty, with the converted code, the warnings
    and the success message cleared.  Either way the conversion flag is
    off and the source and the two languages are as they were. *)
Theorem handleConvert_outcome (st : App.State) :
  App.isConvertDisabled st = false ->
  let st' := App.handleConvert st in
  App.isConverting st' = false
  /\ App.sourceCode st' = App.sourceCode st
  /\ App.fromLanguage st' = App.fromLanguage st
  /\ App.toLanguage st' = App.toLanguage st
  /\ ((App.error st' = [] /\ App.convertedCode st' <> []
       /\ App.successMessage st' = L "Code converted successfully!"
       /\ convertCode (App.sourceCode st) (App.fromLanguage st) (App.toLanguage st)
          = mkRun (Returned (App.convertedCode st') (App.warnings st'))
                  [ParseStage; GenerateStage; FormatStage])
      \/ (App.error st' <> [] /\ App.convertedCode st' = []
          /\ App.warnings st' = [] /\ App.successMessage st' = []
          /\ outcome (convertCode (App.sourceCode st) (App.fromLanguage st)
                        (App.toLanguage st))
             = Raised (App.error st'))).
Proof.
  unfold App.isConvertDisabled. intros H.
  apply orb_false_elim in H as [H He]. apply orb_false_elim in H as [_ Hs].
  cbv zeta. unfold App.handleConvert. rewrite Hs, He.
  destruct (convertCode (App.sourceCode st) (App.fromLanguage st) (App.toLanguage st))
    as [[code ws | msg] stg] eqn:E; cbn [outcome App.isConverting App.sourceCode
      App.fromLanguage App.toLanguage App.error App.convertedCode App.warnings
      App.successMessage].
  - repeat split. left.
    destruct (convertCode_returned_parts _ _ _ E) as (Hc & -> & _).
    repeat split; auto.
  - repeat split. right.
    pose proof (convertCode_message _ _ _ E) as Hm.
    unfold App.shown_message. rewrite (truthy_nonempty Hm).
    repeat split; auto.
Qed.

(** The theorem at a state with a JavaScript line to convert to Kotlin. *)
Lemma handleConvert_outcome_witness :
  App.convertedCode (App.handleConvert ready_state) = L "val a = 1;" ++ NL
  /\ App.error (App.handleConvert ready_state) = [].
Proof.
  destruct (@handleConvert_outcome ready_state eq_refl)
    as (_ & _ & _ & _ & [(He & _) | (He & _)]).
  - split; [vm_compute; reflexivity | exact He].
  - exfalso. apply He. vm_compute. reflexivity.
Defined.

(** X18.  [swapLanguages] does nothing while there is no converted code.  With
    converted code it exchanges the two languages and the two texts and
    clears the error and the warnings; done twice on a state whose two
    texts are not empty it gives back the languages and the texts. *)
Theorem swapLanguages_twice (st : App.State) :
  (App.convertedCode st = [] -> App.swapLanguages st = st)
  /\ (App.convertedCode st <> [] -> App.sourceCode st <> [] ->
      App.swapLanguages (App.swapLanguages st)
      = App.mkState (App.sourceCode st) (App.convertedCode st)
                    (App.fromLanguage st) (App.toLanguage st)
                    (App.isConverting st) [] [] (App.successMessage st))
  /\ (App.convertedCode st <> [] -> App.sourceCode st = [] ->
      App.swapLanguages (App.swapLanguages st)
      = App.mkState (App.convertedCode st) [] (App.toLanguage st) (App.fromLanguage st)
                    (App.isConverting st) [] [] (App.successMessage st)).
Proof.
  unfold App.swapLanguages. destruct st as [s c f t ic e w m]. cbn.
  destruct c as [|x c]; destruct s as [|y s]; cbn; repeat split; congruence.
Qed.

(** ** Statements get one semicolon *)

Lemma startsWith_app_self (b x : str) : Str.startsWith (b ++ x) b = true.
Proof. induction b as [|c b IH]; [apply startsWith_nil|]. simpl. now rewrite ceq_refl. Qed.

Lemma endsWith_app_self (a b : str) : Str.endsWith (a ++ b) b = true.
Proof. unfold Str.endsWith. rewrite rev_app_distr. apply startsWith_app_self. Qed.

Lemma trim_semicolon (t : str) :
  t <> [] -> Str.trim t = t -> Str.trim (t ++ L ";") = t ++ L ";".
Proof.
  intros Hn Ht. apply trim_fix.
  - pose proof (trim_starts_solid t) as H. rewrite Ht in H.
    destruct t; [congruence | exact H].
  - unfold ends_solid. rewrite rev_app_distr. reflexivity.
Qed.

Lemma formatExpression_semicolon_again (extra : str -> bool) (node : Node) (s : str) :
  formatExpression_semicolon extra node = Some s ->
  formatExpression_semicolon extra (with_originalLine node s) = Some s.
Proof.
  unfold formatExpression_semicolon. cbn [with_originalLine originalLine truthy_opt or_empty].
  destruct (truthy_opt (originalLine node)) eqn:Eo; cbn [negb].
  - set (l := Str.trim (or_empty (originalLine node))).
    assert (Hl : Str.trim l = l) by apply trim_idempotent.
    destruct (wants_semicolon l && extra l) eqn:Ew; intros H; injection H as <-.
    + assert (Hn : l <> []).
      { intros E. rewrite E in Ew. discriminate. }
      assert (Ht : Str.truthy (l ++ L ";") = true) by (destruct l; reflexivity).
      change [";"%char] with (L ";"). rewrite Ht. cbn [negb]. rewrite (trim_semicolon Hn Hl).
      unfold wants_semicolon. rewrite endsWith_app_self, Ht. reflexivity.
    + destruct (Str.truthy l) eqn:Et; cbn [negb].
      * rewrite Hl, Ew. reflexivity.
      * destruct l; [reflexivity | discriminate].
  - intros H. injection H as <-. reflexivity.
Qed.

Lemma formatExpression_trim_again (node : Node) (s : str) :
  (if negb (truthy_opt (originalLine node)) then Some []
   else Some (Str.trim (or_empty (originalLine node)))) = Some s ->
  (if negb (Str.truthy s) then Some [] else Some (Str.trim s)) = Some s.
Proof.
  destruct (truthy_opt (originalLine node)); cbn [negb]; intros H; injection H as <-.
  - destruct (Str.truthy _) eqn:Et; cbn [negb].
    + now rewrite trim_idempotent.
    + destruct (Str.trim _); [reflexivity | discriminate].
  - reflexivity.
Qed.

(** X19.  [formatExpression] is idempotent for every converter but Python's:
    applied to a node that carries its own output as the original line it
    returns that output again, so no statement is given a second
    semicolon. *)
Theorem formatExpression_once (l : Lang) (node : Node) (s : str) :
  l <> python ->
  This.formatExpression (converter_of l) node = Some s ->
  This.formatExpression (converter_of l) (with_originalLine node s) = Some s.
Proof.
  intros Hl. destruct l; try congruence;
    cbn [converter_of This.formatExpression JavaScript.converter Java.converter
           TypeScript.converter CSharp.converter Cpp.converter Php.converter
           Go.converter Rust.converter Kotlin.converter];
    try apply formatExpression_semicolon_again.
  - unfold Base.formatOriginal. cbn [with_originalLine originalLine or_empty].
    intros H. injection H as <-. reflexivity.
  - unfold Go.formatExpression. cbn [with_originalLine originalLine truthy_opt or_empty].
    apply formatExpression_trim_again.
  - unfold Kotlin.formatExpression. cbn [with_originalLine originalLine truthy_opt or_empty].
    apply formatExpression_trim_again.
Qed.

(** The theorem at the Java converter and the statement [foo()]. *)
Lemma formatExpression_once_witness :
  This.formatExpression (converter_of java)
    (with_originalLine (line_node Expression (L "foo()") 1 0 None) (L "foo();"))
  = Some (L "foo();").
Proof.
  apply (@formatExpression_once java (line_node Expression (L "foo()") 1 0 None)).
  - discriminate.
  - vm_compute. reflexivity.
Defined.

(** ** The comment map *)

Section CommentMap.

Variable c : Converter.

Ltac extract_step i n lines :=
  destruct (Base.extract_lines c i n lines) as [[?cl ?cs] ?mp].

Lemma extract_lines_records (lines : list str) :
  forall i n j ln,
    nth_error lines j = Some ln ->
    match recorded_comment c (i + j) ln with
    | None => map_get (i + j) (snd (Base.extract_lines c i n lines)) = None
    | Some cm =>
        exists idx,
          map_get (i + j) (snd (Base.extract_lines c i n lines)) = Some (n + idx)
          /\ nth_error (snd (fst (Base.extract_lines c i n lines))) idx = Some cm
    end.
Proof.
  induction lines as [|l0 lines IH]; intros i n j ln Hj; [destruct j; discriminate|].
  destruct j as [|j]; simpl in Hj.
  - inversion Hj; subst l0; clear Hj. rewrite Nat.add_0_r.
    unfold recorded_comment, comment_kind. simpl Base.extract_lines.
    destruct (Str.truthy ln); simpl negb; cbv iota.
    + destruct (This.isFullLineComment c (Str.trim ln)).
      * extract_step (S i) (S n) lines. simpl.
        rewrite Nat.eqb_refl. exists 0. rewrite Nat.add_0_r. auto.
      * destruct (This.hasInlineComment c ln).
        -- destruct (This.splitInlineComment c ln) as [code comment].
           extract_step (S i) (S n) lines. simpl.
           rewrite Nat.eqb_refl. exists 0. rewrite Nat.add_0_r. auto.
        -- pose proof (@extract_lines_keys c lines (S i) n i ltac:(lia)) as Hk.
           extract_step (S i) n lines. exact Hk.
    + pose proof (@extract_lines_keys c lines (S i) n i ltac:(lia)) as Hk.
      extract_step (S i) n lines. exact Hk.
  - replace (i + S j) with (S i + j) by lia.
    assert (Hne : (i =? S i + j) = false) by (apply Nat.eqb_neq; lia).
    simpl Base.extract_lines.
    destruct (Str.truthy l0); simpl negb; cbv iota.
    + destruct (This.isFullLineComment c (Str.trim l0)).
      * specialize (IH (S i) (S n) j ln Hj).
        extract_step (S i) (S n) lines.
        simpl in *. rewrite Hne.
        destruct (recorded_comment c (S (i + j)) ln); [|exact IH].
        destruct IH as (idx & H1 & H2).
        exists (S idx). replace (n + S idx) with (S (n + idx)) by lia. auto.
      * destruct (This.hasInlineComment c l0).
        -- destruct (This.splitInlineComment c l0) as [code comment].
           specialize (IH (S i) (S n) j ln Hj).
           extract_step (S i) (S n) lines.
           simpl in *. rewrite Hne.
           destruct (recorded_comment c (S (i + j)) ln); [|exact IH].
           destruct IH as (idx & H1 & H2).
           exists (S idx). replace (n + S idx) with (S (n + idx)) by lia. auto.
        -- specialize (IH (S i) n j ln Hj).
           extract_step (S i) n lines. exact IH.
    + specialize (IH (S i) n j ln Hj).
      extract_step (S i) n lines. exact IH.
Qed.

Lemma extract_lines_origin (lines : list str) :
  forall i n idx cm,
    nth_error (snd (fst (Base.extract_lines c i n lines))) idx = Some cm ->
    exists j ln,
      nth_error lines j = Some ln
      /\ recorded_comment c (i + j) ln = Some cm
      /\ map_get (i + j) (snd (Base.extract_lines c i n lines)) = Some (n + idx).
Proof.
  induction lines as [|l0 lines IH]; intros i n idx cm H;
    [destruct idx; discriminate|].
  assert (Hshift : forall n' idx',
             (exists j ln, nth_error lines j = Some ln
                /\ recorded_comment c (S i + j) ln = Some cm
                /\ map_get (S i + j) (snd (Base.extract_lines c (S i) n' lines))
                   = Some (n' + idx')) ->
             forall mp0, (forall k, i < k ->
                            map_get k mp0
                            = map_get k (snd (Base.extract_lines c (S i) n' lines))) ->
             exists j ln, nth_error (l0 :: lines) j = Some ln
                /\ recorded_comment c (i + j) ln = Some cm
                /\ map_get (i + j) mp0 = Some (n' + idx')).
  { intros n' idx' (j & ln & H1 & H2 & H3) mp0 Hmp.
    exists (S j), ln. replace (i + S j) with (S i + j) by lia.
    repeat split; auto. rewrite Hmp by lia. exact H3. }
  revert H. unfold recorded_comment at 1.
  simpl Base.extract_lines.
  destruct (Str.truthy l0) eqn:Et; simpl negb; cbv iota.
  - destruct (This.isFullLineComment c (Str.trim l0)) eqn:Ef.
    + pose proof (IH (S i) (S n)) as IH'.
      pose proof (Hshift (S n)) as Hs.
      extract_step (S i) (S n) lines. cbn [fst snd] in *.
      destruct idx as [|idx]; cbn [nth_error].
      * intros H. injection H as <-. exists 0, l0. rewrite Nat.add_0_r.
        split; [reflexivity|]. split.
        -- unfold recorded_comment, comment_kind. rewrite Et, Ef. reflexivity.
        -- simpl. rewrite Nat.eqb_refl. now rewrite Nat.add_0_r.
      * intros H. replace (n + S idx) with (S n + idx) by lia.
        apply (Hs idx (IH' idx cm H)).
        intros k Hk. simpl. replace (i =? k) with false; [reflexivity|].
        symmetry. apply Nat.eqb_neq. lia.
    + destruct (This.hasInlineComment c l0) eqn:Eh.
      * destruct (This.splitInlineComment c l0) as [code comment] eqn:Es.
        pose proof (IH (S i) (S n)) as IH'.
        pose proof (Hshift (S n)) as Hs.
        extract_step (S i) (S n) lines. cbn [fst snd] in *.
        destruct idx as [|idx]; cbn [nth_error].
        -- intros H. injection H as <-. exists 0, l0. rewrite Nat.add_0_r.
           split; [reflexivity|]. split.
           ++ unfold recorded_comment, comment_kind. rewrite Et, Ef, Eh, Es. reflexivity.
           ++ simpl. rewrite Nat.eqb_refl. now rewrite Nat.add_0_r.
        -- intros H. replace (n + S idx) with (S n + idx) by lia.
           apply (Hs idx (IH' idx cm H)).
           intros k Hk. simpl. replace (i =? k) with false; [reflexivity|].
           symmetry. apply Nat.eqb_neq. lia.
      * pose proof (IH (S i) n) as IH'.
        pose proof (Hshift n) as Hs.
        extract_step (S i) n lines. cbn [fst snd] in *.
        intros H. apply (Hs idx (IH' idx cm H)). reflexivity.
  - pose proof (IH (S i) n) as IH'.
    pose proof (Hshift n) as Hs.
    extract_step (S i) n lines. cbn [fst snd] in *.
    intros H. apply (Hs idx (IH' idx cm H)). reflexivity.
Qed.

End CommentMap.

(** X20.  [extractCommentsWithContext] records one comment for each line that
    is a comment or carries one, and the map finds it again: under the
    index of such a line the map holds the position of the line's comment
    in the list, no other index is a key, and every comment of the list
    is the one recorded for the line whose index it carries, found under
    that index at its own position. *)
Theorem extractCommentsWithContext_roundtrip (c : Converter) (sourceCode : str) :
  let ex := Base.extractCommentsWithContext c sourceCode in
  (forall j ln,
     nth_error (Str.lines sourceCode) j = Some ln ->
     match recorded_comment c j ln with
     | None => map_get j (commentMap ex) = None
     | Some cm =>
         exists idx, map_get j (commentMap ex) = Some idx
                     /\ nth_error (comments ex) idx = Some cm
     end)
  /\ (forall idx cm,
        nth_error (comments ex) idx = Some cm ->
        exists ln,
          nth_error (Str.lines sourceCode) (coriginalLine cm) = Some ln
          /\ recorded_comment c (coriginalLine cm) ln = Some cm
          /\ map_get (coriginalLine cm) (commentMap ex) = Some idx).
Proof.
  cbv zeta. unfold Base.extractCommentsWithContext.
  destruct sourceCode as [|a s].
  - cbn [Str.truthy negb comments commentMap]. split.
    + intros j ln Hj. destruct j as [|[|j]]; try discriminate.
      injection Hj as <-. reflexivity.
    + intros idx cm H. destruct idx; discriminate.
  - cbn [Str.truthy negb]. set (src := a :: s).
    pose proof (@extract_lines_records c (Str.lines src) 0 0) as Hf.
    pose proof (@extract_lines_origin c (Str.lines src) 0 0) as Hb.
    destruct (Base.extract_lines c 0 0 (Str.lines src)) as [[cl cs] mp].
    cbn [fst snd comments commentMap] in *. split.
    + intros j ln Hj. exact (Hf j ln Hj).
    + intros idx cm H. destruct (Hb idx cm H) as (j & ln & H1 & H2 & H3).
      assert (Ej : coriginalLine cm = j).
      { unfold recorded_comment in H2.
        destruct (comment_kind c ln) as [[|]|]; try discriminate;
          injection H2 as <-; reflexivity. }
      rewrite Ej. exists ln. auto.
Qed.

(** ** The brace check of the Java converter *)

Lemma count_char_app (c : ascii) (a b : str) :
  Str.count_char c (a ++ b) = Str.count_char c a + Str.count_char c b.
Proof. unfold Str.count_char. now rewrite filter_app, length_app. Qed.

Lemma count_char_ws (c : ascii) (w : str) :
  Str.is_ws c = false -> all_ws w = true -> Str.count_char c w = 0.
Proof.
  intros Hc. unfold Str.count_char. induction w as [|d w IH]; intros H; [reflexivity|].
  simpl in H. apply andb_prop in H as [Hd H]. simpl.
  destruct (Str.ceq c d) eqn:E; [|now apply IH].
  apply ceq_eq in E. congruence.
Qed.

Lemma count_char_trim (c : ascii) (l : str) :
  Str.is_ws c = false -> Str.count_char c (Str.trim l) = Str.count_char c l.
Proof.
  intros Hc. destruct (trimStart_split l) as (a & Ea & Ha).
  destruct (trimEnd_split (Str.trimStart l)) as (b & Eb & Hb).
  fold (Str.trim l) in Eb.
  assert (E : l = a ++ Str.trim l ++ b) by (rewrite <- Eb; exact Ea).
  set (t := Str.trim l) in *. rewrite E.
  rewrite !count_char_app, (@count_char_ws c a Hc Ha), (@count_char_ws c b Hc Hb). lia.
Qed.

Lemma count_char_unlines (c : ascii) (ls : list str) :
  Str.ceq c Str.nl = false ->
  Str.count_char c (Str.unlines ls)
  = fold_right (fun l acc => Str.count_char c l + acc) 0 ls.
Proof.
  intros Hc. induction ls as [|x ls IH]; [reflexivity|].
  destruct ls as [|y ls]; [unfold Str.unlines; cbn [Str.join fold_right]; lia|].
  rewrite unlines_cons by discriminate.
  rewrite count_char_app. cbn [fold_right].
  change (Str.nl :: Str.unlines (y :: ls)) with ([Str.nl] ++ Str.unlines (y :: ls)).
  rewrite count_char_app, IH. unfold Str.count_char at 2. cbn [filter].
  rewrite Hc. reflexivity.
Qed.

Lemma braceCount_from (ls : list str) :
  forall acc,
    fold_left (fun a l => (a + brace_delta l)%Z) ls acc
    = (acc + Z.of_nat (fold_right (fun l a => (Str.count_char "{" l + a)%nat) 0%nat ls)
       - Z.of_nat (fold_right (fun l a => (Str.count_char "}" l + a)%nat) 0%nat ls))%Z.
Proof.
  induction ls as [|l ls IH]; intros acc; [simpl; lia|].
  cbn [fold_left fold_right]. rewrite IH. unfold brace_delta. lia.
Qed.

Lemma fold_count_trim (c : ascii) (ls : list str) :
  Str.is_ws c = false ->
  fold_right (fun l a => Str.count_char c l + a) 0 (map Str.trim ls)
  = fold_right (fun l a => Str.count_char c l + a) 0 ls.
Proof.
  intros Hc. induction ls as [|l ls IH]; [reflexivity|].
  cbn [map fold_right]. now rewrite IH, count_char_trim.
Qed.

(** The count the loop keeps, line by line on trimmed lines, is the
    difference of the numbers of opening and closing braces of the whole
    text. *)
Lemma braceCount_whole (code : str) :
  braceCount (map Str.trim (Str.lines code))
  = (Z.of_nat (Str.count_char "{" code) - Z.of_nat (Str.count_char "}" code))%Z.
Proof.
  unfold braceCount. rewrite braceCount_from.
  rewrite !fold_count_trim by reflexivity.
  rewrite <- !count_char_unlines by reflexivity.
  rewrite unlines_lines. lia.
Qed.

(** X21.  The Java converter warns of unmatched braces exactly when the source
    holds different numbers of opening and closing braces, wherever they
    stand and however long the source is. *)
Theorem java_unmatched_braces (code : str) :
  In (mkWarning (L "Unmatched braces detected") None (L "Java"))
     (This.validateSyntax (converter_of java) code)
  <-> Str.count_char "{" code <> Str.count_char "}" code.
Proof.
  cbn [converter_of Java.converter This.validateSyntax].
  unfold Java.validateSyntax. cbv zeta. rewrite braceCount_whole.
  rewrite !in_app_iff.
  assert (Hbase : ~ In (mkWarning (L "Unmatched braces detected") None (L "Java"))
                       (Base.validateSyntax Java.languageName code)).
  { unfold Base.validateSyntax. cbv zeta.
    destruct (5000 <? _); [intros [H|[]]; discriminate|].
    rewrite in_app_iff.
    destruct (negb _), (Str.includes code _); simpl; intuition discriminate. }
  assert (Hclass : ~ In (mkWarning (L "Unmatched braces detected") None (L "Java"))
                        (if negb (existsb (fun l => Str.includes l (L "class "))
                                          (map Str.trim (Str.lines code)))
                         then [mkWarning (L "Java code should contain at least one class")
                                 None Java.languageName]
                         else [])).
  { destruct (negb _); simpl; intuition discriminate. }
  split.
  - intros [H|[H|H]]; [contradiction | contradiction |].
    destruct (_ =? 0)%Z eqn:E; cbn [negb] in H; [destruct H|].
    apply Z.eqb_neq in E. lia.
  - intros H. right. right.
    replace (_ =? 0)%Z with false; [left; reflexivity|].
    symmetry. apply Z.eqb_neq. lia.
Qed.

(** ** Inline comments on lines without string literals *)

Lemma string_literal_quote (p rst : str) (s1 : Regex.st) :
  Regex.match_here JavaScript.re_string_literal p rst = Some s1 ->
  exists c rst', rst = c :: rst' /\ is_quote c = true.
Proof.
  unfold Regex.match_here. intros H.
  apply m_sound in H as (s2 & Hr & _).
  pose (r' := JavaScript.re_string_literal).
  assert (Er : JavaScript.re_string_literal = r') by reflexivity.
  vm_compute in r'. rewrite Er in Hr. subst r'. clear Er.
  apply reach_seq in Hr as (s3 & Hg & _).
  apply reach_group in Hg as (s4 & txt & Hc & _).
  destruct Hc as (c & Hs & Hin).
  destruct rst as [|d rst']; [discriminate|].
  simpl in Hs. injection Hs as <- _.
  exists d, rst'. split; [reflexivity|].
  unfold Regex.in_set in Hin. cbn in Hin.
  apply orb_prop in Hin as [E|E].
  - apply ceq_eq in E. subst d. reflexivity.
  - apply orb_prop in E as [E|E]; [|discriminate].
    apply ceq_eq in E. subst d. reflexivity.
Qed.

(** Where every match of the pattern begins with a character of a kind
    that the text does not hold, [split] returns the text in one piece. *)
Lemma split_loop_plain (r : Regex.re) (q : ascii -> bool) :
  (forall p rst s1, Regex.match_here r p rst = Some s1 ->
     exists c rst', rst = c :: rst' /\ q c = true) ->
  forall fuel pend p rst,
    forallb (fun c => negb (q c)) rst = true ->
    Regex.split_loop r fuel pend p rst = [Some (rev pend ++ rst)].
Proof.
  intros Hr. induction fuel as [|fuel IH]; intros pend p rst H; [reflexivity|].
  destruct rst as [|c rst]; [simpl; now rewrite app_nil_r|].
  cbn [Regex.split_loop].
  destruct (Regex.match_here r p (c :: rst)) as [s1|] eqn:E.
  - apply Hr in E as (d & rst' & E & Hd). injection E as <- <-.
    simpl in H. rewrite Hd in H. discriminate.
  - simpl in H. apply andb_prop in H as [_ H].
    rewrite (IH (c :: pend) (c :: p) rst H). simpl. now rewrite <- app_assoc.
Qed.

Lemma indexOf_from_spec (p : str) (s : str) :
  forall i k,
    Str.indexOf_from i s p = Some k ->
    exists j, k = i + j /\ Str.startsWith (skipn j s) p = true
              /\ forall m, m < j -> Str.startsWith (skipn m s) p = false.
Proof.
  induction s as [|c s IH]; intros i k H; cbn [Str.indexOf_from] in H.
  - destruct (Str.startsWith [] p) eqn:E; [|discriminate].
    injection H as <-. exists 0. repeat split; auto. intros m Hm. lia.
  - destruct (Str.startsWith (c :: s) p) eqn:E.
    + injection H as <-. exists 0. repeat split; auto. intros m Hm. lia.
    + apply IH in H as (j & -> & H1 & H2). exists (S j). repeat split; [lia | exact H1 |].
      intros [|m] Hm; [exact E | apply H2; lia].
Qed.

(** X22.  On a line without a quote character the JavaScript converter's
    [hasInlineComment] is [line.includes('//')], and where it is true
    [splitInlineComment] cuts at the first marker: the code is the trimmed
    text before it and the comment the trimmed text from it on. *)
Theorem javascript_inline_comment_plain (ln : str) :
  no_quote ln = true ->
  JavaScript.hasInlineComment ln = Str.includes ln (L "//")
  /\ (JavaScript.hasInlineComment ln = true ->
      exists idx,
        Str.startsWith (skipn idx ln) (L "//") = true
        /\ (forall m, m < idx -> Str.startsWith (skipn m ln) (L "//") = false)
        /\ JavaScript.splitInlineComment ln
           = (Str.trim (firstn idx ln), Str.trim (skipn idx ln))).
Proof.
  intros Hq.
  assert (E : JavaScript.hasInlineComment ln = Str.includes ln (L "//")).
  { unfold JavaScript.hasInlineComment. destruct ln as [|c ln]; [reflexivity|].
    cbn [Str.truthy negb]. unfold Regex.split.
    rewrite (@split_loop_plain JavaScript.re_string_literal is_quote
               (@string_literal_quote) _ [] [] _ Hq).
    cbn [rev app JavaScript.outside_has_comment truthy_opt or_empty Str.truthy andb].
    now rewrite orb_false_r. }
  split; [exact E|]. rewrite E. unfold Str.includes, Str.indexOf.
  unfold JavaScript.splitInlineComment, Str.indexOf.
  destruct (Str.indexOf_from 0 ln (L "//")) as [k|] eqn:Ei; [|discriminate].
  intros _. apply indexOf_from_spec in Ei as (j & -> & H1 & H2).
  exists j. repeat split; auto.
  unfold Str.substring, Str.substringFrom.
  cbn [Nat.add]. rewrite Nat.max_0_l, Nat.min_0_l, Nat.sub_0_r. reflexivity.
Qed.

(** The theorem at a line with a trailing comment. *)
Lemma javascript_inline_comment_plain_witness :
  JavaScript.hasInlineComment (L "a = 1; // one") = Str.includes (L "a = 1; // one") (L "//")
  /\ (JavaScript.hasInlineComment (L "a = 1; // one") = true ->
      exists idx,
        Str.startsWith (skipn idx (L "a = 1; // one")) (L "//") = true
        /\ (forall m, m < idx -> Str.startsWith (skipn m (L "a = 1; // one")) (L "//") = false)
        /\ JavaScript.splitInlineComment (L "a = 1; // one")
           = (Str.trim (firstn idx (L "a = 1; // one")),
              Str.trim (skipn idx (L "a = 1; // one")))).
Proof. apply javascript_inline_comment_plain. vm_compute. reflexivity. Defined.

(** ** Brace balance and the level of the loop *)















(** ** The loop on a text it returned *)
























(** ** Idempotence of [formatCode] *)





